(** * security-technopark: a MITM HTTP/HTTPS proxy

    A shallow embedding of the Go package [internal/proxy] and of the
    properties its specification states about it.

    - [Module CA]: the root CA loader ([LoadCA] and helpers).
    - [Module Mint]: the leaf certificate store ([GetOrCreateCertificate]).
    - [Module GoStrings], [Module GoNet]: the functions of Go's [strings],
      [net/url] and [net] packages the proxy calls, on byte strings.
    - [Module Plain]: the two plain-forwarding handlers
      ([ConnectionHandler] and [RequestProcessor]).
    - [Module Fixture]: a small instance of the library to run examples.

    Calls into Go's standard library that parse or produce opaque byte
    formats (PEM, DER, URLs, RSA key generation) are fields of the record
    [Externals]; everything the repository itself computes is defined
    here, function by function, under the name it has in the source.
    Where two structs of the source share a field name, or the name is a
    keyword, the second one gets a trailing underscore ([Type_],
    [headers_], [value_]); the public key of an [x509.Certificate] is
    [SubjectPublicKey], to tell it from the [PublicKey] of an
    [rsa.PrivateKey]. *)

From Stdlib Require Import ZArith Ascii String List Lia Bool.
From Stdlib.Strings Require Import Byte.
From stdpp Require Import base option list gmap strings.
From Equations Require Import Equations.
Import ListNotations.

Set Warnings "-abstract-large-number".

Local Open Scope string_scope.
Local Open Scope list_scope.

(** ** Go errors and results *)

(** One constructor per [fmt.Errorf] site of the package (the messages
    themselves are not modelled), plus the library errors the code
    distinguishes. [cause] is the error wrapped with [%w]. *)
Inductive error : Type :=
  | io_EOF
  | ErrDeadlineExceeded
  | LibraryError (origin : string)
  | ErrReadFile (path : string) (cause : error)
  | ErrFileEmpty (path : string)
  | ErrCannotReadCert (cause : error)
  | ErrCannotReadKey (cause : error)
  | ErrLoadFiles (cause : error)
  | ErrProcessData (cause : error)
  | ErrPEMFormatCert
  | ErrPEMFormatKey
  | ErrPEMBlockType (found : string)
  | ErrParseCert (cause : error)
  | ErrParseKey (cause : error)
  | ErrNotInitialized
  | ErrRSAKey (cause : error)
  | ErrSerial (cause : error)
  | ErrCreateCert (cause : error)
  | ErrTLSCert (cause : error)
  | ErrGenerate (cause : error)
  | ErrRequestFormat
  | ErrCannotReadRequest.

(** A Go pair [(value, err)]. *)
Inductive result (A : Type) : Type :=
  | Ok (a : A)
  | Err (e : error).
Arguments Ok {A} a.
Arguments Err {A} e.

Definition is_err {A} (r : result A) : bool :=
  match r with Ok _ => false | Err _ => true end.

(** A returned [error] value: [None] is [nil]. *)
Definition failed (e : option error) : bool :=
  match e with None => false | Some _ => true end.

#[global] Instance error_eq_dec : EqDecision error.
Proof. solve_decision. Defined.

(** ** Data of the crypto packages the code handles *)

Record rsa_PublicKey : Type := { N : Z; E : Z }.
Record rsa_PrivateKey : Type := { PublicKey : rsa_PublicKey; D : Z }.

Record pkix_Name : Type := {
  CommonName : string;
  Organization : list string
}.

Inductive x509_ExtKeyUsage : Type :=
  | ExtKeyUsageAny
  | ExtKeyUsageServerAuth
  | ExtKeyUsageClientAuth
  | ExtKeyUsageCodeSigning.

(** The fields of [x509.Certificate] that the package reads or writes.
    Times are nanoseconds since the epoch. *)
Record x509_Certificate : Type := {
  SerialNumber : Z;
  Subject : pkix_Name;
  NotBefore : Z;
  NotAfter : Z;
  KeyUsage : Z;
  ExtKeyUsage : list x509_ExtKeyUsage;
  BasicConstraintsValid : bool;
  DNSNames : list string;
  SubjectPublicKey : option rsa_PublicKey
}.

Record pem_Block : Type := { Type_ : string; Bytes : list byte }.

Record tls_Certificate : Type := {
  Certificate : list (list byte);
  PrivateKey : rsa_PrivateKey
}.

#[global] Instance rsa_PublicKey_eq_dec : EqDecision rsa_PublicKey.
Proof. solve_decision. Defined.

(** The target of a parsed request, as [net/url] returns it. [EscapedPath]
    holds the value of the method [u.EscapedPath()]. *)
Record url_URL : Type := {
  Scheme : string;
  Opaque : string;
  Host : string;
  EscapedPath : string;
  ForceQuery : bool;
  RawQuery : string
}.

(** ** The standard library and the operating system

    [rand.Reader] and the clock are part of the run-time state
    ([Mint.Runtime]); the functions below are pure in their arguments. *)
Record Externals : Type := {
  os_ReadFile : string -> result (list byte);
  pem_Decode : list byte -> option pem_Block * list byte;
  pem_EncodeToMemory : pem_Block -> list byte;
  x509_ParseCertificate : list byte -> result x509_Certificate;
  x509_ParsePKCS1PrivateKey : list byte -> result rsa_PrivateKey;
  x509_MarshalPKCS1PrivateKey : rsa_PrivateKey -> list byte;
  (* consumes bytes of [rand.Reader], returns what is left of it *)
  rsa_GenerateKey : list byte -> Z -> result rsa_PrivateKey * list byte;
  x509_CreateCertificate :
    x509_Certificate -> x509_Certificate -> rsa_PublicKey -> rsa_PrivateKey ->
    result (list byte);
  tls_X509KeyPair : list byte -> list byte -> result tls_Certificate;
  url_Parse : string -> result url_URL;
  (* the order in which [range] visits a header map *)
  map_range : gmap string string -> list (string * string)
}.

(** ** Root CA loader *)
Module CA.

Record CertificateManager : Type := {
  rootCertificate : option x509_Certificate;
  privateKey : option rsa_PrivateKey
}.

(** [var certManager = &CertificateManager{}] *)
Definition certManager : CertificateManager :=
  {| rootCertificate := None; privateKey := None |}.

Section Loader.
Context (X : Externals).

Definition readSecureFile (path : string) : result (list byte) :=
  match os_ReadFile X path with
  | Err err => Err (ErrReadFile path err)
  | Ok content =>
      if (length content =? 0)%nat then Err (ErrFileEmpty path)
      else Ok content
  end.

Definition loadCertificateFiles (certPath keyPath : string)
  : result (list byte * list byte) :=
  match readSecureFile certPath with
  | Err err => Err (ErrCannotReadCert err)
  | Ok certContent =>
      match readSecureFile keyPath with
      | Err err => Err (ErrCannotReadKey err)
      | Ok keyContent => Ok (certContent, keyContent)
      end
  end.

Definition parseCertificateBlock (data : list byte) : result x509_Certificate :=
  match pem_Decode X data with
  | (None, _) => Err ErrPEMFormatCert
  | (Some block, rest) =>
      if (0 <? length rest)%nat then Err ErrPEMFormatCert
      else if negb (String.eqb (Type_ block) "CERTIFICATE")
      then Err (ErrPEMBlockType (Type_ block))
      else match x509_ParseCertificate X (Bytes block) with
           | Err err => Err (ErrParseCert err)
           | Ok cert => Ok cert
           end
  end.

Definition parsePrivateKeyBlock (data : list byte) : result rsa_PrivateKey :=
  match pem_Decode X data with
  | (None, _) => Err ErrPEMFormatKey
  | (Some block, rest) =>
      if (0 <? length rest)%nat then Err ErrPEMFormatKey
      else if negb (String.eqb (Type_ block) "RSA PRIVATE KEY")
      then Err (ErrPEMBlockType (Type_ block))
      else match x509_ParsePKCS1PrivateKey X (Bytes block) with
           | Err err => Err (ErrParseKey err)
           | Ok key => Ok key
           end
  end.

(** A method with a pointer receiver: the manager is threaded through. *)
Definition processCertificateData (cm : CertificateManager)
    (certData keyData : list byte) : option error * CertificateManager :=
  match parseCertificateBlock certData with
  | Err err => (Some err, cm)
  | Ok cert =>
      match parsePrivateKeyBlock keyData with
      | Err err => (Some err, cm)
      | Ok key =>
          (None, {| rootCertificate := Some cert; privateKey := Some key |})
      end
  end.

Definition InitializeCertificateAuthority (certPath keyPath : string)
    (cm : CertificateManager) : option error * CertificateManager :=
  match loadCertificateFiles certPath keyPath with
  | Err err => (Some (ErrLoadFiles err), cm)
  | Ok (certData, keyData) =>
      match processCertificateData cm certData keyData with
      | (Some err, cm') => (Some (ErrProcessData err), cm')
      | (None, cm') => (None, cm')
      end
  end.

Definition LoadCA (certPath keyPath : string) (cm : CertificateManager)
  : option error * CertificateManager :=
  InitializeCertificateAuthority certPath keyPath cm.

Definition GetCertificateAndKey (cm : CertificateManager)
  : option x509_Certificate * option rsa_PrivateKey :=
  (rootCertificate cm, privateKey cm).

(** *** The failure conditions, in the words of the specification

    Each condition is stated for one file, independently of the other. *)

(** "the file is unreadable or empty" *)
Definition unreadable_or_empty (path : string) : bool :=
  match os_ReadFile X path with
  | Err _ => true
  | Ok content => (length content =? 0)%nat
  end.

(** "the file does not decode as exactly one PEM block with no trailing
    bytes" *)
Definition not_one_pem_block (path : string) : bool :=
  match os_ReadFile X path with
  | Err _ => false
  | Ok content =>
      match pem_Decode X content with
      | (None, _) => true
      | (Some _, rest) => negb (length rest =? 0)%nat
      end
  end.

(** "the block's type differs from [label]" *)
Definition block_type_differs (path label : string) : bool :=
  match os_ReadFile X path with
  | Err _ => false
  | Ok content =>
      match pem_Decode X content with
      | (None, _) => false
      | (Some block, _) => negb (String.eqb (Type_ block) label)
      end
  end.

(** "X.509 / PKCS#1 parsing fails" (of the decoded block's bytes) *)
Definition block_parse_fails {A} (parse : list byte -> result A)
    (path : string) : bool :=
  match os_ReadFile X path with
  | Err _ => false
  | Ok content =>
      match pem_Decode X content with
      | (None, _) => false
      | (Some block, _) => is_err (parse (Bytes block))
      end
  end.

Definition load_must_fail (certPath keyPath : string) : bool :=
  unreadable_or_empty certPath || unreadable_or_empty keyPath
  || not_one_pem_block certPath || not_one_pem_block keyPath
  || block_type_differs certPath "CERTIFICATE"
  || block_type_differs keyPath "RSA PRIVATE KEY"
  || block_parse_fails (x509_ParseCertificate X) certPath
  || block_parse_fails (x509_ParsePKCS1PrivateKey X) keyPath.

(** The certificate (resp. key) a file holds when it is not empty and is
    a single, correctly labelled, parseable PEM block. *)
Definition certificate_in (path : string) : option x509_Certificate :=
  match os_ReadFile X path with
  | Ok [] => None
  | Ok content =>
      match pem_Decode X content with
      | (Some block, []) =>
          if String.eqb (Type_ block) "CERTIFICATE" then
            match x509_ParseCertificate X (Bytes block) with
            | Ok cert => Some cert
            | Err _ => None
            end
          else None
      | _ => None
      end
  | Err _ => None
  end.

Definition key_in (path : string) : option rsa_PrivateKey :=
  match os_ReadFile X path with
  | Ok [] => None
  | Ok content =>
      match pem_Decode X content with
      | (Some block, []) =>
          if String.eqb (Type_ block) "RSA PRIVATE KEY" then
            match x509_ParsePKCS1PrivateKey X (Bytes block) with
            | Ok key => Some key
            | Err _ => None
            end
          else None
      | _ => None
      end
  | Err _ => None
  end.

End Loader.
End CA.

(** ** Leaf certificate mint and cache *)
Module Mint.

(** A [*tls.Certificate]: the index of the bundle in the heap of
    allocated bundles. Two calls return "the same object" when they
    return the same pointer. *)
Definition ptr : Type := nat.

Local Open Scope Z_scope.

Record CertificateGenerator : Type := {
  keySize : Z;
  organization : string;
  validityDays : Z;
  rootCert : option x509_Certificate;
  rootKey : option rsa_PrivateKey
}.

(** The [sync.RWMutex] is not modelled: calls are taken one at a time. *)
Record CertificateStore : Type := {
  cache : gmap string ptr;
  generator : CertificateGenerator
}.

(** What a call reads and changes besides the store: the bundles
    allocated so far, the bytes [rand.Reader] will deliver (running out
    of them is a read error) and the clock. *)
Record Runtime : Type := {
  heap : list tls_Certificate;
  rand_Reader : list byte;
  now : Z
}.

Definition NewCertificateStore : CertificateStore :=
  {| cache := ∅;
     generator := {| keySize := 2048;
                     organization := "MITM Security Proxy";
                     validityDays := 30;
                     rootCert := None;
                     rootKey := None |} |}.

Definition defaultStore : CertificateStore := NewCertificateStore.

(** *** [crypto/rand.Int], [time] and [x509] constants *)

Definition int64 (z : Z) : Z := (z + 2 ^ 63) mod 2 ^ 64 - 2 ^ 63.

Definition time_Nanosecond : Z := 1.
Definition time_Second : Z := 1000000000 * time_Nanosecond.
Definition time_Hour : Z := 3600 * time_Second.

Definition x509_KeyUsageDigitalSignature : Z := Z.shiftl 1 0.
Definition x509_KeyUsageContentCommitment : Z := Z.shiftl 1 1.
Definition x509_KeyUsageKeyEncipherment : Z := Z.shiftl 1 2.

Definition byte_val (b : byte) : Z := Z.of_N (Byte.to_N b).

(** [big.Int.SetBytes]: big-endian unsigned. *)
Definition SetBytes (bs : list byte) : Z :=
  fold_left (fun acc b => acc * 256 + byte_val b) bs 0.

Definition BitLen (n : Z) : Z := if n <=? 0 then 0 else Z.log2 n + 1.

(** The rejection loop of [rand.Int]: read [k] bytes with [io.ReadFull],
    clear the bits above bit [b] of the first one, accept the candidate
    when it is below [max]. Every round consumes [k >= 1] bytes, so
    [fuel = S (length reader)] rounds are never used up. *)
Fixpoint rand_Int_loop (fuel : nat) (reader : list byte) (k : nat) (b max : Z)
  : result Z * list byte :=
  match fuel with
  | O => (Err (LibraryError "io.ReadFull"), [])
  | S fuel' =>
      if (length reader <? k)%nat then (Err (LibraryError "io.ReadFull"), [])
      else
        let rest := drop k reader in
        let n :=
          match take k reader with
          | [] => 0
          | b0 :: bs =>
              SetBytes bs + Z.land (byte_val b0) (Z.shiftl 1 b - 1)
                            * 256 ^ Z.of_nat (length bs)
          end in
        if n <? max then (Ok n, rest)
        else rand_Int_loop fuel' rest k b max
  end.

(** [rand.Int(reader, max)] for [max > 0] (it panics otherwise). *)
Definition rand_Int (reader : list byte) (max : Z) : result Z * list byte :=
  let bitLen := BitLen (max - 1) in
  if bitLen =? 0 then (Ok 0, reader)
  else
    let k := (bitLen + 7) / 8 in
    let b := if bitLen mod 8 =? 0 then 8 else bitLen mod 8 in
    rand_Int_loop (S (length reader)) reader (Z.to_nat k) b max.

Section Generator.
Context (X : Externals).

Definition validateConfiguration (g : CertificateGenerator) : option error :=
  match rootCert g, rootKey g with
  | Some _, Some _ => None
  | _, _ => Some ErrNotInitialized
  end.

Definition with_rand (rt : Runtime) (reader : list byte) : Runtime :=
  {| heap := heap rt; rand_Reader := reader; now := now rt |}.

Definition generatePrivateKey (g : CertificateGenerator) (rt : Runtime)
  : result rsa_PrivateKey * Runtime :=
  match rsa_GenerateKey X (rand_Reader rt) (keySize g) with
  | (Err err, reader) => (Err (ErrRSAKey err), with_rand rt reader)
  | (Ok key, reader) => (Ok key, with_rand rt reader)
  end.

Definition createCertificateTemplate (g : CertificateGenerator)
    (hostname : string) (rt : Runtime) : result x509_Certificate * Runtime :=
  match rand_Int (rand_Reader rt) (Z.shiftl 1 62) with
  | (Err err, reader) => (Err (ErrSerial err), with_rand rt reader)
  | (Ok serialNumber, reader) =>
      let now := now rt in
      (Ok {| SerialNumber := serialNumber;
             Subject := {| CommonName := hostname;
                           Organization := [organization g] |};
             NotBefore := now + (- time_Hour);
             NotAfter :=
               now + int64 (int64 (int64 (validityDays g) * 24) * time_Hour);
             KeyUsage := Z.lor x509_KeyUsageKeyEncipherment
                               x509_KeyUsageDigitalSignature;
             ExtKeyUsage := [ExtKeyUsageServerAuth];
             BasicConstraintsValid := true;
             DNSNames := [hostname];
             SubjectPublicKey := None |},
       with_rand rt reader)
  end.

(** [&tlsCert]: the bundle is placed at a fresh address. *)
Definition alloc (rt : Runtime) (c : tls_Certificate) : ptr * Runtime :=
  (length (heap rt),
   {| heap := heap rt ++ [c]; rand_Reader := rand_Reader rt; now := now rt |}).

Definition createTLSCertificate (g : CertificateGenerator)
    (template : x509_Certificate) (privateKey : rsa_PrivateKey) (rt : Runtime)
  : result ptr * Runtime :=
  match rootCert g, rootKey g with
  | Some parent, Some signer =>
      match x509_CreateCertificate X template parent
              (PublicKey privateKey) signer with
      | Err err => (Err (ErrCreateCert err), rt)
      | Ok certDER =>
          let certPEM := pem_EncodeToMemory X
                           {| Type_ := "CERTIFICATE"; Bytes := certDER |} in
          let keyPEM := pem_EncodeToMemory X
                          {| Type_ := "RSA PRIVATE KEY";
                             Bytes := x509_MarshalPKCS1PrivateKey X privateKey |} in
          match tls_X509KeyPair X certPEM keyPEM with
          | Err err => (Err (ErrTLSCert err), rt)
          | Ok tlsCert =>
              let '(p, rt') := alloc rt tlsCert in (Ok p, rt')
          end
      end
  | _, _ =>
      (* a nil parent or signer; excluded by [validateConfiguration] *)
      (Err (LibraryError "x509.CreateCertificate"), rt)
  end.

Definition generateCertificate (g : CertificateGenerator) (hostname : string)
    (rt : Runtime) : result ptr * Runtime :=
  match validateConfiguration g with
  | Some err => (Err err, rt)
  | None =>
      match generatePrivateKey g rt with
      | (Err err, rt1) => (Err err, rt1)
      | (Ok privateKey, rt1) =>
          match createCertificateTemplate g hostname rt1 with
          | (Err err, rt2) => (Err err, rt2)
          | (Ok template, rt2) =>
              createTLSCertificate g template privateKey rt2
          end
      end
  end.

Definition createAndStoreCertificate (s : CertificateStore)
    (hostname : string) (rt : Runtime)
  : result ptr * CertificateStore * Runtime :=
  match cache s !! hostname with
  | Some cert => (Ok cert, s, rt)
  | None =>
      match generateCertificate (generator s) hostname rt with
      | (Err err, rt') => (Err (ErrGenerate err), s, rt')
      | (Ok cert, rt') =>
          (Ok cert,
           {| cache := <[hostname := cert]> (cache s);
              generator := generator s |},
           rt')
      end
  end.

Definition GetOrCreateCertificate (s : CertificateStore) (hostname : string)
    (rt : Runtime) : result ptr * CertificateStore * Runtime :=
  match cache s !! hostname with
  | Some cert => (Ok cert, s, rt)
  | None => createAndStoreCertificate s hostname rt
  end.

(** [GetCertificate] and [getOrGenerateCert] act on the package-level
    store, passed here as [s]. *)
Definition GetCertificate (s : CertificateStore) (hostname : string)
    (rt : Runtime) : result ptr * CertificateStore * Runtime :=
  GetOrCreateCertificate s hostname rt.

Definition getOrGenerateCert (s : CertificateStore) (host : string)
    (rt : Runtime) : result ptr * CertificateStore * Runtime :=
  GetCertificate s host rt.

(** A run of calls, one hostname after the other. *)
Fixpoint calls (hostnames : list string) (s : CertificateStore) (rt : Runtime)
  : CertificateStore * Runtime :=
  match hostnames with
  | [] => (s, rt)
  | hostname :: rest =>
      let '(_, s', rt') := GetOrCreateCertificate s hostname rt in
      calls rest s' rt'
  end.

End Generator.

(** Every cached pointer addresses an allocated bundle, and no bundle is
    cached under two hostnames. Holds of an empty cache and is kept by
    every call. *)
Definition cache_allocated (s : CertificateStore) (rt : Runtime) : Prop :=
  forall hostname p, cache s !! hostname = Some p -> (p < length (heap rt))%nat.

Definition cache_injective (s : CertificateStore) : Prop :=
  forall h1 h2 p, cache s !! h1 = Some p -> cache s !! h2 = Some p -> h1 = h2.

Definition store_ok (s : CertificateStore) (rt : Runtime) : Prop :=
  cache_allocated s rt /\ cache_injective s.

End Mint.

(** ** Go's [strings] package

    Go strings are byte strings; the functions below treat the bytes
    below 128 as Go does and leave the others alone (no byte above 127
    is a space or has a case here, where Go decodes UTF-8 first). They
    are Go's functions on the strings of bytes below 128: there
    [TrimSpace], [Fields] and [ToLower] take their ASCII path. On a
    string with a byte above 127 Go's [TrimSpace] and [Fields] also
    take the spaces of [unicode.IsSpace] (U+0085 and U+00A0 among them)
    and Go's [ToLower] maps every rune with [unicode.ToLower] and
    replaces invalid UTF-8; those tables are not part of this
    development, so a statement that gives the exact result of parsing
    is made for strings of bytes below 128. *)
Module GoStrings.

Definition CR : ascii := "013"%char.
Definition LF : ascii := "010"%char.
Definition CRLF : string := String CR (String LF "").

(** The set [asciiSpace] of [strings]: tab, LF, VT, FF, CR and space. *)
Definition isSpace (c : ascii) : bool :=
  let n := nat_of_ascii c in
  ((9 <=? n) && (n <=? 13) || (n =? 32))%nat.

Definition toLower (c : ascii) : ascii :=
  let n := nat_of_ascii c in
  if ((65 <=? n) && (n <=? 90))%nat then ascii_of_nat (n + 32) else c.

Definition toUpper (c : ascii) : ascii :=
  let n := nat_of_ascii c in
  if ((97 <=? n) && (n <=? 122))%nat then ascii_of_nat (n - 32) else c.

Fixpoint ToLower (s : string) : string :=
  match s with
  | "" => ""
  | String c s' => String (toLower c) (ToLower s')
  end.

Fixpoint ToUpper (s : string) : string :=
  match s with
  | "" => ""
  | String c s' => String (toUpper c) (ToUpper s')
  end.

Fixpoint TrimLeftSpace (s : string) : string :=
  match s with
  | "" => ""
  | String c s' => if isSpace c then TrimLeftSpace s' else s
  end.

Fixpoint TrimRightSpace (s : string) : string :=
  match s with
  | "" => ""
  | String c s' =>
      match TrimRightSpace s' with
      | "" => if isSpace c then "" else String c ""
      | t => String c t
      end
  end.

Definition TrimSpace (s : string) : string := TrimRightSpace (TrimLeftSpace s).

(** [tok] is the field being read. *)
Fixpoint Fields_from (tok : string) (s : string) : list string :=
  match s with
  | "" => match tok with "" => [] | _ => [tok] end
  | String c s' =>
      if isSpace c then
        match tok with
        | "" => Fields_from "" s'
        | _ => tok :: Fields_from "" s'
        end
      else Fields_from (tok +:+ String c "") s'
  end.

Definition Fields (s : string) : list string := Fields_from "" s.

(** [strings.Cut] for a one-byte separator. *)
Fixpoint Cut (s : string) (sep : ascii) : option (string * string) :=
  match s with
  | "" => None
  | String c s' =>
      if Ascii.eqb c sep then Some ("", s')
      else match Cut s' sep with
           | Some (before, after) => Some (String c before, after)
           | None => None
           end
  end.

(** [strings.SplitN(s, sep, n)] for a one-byte separator and [n >= 0]. *)
Fixpoint SplitN (s : string) (sep : ascii) (n : nat) : list string :=
  match n with
  | O => []
  | S O => [s]
  | S n' =>
      match Cut s sep with
      | None => [s]
      | Some (before, after) => before :: SplitN after sep n'
      end
  end.

Definition ContainsByte (s : string) (c : ascii) : bool :=
  match Cut s c with Some _ => true | None => false end.

(** [strings.LastIndexByte]; [None] is [-1]. *)
Fixpoint LastIndexByte (s : string) (c : ascii) : option nat :=
  match s with
  | "" => None
  | String d s' =>
      match LastIndexByte s' c with
      | Some i => Some (S i)
      | None => if Ascii.eqb d c then Some O else None
      end
  end.

Definition HasPrefix (s p : string) : bool := String.prefix p s.

Definition HasSuffix (s p : string) : bool :=
  (String.length p <=? String.length s)%nat
  && String.eqb (String.substring (String.length s - String.length p)
                                  (String.length p) s) p.

(** [s[i:]] and [s[:i]] *)
Definition from (i : nat) (s : string) : string :=
  String.substring i (String.length s - i) s.
Definition upto (i : nat) (s : string) : string := String.substring 0 i s.

End GoStrings.

(** ** [net/url] and [net] helpers

    [Hostname], [Port] and [RequestURI] of [url.URL] and
    [net.JoinHostPort], after their definitions in the Go release the
    repository builds with (1.24). *)
Module GoNet.
Import GoStrings.

Definition isDigit (c : ascii) : bool :=
  let n := nat_of_ascii c in ((48 <=? n) && (n <=? 57))%nat.

Definition validOptionalPort (port : string) : bool :=
  match port with
  | "" => true
  | String c rest =>
      if Ascii.eqb c ":" then forallb isDigit (list_ascii_of_string rest)
      else false
  end.

Definition splitHostPort (hostPort : string) : string * string :=
  let '(host, port) :=
    match LastIndexByte hostPort ":" with
    | Some colon =>
        if validOptionalPort (from colon hostPort)
        then (upto colon hostPort, from (S colon) hostPort)
        else (hostPort, "")
    | None => (hostPort, "")
    end in
  if HasPrefix host "[" && HasSuffix host "]"
  then (String.substring 1 (String.length host - 2) host, port)
  else (host, port).

Definition Hostname (u : url_URL) : string := fst (splitHostPort (Host u)).
Definition Port (u : url_URL) : string := snd (splitHostPort (Host u)).

Definition RequestURI (u : url_URL) : string :=
  let result :=
    match Opaque u with
    | "" => match EscapedPath u with "" => "/" | p => p end
    | opaque =>
        if HasPrefix opaque "//" then Scheme u +:+ ":" +:+ opaque else opaque
    end in
  if ForceQuery u || negb (String.eqb (RawQuery u) "")
  then result +:+ "?" +:+ RawQuery u
  else result.

Definition JoinHostPort (host port : string) : string :=
  if ContainsByte host ":" then "[" +:+ host +:+ "]:" +:+ port
  else host +:+ ":" +:+ port.

End GoNet.

(** ** Plain forwarding *)
Module Plain.
Import GoStrings GoNet.

Definition inspect {A} (a : A) : {b | a = b} := exist _ a eq_refl.

(** *** Connections

    A [bufio.Reader] over a connection: the bytes the peer will still
    send and the error a read returns once they are consumed ([io_EOF]
    when the peer closes, [ErrDeadlineExceeded] when the read deadline
    expires first). A read that blocks for ever, on a silent peer and
    without a deadline, has no counterpart here. *)
Record Reader : Type := { pending : list byte; final : error }.

Inductive conn : Type := Client | Origin.

(** What the handler does to its connections, in order. A deadline
    [Some d] is [time.Now().Add(d)], [None] is the zero [time.Time]. *)
Inductive event : Type :=
  | EvSetReadDeadline (c : conn) (deadline : option Z)
  | EvDial (address : string) (timeout : option Z)
  | EvWrite (c : conn) (data : list byte)
  | EvClose (c : conn).

(** The network as the handler meets it: what dialling an address
    yields (the origin's response stream) and how writes end. *)
Record Network : Type := {
  dial : string -> result Reader;
  write_error : conn -> list byte -> option error
}.

Definition time_Second : Z := 1000000000.

Fixpoint split_delim (delim : byte) (l : list byte)
  : option (list byte * list byte) :=
  match l with
  | [] => None
  | b :: l' =>
      if Byte.eqb b delim then Some ([b], l')
      else match split_delim delim l' with
           | Some (line, rest) => Some (b :: line, rest)
           | None => None
           end
  end.

(** [reader.ReadString(delim)]: the data up to and including [delim];
    without a delimiter, what is left and the reader's error. *)
Definition ReadString (r : Reader) (delim : byte)
  : string * option error * Reader :=
  match split_delim delim (pending r) with
  | Some (line, rest) =>
      (string_of_list_byte line, None, {| pending := rest; final := final r |})
  | None =>
      (string_of_list_byte (pending r), Some (final r),
       {| pending := []; final := final r |})
  end.

(** [reader.Read(buffer)] with [len(buffer) = n]: up to [n] pending
    bytes, or no byte and the reader's error. *)
Definition Read (r : Reader) (n : nat) : list byte * option error * Reader :=
  match pending r with
  | [] => ([], Some (final r), r)
  | _ => (take n (pending r), None,
          {| pending := drop n (pending r); final := final r |})
  end.

Definition newline : byte := "010"%byte.

(** [make([]byte, 8192)] *)
Definition bufferSize : nat := 8192.

(** *** [ConnectionHandler] *)

Record HeaderLine : Type := { name : string; value : string }.

Record RequestData : Type := {
  method : string;
  targetURL : string;
  httpVersion : string;
  headers : list HeaderLine;
  body : list byte
}.

(** [&RequestData{}] *)
Definition emptyRequestData : RequestData :=
  {| method := ""; targetURL := ""; httpVersion := "";
     headers := []; body := [] |}.

Definition readRequestLine (rd : RequestData) (reader : Reader)
  : option error * RequestData * Reader :=
  match ReadString reader newline with
  | (_, Some err, reader') => (Some err, rd, reader')
  | (line, None, reader') =>
      match Fields (TrimSpace line) with
      | [p0; p1; p2] =>
          (None,
           {| method := p0; targetURL := p1; httpVersion := p2;
              headers := headers rd; body := body rd |},
           reader')
      | _ => (Some ErrRequestFormat, rd, reader')
      end
  end.

Definition parseHeaderLine (line : string) : option HeaderLine :=
  match SplitN line ":" 2 with
  | [p0; p1] =>
      let name := TrimSpace p0 in
      let value := TrimSpace p1 in
      if String.eqb (ToLower name) "proxy-connection" then None
      else Some {| name := name; value := value |}
  | _ => None
  end.

Definition add_header (rd : RequestData) (h : HeaderLine) : RequestData :=
  {| method := method rd; targetURL := targetURL rd;
     httpVersion := httpVersion rd;
     headers := headers rd ++ [h]; body := body rd |}.

Equations? parseHeaders (rd : RequestData) (reader : Reader)
  : option error * RequestData * Reader
  by wf (length (pending reader)) lt :=
  parseHeaders rd reader with inspect (ReadString reader newline) => {
    | exist _ (_, Some err, reader') _ := (Some err, rd, reader');
    | exist _ (line, None, reader') eq
        with inspect (String.eqb (TrimSpace line) "") => {
        | exist _ true _ := (None, rd, reader');
        | exist _ false _ with parseHeaderLine (TrimSpace line) => {
            | Some header := parseHeaders (add_header rd header) reader';
            | None := parseHeaders rd reader' } } }.
Proof.
  all: unfold ReadString in eq;
    destruct (split_delim newline (pending reader)) as [[l rest]|] eqn:Hs;
    [ | discriminate ];
    inversion eq; subst; simpl;
    clear - Hs; revert l rest Hs;
    induction (pending reader) as [|b bs IH]; intros l rest Hs;
    [ discriminate | ];
    simpl in Hs; destruct (Byte.eqb b newline);
    [ inversion Hs; subst; simpl; lia | ];
    destruct (split_delim newline bs) as [[l' rest']|] eqn:Hs';
    [ | discriminate ];
    inversion Hs; subst; specialize (IH _ _ eq_refl); simpl; lia.
Qed.

Definition set_body (rd : RequestData) (b : list byte) : RequestData :=
  {| method := method rd; targetURL := targetURL rd;
     httpVersion := httpVersion rd; headers := headers rd; body := b |}.

(** The [for] loop of [readRequestBody]. *)
Equations? readBodyLoop (reader : Reader) (body : list byte)
  : option error * list byte * Reader
  by wf (length (pending reader)) lt :=
  readBodyLoop reader body with inspect (Read reader bufferSize) => {
    | exist _ (chunk, Some err, reader') _ :=
        let body' := if (0 <? length chunk)%nat then body ++ chunk else body in
        if decide (err = io_EOF) then (None, body', reader')
        else (Some err, body', reader');
    | exist _ (chunk, None, reader') eq :=
        readBodyLoop reader'
          (if (0 <? length chunk)%nat then body ++ chunk else body) }.
Proof.
  unfold Read in eq. destruct (pending reader) eqn:Hp; [ discriminate | ].
  inversion eq; subst; simpl. rewrite length_drop. simpl. lia.
Qed.

Definition readRequestBody (rd : RequestData) (reader : Reader)
  : option error * RequestData * Reader * list event :=
  if String.eqb (method rd) "GET" || String.eqb (method rd) "HEAD"
  then (None, rd, reader, [])
  else
    let '(err, body', reader') := readBodyLoop reader (body rd) in
    (err, set_body rd body', reader',
     [EvSetReadDeadline Client (Some (5 * time_Second)%Z);
      EvSetReadDeadline Client None]).

Definition parseIncomingRequest (rd : RequestData) (reader : Reader)
  : option error * RequestData * list event :=
  match readRequestLine rd reader with
  | (Some err, rd1, _) => (Some err, rd1, [])
  | (None, rd1, reader1) =>
      match parseHeaders rd1 reader1 with
      | (Some err, rd2, _) => (Some err, rd2, [])
      | (None, rd2, reader2) =>
          match readRequestBody rd2 reader2 with
          | (Some err, rd3, _, evs) => (Some err, rd3, evs)
          | (None, rd3, _, evs) => (None, rd3, evs)
          end
      end
  end.

Definition hasHeader (rd : RequestData) (name' : string) : bool :=
  let lowerName := ToLower name' in
  existsb (fun header => String.eqb (ToLower (name header)) lowerName)
          (headers rd).

Definition header_line (name' value' : string) : string :=
  name' +:+ ": " +:+ value' +:+ CRLF.

(** The text [sendRequest] accumulates in its [strings.Builder]. *)
Definition sendRequest_text (rd : RequestData) (targetURL : url_URL) : string :=
  (method rd +:+ " / " +:+ httpVersion rd +:+ CRLF)
  +:+ fold_left (fun acc header =>
                   acc +:+ header_line (name header) (value header))
                (headers rd) ""
  +:+ (if negb (hasHeader rd "Host")
       then "Host: " +:+ Host targetURL +:+ CRLF else "")
  +:+ CRLF.

Definition sendRequest (net : Network) (rd : RequestData) (targetURL : url_URL)
  : option error * list event :=
  let head := list_byte_of_string (sendRequest_text rd targetURL) in
  match write_error net Origin head with
  | Some err => (Some err, [EvWrite Origin head])
  | None =>
      if (0 <? length (body rd))%nat then
        (write_error net Origin (body rd),
         [EvWrite Origin head; EvWrite Origin (body rd)])
      else (None, [EvWrite Origin head])
  end.

Definition establishConnection (net : Network) (targetURL : url_URL)
  : result Reader * list event :=
  let host := Hostname targetURL in
  let port := Port targetURL in
  let port := if String.eqb port "" then "80" else port in
  let address := JoinHostPort host port in
  (dial net address, [EvDial address (Some (10 * time_Second)%Z)]).

(** [if n > 0 { client.Write(buffer[:n]) }] *)
Definition deliver (net : Network) (chunk : list byte)
  : option error * list event :=
  if (0 <? length chunk)%nat
  then (write_error net Client chunk, [EvWrite Client chunk])
  else (None, []).

(** The loop shared by [relayResponse] and [relayData]. *)
Equations? relayLoop (net : Network) (src : Reader) : option error * list event
  by wf (length (pending src)) lt :=
  relayLoop net src with inspect (Read src bufferSize) => {
    | exist _ (chunk, Some rerr, src') _ :=
        match deliver net chunk with
        | (Some werr, evs) =>
            (Some werr, EvSetReadDeadline Origin (Some (5 * time_Second)%Z) :: evs)
        | (None, evs) =>
            (if decide (rerr = io_EOF) then None else Some rerr,
             EvSetReadDeadline Origin (Some (5 * time_Second)%Z) :: evs)
        end;
    | exist _ (chunk, None, src') eq :=
        match deliver net chunk with
        | (Some werr, evs) =>
            (Some werr, EvSetReadDeadline Origin (Some (5 * time_Second)%Z) :: evs)
        | (None, evs) =>
            let '(result, evs') := relayLoop net src' in
            (result,
             EvSetReadDeadline Origin (Some (5 * time_Second)%Z) :: evs ++ evs')
        end }.
Proof.
  unfold Read in eq. destruct (pending src) eqn:Hp; [ discriminate | ].
  inversion eq; subst; simpl. rewrite length_drop. simpl. lia.
Qed.

Definition relayResponse (net : Network) (src : Reader)
  : option error * list event := relayLoop net src.

(** *** Reading a forwarded request

    A request head is a request line, header lines and a blank line. *)
Fixpoint render_headers (hs : list (string * string)) : string :=
  match hs with
  | [] => ""
  | (n, v) :: hs' => header_line n v +:+ render_headers hs'
  end.

Definition request_text (request_line : string) (hs : list (string * string))
  : string :=
  request_line +:+ render_headers hs +:+ CRLF.

(** The header lines of the head [sendRequest] writes. *)
Definition sent_headers (rd : RequestData) (targetURL : url_URL)
  : list (string * string) :=
  map (fun header => (name header, value header)) (headers rd)
  ++ (if negb (hasHeader rd "Host") then [("Host", Host targetURL)] else []).

(** "equals [b] under case-insensitive comparison", the way the code
    compares header names: both sides lowercased. *)
Definition EqualFold (a b : string) : bool :=
  String.eqb (ToLower a) (ToLower b).

Definition not_proxy_connection (n : string) : Prop :=
  EqualFold n "Proxy-Connection" = false.

Section Handlers.
Context (X : Externals) (net : Network).

Definition forwardToDestination (rd : RequestData)
  : option error * list event :=
  match url_Parse X (targetURL rd) with
  | Err err => (Some err, [])
  | Ok targetURL =>
      match establishConnection net targetURL with
      | (Err err, evs) => (Some err, evs)
      | (Ok destConn, evs) =>
          match sendRequest net rd targetURL with
          | (Some err, evs1) => (Some err, evs ++ evs1 ++ [EvClose Origin])
          | (None, evs1) =>
              let '(err, evs2) := relayResponse net destConn in
              (err, evs ++ evs1 ++ evs2 ++ [EvClose Origin])
          end
      end
  end.

(** [NewConnectionHandler(conn).ProcessRequest()], [client] being the
    stream of the accepted connection. *)
Definition ProcessRequest (client : Reader) : list event :=
  match parseIncomingRequest emptyRequestData client with
  | (Some _, _, evs) => evs ++ [EvClose Client]
  | (None, rd, evs) =>
      let '(_, evs') := forwardToDestination rd in
      evs ++ evs' ++ [EvClose Client]
  end.

End Handlers.

(** *** [RequestProcessor] *)

Record HeaderField : Type := { key : string; value_ : string }.

Record RequestProcessor : Type := {
  reader : Reader;
  requestMethod : string;
  requestTarget : string;
  protocolVer : string;
  requestHeaders : list HeaderField;
  requestBody : list byte
}.

(** [&RequestProcessor{clientConn: ..., reader: bufio.NewReader(...)}] *)
Definition newRequestProcessor (client : Reader) : RequestProcessor :=
  {| reader := client; requestMethod := ""; requestTarget := "";
     protocolVer := ""; requestHeaders := []; requestBody := [] |}.

Definition with_reader (p : RequestProcessor) (r : Reader) : RequestProcessor :=
  {| reader := r; requestMethod := requestMethod p;
     requestTarget := requestTarget p; protocolVer := protocolVer p;
     requestHeaders := requestHeaders p; requestBody := requestBody p |}.

Definition parseRequestLine (p : RequestProcessor) (line : string)
  : option error * RequestProcessor :=
  match SplitN line " " 3 with
  | [c0; c1; c2] =>
      (None,
       {| reader := reader p; requestMethod := c0; requestTarget := c1;
          protocolVer := c2; requestHeaders := requestHeaders p;
          requestBody := requestBody p |})
  | _ => (Some ErrRequestFormat, p)
  end.

Definition parseInitialRequest (p : RequestProcessor)
  : option error * RequestProcessor :=
  match ReadString (reader p) newline with
  | (_, Some _, r') => (Some ErrCannotReadRequest, with_reader p r')
  | (requestLine, None, r') =>
      if String.eqb (TrimSpace requestLine) ""
      then (Some ErrCannotReadRequest, with_reader p r')
      else parseRequestLine (with_reader p r') (TrimSpace requestLine)
  end.

Definition isTLSConnection (p : RequestProcessor) : bool :=
  String.eqb (ToUpper (requestMethod p)) "CONNECT".

Definition parseHeader (line : string) : string * string :=
  match SplitN (TrimSpace line) ":" 2 with
  | [p0; p1] => (ToLower (TrimSpace p0), TrimSpace p1)
  | _ => ("", "")
  end.

(** The loop of [collectHeaders], [hdrs] being the map built so far. *)
Equations? collectLoop (r : Reader) (hdrs : gmap string string)
  : gmap string string * Reader
  by wf (length (pending r)) lt :=
  collectLoop r hdrs with inspect (ReadString r newline) => {
    | exist _ (_, Some _, r') _ := (hdrs, r');
    | exist _ (line, None, r') eq
        with inspect (String.eqb (TrimSpace line) "") => {
        | exist _ true _ := (hdrs, r');
        | exist _ false _ with inspect (parseHeader line) => {
            | exist _ (k, v) _ :=
                collectLoop r'
                  (if negb (String.eqb k "") then <[k := v]> hdrs else hdrs) } } }.
Proof.
  unfold ReadString in eq.
  destruct (split_delim newline (pending r)) as [[l rest]|] eqn:Hs;
    [ | discriminate ].
  inversion eq; subst; simpl.
  clear - Hs. revert l rest Hs.
  induction (pending r) as [|b bs IH]; intros l rest Hs; [ discriminate | ].
  simpl in Hs. destruct (Byte.eqb b newline).
  - inversion Hs; subst; simpl; lia.
  - destruct (split_delim newline bs) as [[l' rest']|] eqn:Hs';
      [ | discriminate ].
    inversion Hs; subst. specialize (IH _ _ eq_refl). simpl. lia.
Qed.

Definition collectHeaders (p : RequestProcessor)
  : gmap string string * RequestProcessor :=
  let '(hdrs, r') := collectLoop (reader p) ∅ in (hdrs, with_reader p r').

Record ConnectionDetails : Type := {
  host : string;
  port : string;
  path : string;
  headers_ : gmap string string
}.

Definition determinePort (targetURL : url_URL) : string :=
  let port := Port targetURL in
  if negb (String.eqb port "") then port
  else if String.eqb (Scheme targetURL) "https" then "443"
  else "80".

Definition determinePath (targetURL : url_URL) : string :=
  let path := RequestURI targetURL in
  if negb (String.eqb path "") then path else "/".

Section Processor.
Context (X : Externals) (net : Network).

(** The header lines the [range] loop of [sendModifiedRequest] writes. *)
Definition forwarded_headers (hdrs : gmap string string)
  : list (string * string) :=
  filter (fun kv => negb (String.eqb (ToLower (fst kv)) "proxy-connection") = true)
         (map_range X hdrs).

Definition sendModifiedRequest_text (p : RequestProcessor)
    (conn : ConnectionDetails) : string :=
  (requestMethod p +:+ " " +:+ path conn +:+ " " +:+ protocolVer p +:+ CRLF)
  +:+ fold_left (fun acc kv =>
                   if negb (String.eqb (ToLower (fst kv)) "proxy-connection")
                   then acc +:+ header_line (fst kv) (snd kv) else acc)
                (map_range X (headers_ conn)) ""
  +:+ (match headers_ conn !! "host" with
       | Some _ => ""
       | None => "Host: " +:+ host conn +:+ CRLF
       end)
  +:+ CRLF.

(** The header lines of the head [sendModifiedRequest] writes. *)
Definition modified_headers (conn : ConnectionDetails)
  : list (string * string) :=
  forwarded_headers (headers_ conn)
  ++ (match headers_ conn !! "host" with
      | Some _ => []
      | None => [("Host", host conn)]
      end).

Definition sendModifiedRequest (p : RequestProcessor) (conn : ConnectionDetails)
  : option error * list event :=
  let head := list_byte_of_string (sendModifiedRequest_text p conn) in
  match write_error net Origin head with
  | Some err => (Some err, [EvWrite Origin head])
  | None =>
      if (0 <? length (requestBody p))%nat then
        (write_error net Origin (requestBody p),
         [EvWrite Origin head; EvWrite Origin (requestBody p)])
      else (None, [EvWrite Origin head])
  end.

Definition relayData (targetConn : Reader) : option error * list event :=
  relayLoop net targetConn.

Definition forwardHTTPRequest (p : RequestProcessor) (conn : ConnectionDetails)
  : list event :=
  let address := JoinHostPort (host conn) (port conn) in
  match dial net address with
  | Err _ => [EvDial address None]
  | Ok targetConn =>
      let '(_, evs1) := sendModifiedRequest p conn in
      let '(_, evs2) := relayData targetConn in
      EvDial address None :: evs1 ++ evs2 ++ [EvClose Origin]
  end.

Definition handlePlainConnection (p : RequestProcessor) : list event :=
  let '(hdrs, p') := collectHeaders p in
  match url_Parse X (requestTarget p') with
  | Err _ => []
  | Ok targetURL =>
      let connection :=
        {| host := Hostname targetURL;
           port := determinePort targetURL;
           path := determinePath targetURL;
           headers_ := hdrs |} in
      forwardHTTPRequest p' connection
  end.

(** [handleClient] for a request that is not a [CONNECT]; [None] when
    the request is a [CONNECT] and goes to the TLS bridge instead. *)
Definition handleClient_plain (client : Reader) : option (list event) :=
  match parseInitialRequest (newRequestProcessor client) with
  | (Some _, _) => Some [EvClose Client]
  | (None, processor) =>
      if isTLSConnection processor then None
      else Some (handlePlainConnection processor ++ [EvClose Client])
  end.

End Processor.
End Plain.

(** ** A small standard library to run the model on

    A stand-in for the library calls of [Externals], in the manner of a
    test double, used by the examples below. Its formats are tiny:
    - a PEM file is a label byte (1 for CERTIFICATE, 2 for RSA PRIVATE
      KEY), a length byte [n], [n] payload bytes, then whatever trails;
    - a DER certificate is the three bytes serial, modulus, exponent;
    - a PKCS#1 key is the three bytes modulus, exponent, private exponent;
    - [url.Parse] knows the URLs listed in [parse_url], with the fields
      [net/url] computes for them. *)
Module Fixture.

Local Open Scope Z_scope.

Definition byte_of (z : Z) : byte :=
  match Byte.of_N (Z.to_N z) with Some b => b | None => "000"%byte end.

Definition label_of (tag : byte) : option string :=
  if Byte.eqb tag "001" then Some "CERTIFICATE"
  else if Byte.eqb tag "002" then Some "RSA PRIVATE KEY"
  else None.

Definition tag_of (label : string) : byte :=
  if String.eqb label "CERTIFICATE" then "001"%byte
  else if String.eqb label "RSA PRIVATE KEY" then "002"%byte
  else "003"%byte.

Definition decode_pem (data : list byte) : option pem_Block * list byte :=
  match data with
  | tag :: len :: rest =>
      let n := N.to_nat (Byte.to_N len) in
      match label_of tag with
      | Some label =>
          if (n <=? length rest)%nat
          then (Some {| Type_ := label; Bytes := take n rest |}, drop n rest)
          else (None, data)
      | None => (None, data)
      end
  | _ => (None, data)
  end.

Definition encode_pem (b : pem_Block) : list byte :=
  tag_of (Type_ b) :: byte_of (Z.of_nat (length (Bytes b))) :: Bytes b.

Definition parse_certificate (der : list byte) : result x509_Certificate :=
  match der with
  | [serial; n; e] =>
      Ok {| SerialNumber := Mint.byte_val serial;
            Subject := {| CommonName := "Test CA"; Organization := [] |};
            NotBefore := 0; NotAfter := 0; KeyUsage := 0; ExtKeyUsage := [];
            BasicConstraintsValid := true; DNSNames := [];
            SubjectPublicKey :=
              Some {| N := Mint.byte_val n; E := Mint.byte_val e |} |}
  | _ => Err (LibraryError "x509.ParseCertificate")
  end.

Definition parse_key (der : list byte) : result rsa_PrivateKey :=
  match der with
  | [n; e; d] =>
      Ok {| PublicKey := {| N := Mint.byte_val n; E := Mint.byte_val e |};
            D := Mint.byte_val d |}
  | _ => Err (LibraryError "x509.ParsePKCS1PrivateKey")
  end.

Definition marshal_key (k : rsa_PrivateKey) : list byte :=
  [byte_of (N (PublicKey k)); byte_of (E (PublicKey k)); byte_of (D k)].

(** One byte of entropy picks the modulus. *)
Definition generate_key (reader : list byte) (bits : Z)
  : result rsa_PrivateKey * list byte :=
  match reader with
  | [] => (Err (LibraryError "rsa.GenerateKey"), [])
  | b :: reader' =>
      (Ok {| PublicKey := {| N := Mint.byte_val b; E := 3 |}; D := 7 |}, reader')
  end.

(** Refuses a signer that is not the parent's key, as [x509] does. *)
Definition create_certificate (template parent : x509_Certificate)
    (pub : rsa_PublicKey) (signer : rsa_PrivateKey) : result (list byte) :=
  if decide (SubjectPublicKey parent = Some (PublicKey signer))
  then Ok [byte_of (SerialNumber template mod 256); byte_of (N pub);
           byte_of (E pub)]
  else Err (LibraryError "x509.CreateCertificate").

Definition key_pair (certPEM keyPEM : list byte) : result tls_Certificate :=
  match decode_pem certPEM, decode_pem keyPEM with
  | (Some cb, _), (Some kb, _) =>
      match parse_key (Bytes kb) with
      | Ok k => Ok {| Certificate := [Bytes cb]; PrivateKey := k |}
      | Err e => Err e
      end
  | _, _ => Err (LibraryError "tls.X509KeyPair")
  end.

Definition ca_crt : list byte := ["001"; "003"; "001"; "021"; "003"]%byte.
Definition ca_key : list byte := ["002"; "003"; "021"; "003"; "007"]%byte.
(** A well-formed key that is not the key of [ca_crt]. *)
Definition other_key : list byte := ["002"; "003"; "037"; "005"; "011"]%byte.
(** [ca_crt] followed by one more byte. *)
Definition trailing_crt : list byte := ca_crt ++ ["010"]%byte.

Definition read_file (path : string) : result (list byte) :=
  if String.eqb path "ca.crt" then Ok ca_crt
  else if String.eqb path "ca.key" then Ok ca_key
  else if String.eqb path "other.key" then Ok other_key
  else if String.eqb path "trailing.crt" then Ok trailing_crt
  else if String.eqb path "empty.key" then Ok []
  else Err (LibraryError "os.ReadFile").

Definition http_url (host path : string) : url_URL :=
  {| Scheme := "http"; Opaque := ""; Host := host; EscapedPath := path;
     ForceQuery := false; RawQuery := "" |}.

Definition https_url (host path : string) : url_URL :=
  {| Scheme := "https"; Opaque := ""; Host := host; EscapedPath := path;
     ForceQuery := false; RawQuery := "" |}.

Definition parse_url (raw : string) : result url_URL :=
  if String.eqb raw "http://example.test/" then Ok (http_url "example.test" "/")
  else if String.eqb raw "http://example.test"
  then Ok (http_url "example.test" "")
  else if String.eqb raw "http://example.test/index.html"
  then Ok (http_url "example.test" "/index.html")
  else if String.eqb raw "http://example.test:8000/a"
  then Ok (http_url "example.test:8000" "/a")
  else if String.eqb raw "https://example.test/"
  then Ok (https_url "example.test" "/")
  else Err (LibraryError "url.Parse").

Definition lib : Externals :=
  {| os_ReadFile := read_file;
     pem_Decode := decode_pem;
     pem_EncodeToMemory := encode_pem;
     x509_ParseCertificate := parse_certificate;
     x509_ParsePKCS1PrivateKey := parse_key;
     x509_MarshalPKCS1PrivateKey := marshal_key;
     rsa_GenerateKey := generate_key;
     x509_CreateCertificate := create_certificate;
     tls_X509KeyPair := key_pair;
     url_Parse := parse_url;
     map_range := map_to_list |}.

Definition ca_certificate : x509_Certificate :=
  {| SerialNumber := 1;
     Subject := {| CommonName := "Test CA"; Organization := [] |};
     NotBefore := 0; NotAfter := 0; KeyUsage := 0; ExtKeyUsage := [];
     BasicConstraintsValid := true; DNSNames := [];
     SubjectPublicKey := Some {| N := 21; E := 3 |} |}.

Definition ca_private_key : rsa_PrivateKey :=
  {| PublicKey := {| N := 21; E := 3 |}; D := 7 |}.

Definition other_private_key : rsa_PrivateKey :=
  {| PublicKey := {| N := 37; E := 5 |}; D := 11 |}.

(** A store like [NewCertificateStore] whose generator holds the CA. *)
Definition store : Mint.CertificateStore :=
  {| Mint.cache := ∅;
     Mint.generator :=
       {| Mint.keySize := 2048;
          Mint.organization := "MITM Security Proxy";
          Mint.validityDays := 30;
          Mint.rootCert := Some ca_certificate;
          Mint.rootKey := Some ca_private_key |} |}.

(** Forty bytes of entropy, no bundle allocated, the clock at 10^18 ns. *)
Definition runtime : Mint.Runtime :=
  {| Mint.heap := [];
     Mint.rand_Reader := map byte_of (seqZ 1 40);
     Mint.now := 1000000000000000000 |}.

(** The store and the run-time state after a first call for
    [Example.test], and after a following call for [example.test]. *)
Definition first_call :=
  Mint.GetOrCreateCertificate lib store "Example.test" runtime.
Definition store1 : Mint.CertificateStore := snd (fst first_call).
Definition runtime1 : Mint.Runtime := snd first_call.
Definition second_call :=
  Mint.GetOrCreateCertificate lib store1 "example.test" runtime1.
Definition store2 : Mint.CertificateStore := snd (fst second_call).
Definition runtime2 : Mint.Runtime := snd second_call.

(** An origin that answers [OK] and closes; every write succeeds. *)
Definition network : Plain.Network :=
  {| Plain.dial := fun _ =>
       Ok {| Plain.pending := list_byte_of_string "OK";
             Plain.final := io_EOF |};
     Plain.write_error := fun _ _ => None |}.

Definition client (text : string) (final : error) : Plain.Reader :=
  {| Plain.pending := list_byte_of_string text; Plain.final := final |}.

Definition get_index : string :=
  "GET http://example.test/index.html HTTP/1.1" +:+ GoStrings.CRLF
  +:+ "Host: example.test" +:+ GoStrings.CRLF +:+ GoStrings.CRLF.

Definition get_https : string :=
  "GET https://example.test/ HTTP/1.1" +:+ GoStrings.CRLF
  +:+ "Host: example.test" +:+ GoStrings.CRLF +:+ GoStrings.CRLF.

Definition post_form : string :=
  "POST http://example.test/ HTTP/1.1" +:+ GoStrings.CRLF
  +:+ "Host: example.test" +:+ GoStrings.CRLF +:+ GoStrings.CRLF
  +:+ "name=value".

(** A client that sends [post_form] and keeps the connection open: the
    read deadline expires. *)
Definition waiting_client : Plain.Reader := client post_form ErrDeadlineExceeded.

(** The request data and the reader after the request line and after
    the headers of [post_form]. *)
Definition post_line :=
  Plain.readRequestLine Plain.emptyRequestData waiting_client.
Definition post_headers :=
  Plain.parseHeaders (snd (fst post_line)) (snd post_line).

End Fixture.

(** * The rest of the package

    Predicates and sample data for the properties of the second part of
    the development, and the functions of the package that the first
    part leaves out. *)

(** ** Invariants *)
Module Invariant.

(** As many bundles allocated as hostnames cached, on top of
    [Mint.store_ok]: a mint per hostname, and no more. *)
Definition one_bundle_per_hostname (s : Mint.CertificateStore)
    (rt : Mint.Runtime) : Prop :=
  Mint.store_ok s rt /\ length (Mint.heap rt) = size (Mint.cache s).

(** The certificate manager holds a certificate and a key, or neither. *)
Definition paired (cm : CA.CertificateManager) : Prop :=
  is_Some (CA.rootCertificate cm) <-> is_Some (CA.privateKey cm).

End Invariant.

(** ** More sample data *)
Module Samples.

(** [Fixture.runtime] with [rand.Reader] exhausted. *)
Definition dry_runtime : Mint.Runtime :=
  {| Mint.heap := []; Mint.rand_Reader := []; Mint.now := Mint.now Fixture.runtime |}.

(** After the calls for [Example.test], [example.test] and
    [Example.test] again. *)
Definition three_calls :=
  Mint.calls Fixture.lib ["Example.test"; "example.test"; "Example.test"]
    Fixture.store Fixture.runtime.

End Samples.

(** The template [createCertificateTemplate] builds for [example.test]
    from the first eight bytes of [Fixture.runtime]. *)
Module SampleTemplate.

Definition template : x509_Certificate :=
  {| SerialNumber := 72623859790382856;
     Subject := {| CommonName := "example.test";
                   Organization := ["MITM Security Proxy"] |};
     NotBefore := 999996400000000000;
     NotAfter := 1002592000000000000;
     KeyUsage := 5;
     ExtKeyUsage := [ExtKeyUsageServerAuth];
     BasicConstraintsValid := true;
     DNSNames := ["example.test"];
     SubjectPublicKey := None |}.

Definition runtime_after : Mint.Runtime :=
  Mint.with_rand Fixture.runtime (drop 8 (Mint.rand_Reader Fixture.runtime)).

End SampleTemplate.

(** ** Reading a trace *)
Module Trace.
Import Plain.

(** The bytes written to the client, in order. *)
Definition client_bytes (evs : list event) : list byte :=
  flat_map (fun e => match e with EvWrite Client d => d | _ => [] end) evs.

(** What a handler does before it dials: nothing but set or clear the
    client's read deadline. *)
Definition before_dial (e : event) : Prop :=
  match e with EvSetReadDeadline Client _ => True | _ => False end.

(** What a handler does between dial and close: write to either side,
    set the origin's read deadline. *)
Definition in_session (e : event) : Prop :=
  match e with
  | EvWrite _ _ => True
  | EvSetReadDeadline Origin _ => True
  | _ => False
  end.

(** What the relay loop emits: a 5-second deadline on the origin, or a
    write to the client of 1 to 8192 bytes. *)
Definition relay_step (e : event) : Prop :=
  match e with
  | EvSetReadDeadline Origin (Some d) => d = (5 * time_Second)%Z
  | EvWrite Client data => (0 < length data <= bufferSize)%nat
  | _ => False
  end.



(** The shape of a handler's trace with [timeout] as dial timeout:
    - [pre], then the client is closed: the request was not usable;
    - [pre], a dial that fails, and the client is closed;
    - [pre], a dial that succeeds, a session on the two connections, then
      the origin and the client are closed, in that order. *)
Definition well_bracketed (net : Network) (timeout : option Z)
    (trace : list event) : Prop :=
  exists pre,
    Forall before_dial pre /\
    (trace = pre ++ [EvClose Client]
     \/ (exists address e,
           dial net address = Err e /\
           trace = pre ++ [EvDial address timeout; EvClose Client])
     \/ (exists address dest session,
           dial net address = Ok dest /\
           Forall in_session session /\
           trace = pre ++ EvDial address timeout
                       :: session ++ [EvClose Origin; EvClose Client])).

End Trace.

(** ** Header maps *)
Module Headers.

(** Every key is lowercase and not empty. *)
Definition lower_keys (m : gmap string string) : Prop :=
  forall k v, m !! k = Some v -> GoStrings.ToLower k = k /\ k <> "".

(** [range] visits every entry of the map. *)
Definition range_complete (X : Externals) (m : gmap string string) : Prop :=
  forall k v, m !! k = Some v -> In (k, v) (map_range X m).

End Headers.

(** A GET for [/index.html] from a client that closes after the head,
    and the request data and the reader after its request line and after
    its headers. *)
Module SampleGet.

Definition client : Plain.Reader := Fixture.client Fixture.get_index io_EOF.

Definition after_line :=
  Plain.readRequestLine Plain.emptyRequestData client.
Definition after_headers :=
  Plain.parseHeaders (snd (fst after_line)) (snd after_line).

(** The connection details [RequestProcessor] derives from it. *)
Definition details : Plain.ConnectionDetails :=
  {| Plain.host := "example.test";
     Plain.port := "80";
     Plain.path := "/index.html";
     Plain.headers_ := {[ "host" := "example.test" ]} |}.

End SampleGet.

(** ** Requests as they travel

    The conditions under which a request line and a header survive the
    trip through [ReadString], [TrimSpace] and [SplitN], and what the two
    handlers keep of a list of headers. *)
Module Canonical.
Import GoStrings Plain.

(** The byte [c] does not occur in [s]. *)
Definition free_of (c : ascii) (s : string) : Prop := ContainsByte s c = false.

(** Every byte is below 128. On such a string [strings.TrimSpace],
    [strings.Fields] and [strings.ToLower] take their ASCII path, which
    is what [GoStrings] defines; on any other they decode UTF-8 and
    consult the Unicode tables. *)
Fixpoint ascii_only (s : string) : bool :=
  match s with
  | "" => true
  | String c s' => (nat_of_ascii c <? 128)%nat && ascii_only s'
  end.

(** No white space at either end. *)
Definition trimmed (s : string) : Prop := TrimSpace s = s.

(** A header name without colon and a value, both trimmed and on one
    line. *)
Definition header_shape (nv : string * string) : Prop :=
  trimmed (fst nv) /\ free_of ":" (fst nv) /\ free_of LF (fst nv)
  /\ trimmed (snd nv) /\ free_of LF (snd nv).

(** Such a header, of bytes below 128. *)
Definition wire_header (nv : string * string) : Prop :=
  ascii_only (fst nv) = true /\ ascii_only (snd nv) = true /\ header_shape nv.

(** No white space anywhere. *)
Fixpoint spaceless (s : string) : bool :=
  match s with
  | "" => true
  | String c s' => negb (isSpace c) && spaceless s'
  end.

(** A non-empty word without white space, of bytes below 128. *)
Definition token (s : string) : Prop :=
  s <> "" /\ spaceless s = true /\ ascii_only s = true.

(** A request line without its line end. *)
Definition request_line (m t v : string) : string :=
  m +:+ " " +:+ t +:+ " " +:+ v.

(** What [ConnectionHandler] stores of a list of headers: all of them,
    in order, but those named Proxy-Connection. *)
Definition stored (hs : list (string * string)) : list HeaderLine :=
  flat_map (fun nv =>
              if String.eqb (ToLower (fst nv)) "proxy-connection" then []
              else [{| name := fst nv; value := snd nv |}]) hs.

(** What [RequestProcessor] makes of it: a map from the lowercased
    names, where a later header replaces an earlier one of the same
    name and a header without name is ignored. *)
Definition folded (hs : list (string * string)) (m : gmap string string)
  : gmap string string :=
  fold_left (fun m nv =>
               if negb (String.eqb (ToLower (fst nv)) "") then
                 <[ToLower (fst nv) := snd nv]> m
               else m) hs m.

(** The bytes of a text, as written to a connection. *)
Definition wire (s : string) : list byte := list_byte_of_string s.

End Canonical.

(** A request head to read back: a repeated name in two spellings, a
    Proxy-Connection header, and bytes after the blank line. *)
Module SampleHead.
Import GoStrings Plain Canonical.

Definition hs : list (string * string) :=
  [("Host", "example.com"); ("Proxy-Connection", "keep-alive");
   ("Accept", "*/*"); ("host", "other.example")].

Definition rest : list byte := wire "a=1".

Definition head (m : string) : list byte :=
  wire (request_text (request_line m "http://example.com/a" "HTTP/1.1" +:+ CRLF)
                     hs).

End SampleHead.

(** ** The TLS bridge

    [handleClient] with both of its branches, [handleSecureConnection]
    and [TLSConnectionManager]. The two [io.Copy] of
    [connectToRemoteServer], one of them in a goroutine of its own, are
    one step of the trace: what they carry is not modelled. *)
Module Secure.
Import GoStrings GoNet Plain.

Record TLSConnectionManager : Type := {
  serverName : string;
  targetPort : string
}.

(** What [handleClient] does, in order: the steps of the plain path, and
    those of the bridge. *)
Inductive step : Type :=
  | Ev (e : event)
  | EvServer (ServerName : string) (certificate : Mint.ptr)
  | EvHandshake
  | EvDialTLS (address : string) (InsecureSkipVerify : bool)
  | EvCopy
  | EvCloseTLS (c : conn).

(** [tls.Conn.Handshake] for the server name and the bundle presented,
    [tls.Dial] for an address, and [net.SplitHostPort]. *)
Record Bridge : Type := {
  Handshake : string -> Mint.ptr -> option error;
  tls_Dial : string -> option error;
  net_SplitHostPort : string -> string * string * option error
}.

Definition connection_established : string :=
  "HTTP/1.0 200 Connection established" +:+ CRLF +:+ CRLF.

Section Manager.
Context (X : Externals) (net : Network) (tls : Bridge).

Definition extractHostAndPort (target : string) : string * string :=
  if negb (ContainsByte target ":") then (target, "443")
  else let '(host, port, _) := net_SplitHostPort tls target in (host, port).

Definition connectToRemoteServer (t : TLSConnectionManager)
  : option error * list step :=
  let address := JoinHostPort (serverName t) (targetPort t) in
  match tls_Dial tls address with
  | Some err => (Some err, [EvDialTLS address true])
  | None => (None, [EvDialTLS address true; EvCopy; EvCloseTLS Origin])
  end.

(** [s] is the package-level store [getOrGenerateCert] acts on. *)
Definition establishTLSConnection (t : TLSConnectionManager)
    (s : Mint.CertificateStore) (rt : Mint.Runtime)
  : option error * list step * Mint.CertificateStore * Mint.Runtime :=
  let told := Ev (EvWrite Client (list_byte_of_string connection_established)) in
  match Mint.getOrGenerateCert X s (serverName t) rt with
  | (Err err, s', rt') => (Some err, [told], s', rt')
  | (Ok cert, s', rt') =>
      match Handshake tls (serverName t) cert with
      | Some err =>
          (Some err,
           [told; EvServer (serverName t) cert; EvHandshake; EvCloseTLS Client],
           s', rt')
      | None =>
          let '(err, evs) := connectToRemoteServer t in
          (err,
           told :: EvServer (serverName t) cert :: EvHandshake
             :: evs ++ [EvCloseTLS Client],
           s', rt')
      end
  end.

Definition handleSecureConnection (p : RequestProcessor)
    (s : Mint.CertificateStore) (rt : Mint.Runtime)
  : list step * Mint.CertificateStore * Mint.Runtime :=
  let '(host, port) := extractHostAndPort (requestTarget p) in
  let tlsManager := {| serverName := host; targetPort := port |} in
  let '(_, evs, s', rt') := establishTLSConnection tlsManager s rt in
  (evs, s', rt').

Definition handleClient (client : Reader)
    (s : Mint.CertificateStore) (rt : Mint.Runtime)
  : list step * Mint.CertificateStore * Mint.Runtime :=
  match parseInitialRequest (newRequestProcessor client) with
  | (Some _, _) => ([Ev (EvClose Client)], s, rt)
  | (None, processor) =>
      if isTLSConnection processor then
        let '(evs, s', rt') := handleSecureConnection processor s rt in
        (evs ++ [Ev (EvClose Client)], s', rt')
      else
        (map Ev (handlePlainConnection X net processor) ++ [Ev (EvClose Client)],
         s, rt)
  end.

End Manager.

(** The steps from the handshake on. *)
Definition past_minting (e : step) : bool :=
  match e with
  | Ev _ => false
  | _ => true
  end.

End Secure.

(** A bridge on which every handshake and every dial succeeds, and a
    client that asks for a tunnel. *)
Module SampleTunnel.
Import GoStrings Plain Canonical.

Definition bridge : Secure.Bridge :=
  {| Secure.Handshake := fun _ _ => None;
     Secure.tls_Dial := fun _ => None;
     Secure.net_SplitHostPort := fun target =>
       match Cut target ":" with
       | Some (host, port) => (host, port, None)
       | None => ("", "", Some (LibraryError "missing port in address"))
       end |}.

Definition client : Reader :=
  {| pending := wire (request_text
                        (request_line "CONNECT" "example.com:443" "HTTP/1.1"
                         +:+ CRLF) [("Host", "example.com:443")]);
     final := io_EOF |}.

(** The tunnel of a store that holds the CA. *)
Definition manager : Secure.TLSConnectionManager :=
  {| Secure.serverName := "Example.test"; Secure.targetPort := "443" |}.

Definition established :=
  Secure.establishTLSConnection Fixture.lib bridge manager
    Fixture.store Fixture.runtime.

End SampleTunnel.

(** * Statements of the specification that the code does not meet

    Each is written here as the specification states it; it is refuted
    below, next to the statement that holds instead. *)

(** C4: a certificate and a key that each parse but do not belong
    together make the load fail. *)
Definition key_mismatch_rejected : Prop :=
  forall (X : Externals) certPath keyPath cm cert key,
    CA.certificate_in X certPath = Some cert ->
    CA.key_in X keyPath = Some key ->
    SubjectPublicKey cert <> Some (PublicKey key) ->
    failed (fst (CA.LoadCA X certPath keyPath cm)) = true.

(** C5: a hostname and its lowercased form get the same bundle. *)
Definition cache_keyed_by_lowercase : Prop :=
  forall (X : Externals) s hostname rt p s1 rt1 q s2 rt2,
    Mint.GetOrCreateCertificate X s hostname rt = (Ok p, s1, rt1) ->
    Mint.GetOrCreateCertificate X s1 (GoStrings.ToLower hostname) rt1
    = (Ok q, s2, rt2) ->
    q = p.

(** C9: the body is read under the 5-second deadline until EOF or until
    the deadline expires, and in both cases the bytes read follow the
    head on the origin connection. *)
Definition body_forwarded_on_EOF_or_deadline : Prop :=
  forall (X : Externals) net client rd1 r1 rd2 r2 u dest,
    Plain.readRequestLine Plain.emptyRequestData client = (None, rd1, r1) ->
    Plain.parseHeaders rd1 r1 = (None, rd2, r2) ->
    Plain.method rd2 <> "GET" ->
    Plain.method rd2 <> "HEAD" ->
    Plain.final r2 = io_EOF \/ Plain.final r2 = ErrDeadlineExceeded ->
    url_Parse X (Plain.targetURL rd2) = Ok u ->
    Plain.dial net
      (GoNet.JoinHostPort (GoNet.Hostname u)
         (if String.eqb (GoNet.Port u) "" then "80" else GoNet.Port u))
    = Ok dest ->
    (forall c data, Plain.write_error net c data = None) ->
    exists pre post,
      Plain.ProcessRequest X net client =
      pre ++ Plain.EvWrite Plain.Origin
               (list_byte_of_string (Plain.sendRequest_text rd2 u))
          :: match Plain.pending r2 with
             | [] => post
             | _ => Plain.EvWrite Plain.Origin (Plain.pending r2) :: post
             end
      /\ In (Plain.EvSetReadDeadline Plain.Client
               (Some (5 * Plain.time_Second)%Z)) pre.

(** * Properties *)

(** ** The CA loader *)
Section LoaderFacts.
Context (X : Externals).
Import CA.

(** A failed [processCertificateData] leaves the receiver as it was. *)
Lemma processCertificateData_failure cm certData keyData err cm' :
  processCertificateData X cm certData keyData = (Some err, cm') -> cm' = cm.
Proof.
  unfold processCertificateData.
  destruct (parseCertificateBlock X certData);
    [ destruct (parsePrivateKeyBlock X keyData) | ];
    intros H; inversion H; reflexivity.
Qed.

(** C3. [LoadCA] returns an error exactly when, for one of the two files,
    the file is unreadable or empty, does not decode as one PEM block
    without trailing bytes, carries the wrong label, or does not parse;
    otherwise it returns [nil] and the manager holds the certificate and
    the key parsed from the files. *)
Theorem LoadCA_fails_exactly_when certPath keyPath cm :
  failed (fst (LoadCA X certPath keyPath cm)) = load_must_fail X certPath keyPath
  /\ (load_must_fail X certPath keyPath = false ->
      exists cert key,
        certificate_in X certPath = Some cert /\
        key_in X keyPath = Some key /\
        LoadCA X certPath keyPath cm =
        (None, {| rootCertificate := Some cert; privateKey := Some key |})).
Proof.
  unfold load_must_fail, unreadable_or_empty, not_one_pem_block,
    block_type_differs, block_parse_fails, certificate_in, key_in,
    LoadCA, InitializeCertificateAuthority, loadCertificateFiles,
    processCertificateData, readSecureFile, parseCertificateBlock,
    parsePrivateKeyBlock.
  destruct (os_ReadFile X certPath) as [[|cb cc]|ce]; simpl;
    [ split; [ reflexivity | discriminate ] | |
      split; [ reflexivity | discriminate ] ].
  destruct (os_ReadFile X keyPath) as [[|kb kc]|ke]; simpl;
    [ split; [ reflexivity | discriminate ] | |
      split; [ reflexivity | discriminate ] ].
  destruct (pem_Decode X (cb :: cc)) as [[cblock|] [|? ?]]; simpl;
    try (split; [ reflexivity | discriminate ]).
  - destruct (pem_Decode X (kb :: kc)) as [[kblock|] [|? ?]]; simpl.
    + destruct (String.eqb (Type_ cblock) "CERTIFICATE"); simpl;
        [ | split; [ reflexivity | discriminate ] ].
      destruct (String.eqb (Type_ kblock) "RSA PRIVATE KEY"); simpl.
      * destruct (x509_ParseCertificate X (Bytes cblock)) as [cert|]; simpl;
          [ | split; [ reflexivity | discriminate ] ].
        destruct (x509_ParsePKCS1PrivateKey X (Bytes kblock)) as [key|]; simpl;
          [ | split; [ reflexivity | discriminate ] ].
        split; [ reflexivity | intros _; eauto ].
      * destruct (x509_ParseCertificate X (Bytes cblock)); simpl;
          (split; [ reflexivity | discriminate ]).
    + destruct (String.eqb (Type_ cblock) "CERTIFICATE"); simpl;
        [ | split; [ reflexivity | discriminate ] ].
      destruct (x509_ParseCertificate X (Bytes cblock)); simpl;
        (split; [ reflexivity | discriminate ]).
    + destruct (String.eqb (Type_ cblock) "CERTIFICATE"); simpl;
        [ | split; [ reflexivity | discriminate ] ].
      destruct (x509_ParseCertificate X (Bytes cblock)); simpl;
        (split; [ reflexivity | discriminate ]).
    + destruct (String.eqb (Type_ cblock) "CERTIFICATE"); simpl;
        [ | split; [ reflexivity | discriminate ] ].
      destruct (x509_ParseCertificate X (Bytes cblock)); simpl;
        (split; [ reflexivity | discriminate ]).
Qed.

(** C10. A failed load leaves the certificate manager as it was: the two
    fields are assigned only once both the certificate and the key have
    parsed. *)
Theorem LoadCA_failure_keeps_manager certPath keyPath cm err cm' :
  LoadCA X certPath keyPath cm = (Some err, cm') -> cm' = cm.
Proof.
  unfold LoadCA, InitializeCertificateAuthority.
  destruct (loadCertificateFiles X certPath keyPath) as [[certData keyData]|e].
  - destruct (processCertificateData X cm certData keyData) as [[e1|] cm1] eqn:Hp.
    + intros H; inversion H; subst.
      eapply processCertificateData_failure; eauto.
    + discriminate.
  - intros H; inversion H; reflexivity.
Qed.

(** C4, as amended. The loader never compares the two keys: whenever the
    certificate file and the key file each hold what they should, the
    load succeeds and publishes the pair, matching or not. *)
Theorem LoadCA_ignores_key_match certPath keyPath cm cert key :
  certificate_in X certPath = Some cert ->
  key_in X keyPath = Some key ->
  LoadCA X certPath keyPath cm =
  (None, {| rootCertificate := Some cert; privateKey := Some key |}).
Proof.
  unfold certificate_in, key_in, LoadCA, InitializeCertificateAuthority,
    loadCertificateFiles, processCertificateData, readSecureFile,
    parseCertificateBlock, parsePrivateKeyBlock.
  destruct (os_ReadFile X certPath) as [[|cb cc]|]; try discriminate.
  destruct (os_ReadFile X keyPath) as [[|kb kc]|]; try discriminate.
  simpl.
  destruct (pem_Decode X (cb :: cc)) as [[cblock|] [|? ?]]; try discriminate.
  destruct (pem_Decode X (kb :: kc)) as [[kblock|] [|? ?]]; try discriminate.
  simpl.
  destruct (String.eqb (Type_ cblock) "CERTIFICATE"); try discriminate.
  destruct (String.eqb (Type_ kblock) "RSA PRIVATE KEY"); try discriminate.
  simpl.
  destruct (x509_ParseCertificate X (Bytes cblock)); try discriminate.
  destruct (x509_ParsePKCS1PrivateKey X (Bytes kblock)); try discriminate.
  intros Hc Hk; inversion Hc; inversion Hk; subst. reflexivity.
Qed.

End LoaderFacts.

(** [ca.crt] carries the key (21, 3), [other.key] is the key (37, 5): the
    load succeeds. *)
Lemma LoadCA_mismatched_pair :
  CA.LoadCA Fixture.lib "ca.crt" "other.key" CA.certManager =
  (None, {| CA.rootCertificate := Some Fixture.ca_certificate;
            CA.privateKey := Some Fixture.other_private_key |})
  /\ SubjectPublicKey Fixture.ca_certificate
     <> Some (PublicKey Fixture.other_private_key).
Proof. split; [ reflexivity | discriminate ]. Qed.

(** C4 does not hold: the load of [ca.crt] with [other.key] succeeds
    although the two keys differ. *)
Lemma key_mismatch_not_rejected : ~ key_mismatch_rejected.
Proof.
  intros H.
  specialize (H Fixture.lib "ca.crt" "other.key" CA.certManager
                Fixture.ca_certificate Fixture.other_private_key
                eq_refl eq_refl).
  destruct LoadCA_mismatched_pair as [Hload Hne].
  specialize (H Hne). rewrite Hload in H. discriminate.
Qed.

Lemma LoadCA_ignores_key_match_witness :
  CA.LoadCA Fixture.lib "ca.crt" "other.key" CA.certManager =
  (None, {| CA.rootCertificate := Some Fixture.ca_certificate;
            CA.privateKey := Some Fixture.other_private_key |}).
Proof.
  apply (LoadCA_ignores_key_match Fixture.lib "ca.crt" "other.key");
    reflexivity.
Defined.

Lemma LoadCA_failure_keeps_manager_witness :
  CA.LoadCA Fixture.lib "ca.crt" "missing.key"
    {| CA.rootCertificate := Some Fixture.ca_certificate;
       CA.privateKey := Some Fixture.ca_private_key |}
  = (Some (ErrLoadFiles (ErrCannotReadKey
             (ErrReadFile "missing.key" (LibraryError "os.ReadFile")))),
     {| CA.rootCertificate := Some Fixture.ca_certificate;
        CA.privateKey := Some Fixture.ca_private_key |})
  /\ {| CA.rootCertificate := Some Fixture.ca_certificate;
        CA.privateKey := Some Fixture.ca_private_key |}
     = {| CA.rootCertificate := Some Fixture.ca_certificate;
          CA.privateKey := Some Fixture.ca_private_key |}.
Proof.
  split; [ reflexivity | ].
  apply (LoadCA_failure_keeps_manager Fixture.lib "ca.crt" "missing.key"
           _ (ErrLoadFiles (ErrCannotReadKey
                (ErrReadFile "missing.key" (LibraryError "os.ReadFile"))))).
  reflexivity.
Defined.

(** ** The leaf certificate store *)
Section MintFacts.
Context (X : Externals).
Import Mint.

Local Open Scope Z_scope.

Lemma byte_val_nonneg b : 0 <= byte_val b.
Proof. unfold byte_val. lia. Qed.

Lemma SetBytes_from_nonneg bs acc :
  0 <= acc -> 0 <= fold_left (fun acc b => acc * 256 + byte_val b) bs acc.
Proof.
  revert acc. induction bs as [|b bs IH]; intros acc Hacc; simpl; [ lia | ].
  apply IH. pose proof (byte_val_nonneg b). lia.
Qed.

Lemma SetBytes_nonneg bs : 0 <= SetBytes bs.
Proof. apply SetBytes_from_nonneg. lia. Qed.

(** Whatever [rand.Int] returns lies in [[0, max)]. *)
Lemma rand_Int_loop_range fuel reader k b max n rest :
  rand_Int_loop fuel reader k b max = (Ok n, rest) -> 0 <= n < max.
Proof.
  revert reader. induction fuel as [|fuel IH]; intros reader; simpl;
    [ discriminate | ].
  destruct (length reader <? k)%nat; [ discriminate | ].
  match goal with |- context [ (?c <? max) ] => destruct (Z.ltb_spec c max) as [Hlt|Hge] end.
  - intros H; inversion H; subst. split; [ | exact Hlt ].
    destruct (take k reader) as [|b0 bs]; [ lia | ].
    pose proof (SetBytes_nonneg bs).
    assert (0 <= Z.land (byte_val b0) (Z.shiftl 1 b - 1)).
    { apply Z.land_nonneg. left. apply byte_val_nonneg. }
    assert (0 <= 256 ^ Z.of_nat (length bs)) by (apply Z.pow_nonneg; lia).
    nia.
  - apply IH.
Qed.

Lemma rand_Int_range reader max n rest :
  0 < max -> rand_Int reader max = (Ok n, rest) -> 0 <= n < max.
Proof.
  intros Hmax. unfold rand_Int.
  destruct (BitLen (max - 1) =? 0).
  - intros H; inversion H; subst. lia.
  - apply rand_Int_loop_range.
Qed.

(** The loop stops before its fuel does: more fuel than bytes to read
    changes nothing. *)
Lemma rand_Int_loop_fuel fuel reader k b max :
  (0 < k)%nat -> (length reader < fuel)%nat ->
  rand_Int_loop (S fuel) reader k b max = rand_Int_loop fuel reader k b max.
Proof.
  intros Hk. revert reader.
  induction fuel as [|fuel IH]; intros reader Hlen; [ lia | ].
  change (rand_Int_loop (S (S fuel)) reader k b max) with
    (if (length reader <? k)%nat then (Err (LibraryError "io.ReadFull"), [])
     else
       let rest := drop k reader in
       let n := match take k reader with
                | [] => 0
                | b0 :: bs =>
                    SetBytes bs + Z.land (byte_val b0) (Z.shiftl 1 b - 1)
                                  * 256 ^ Z.of_nat (length bs)
                end in
       if n <? max then (Ok n, rest)
       else rand_Int_loop (S fuel) rest k b max).
  change (rand_Int_loop (S fuel) reader k b max) with
    (if (length reader <? k)%nat then (Err (LibraryError "io.ReadFull"), [])
     else
       let rest := drop k reader in
       let n := match take k reader with
                | [] => 0
                | b0 :: bs =>
                    SetBytes bs + Z.land (byte_val b0) (Z.shiftl 1 b - 1)
                                  * 256 ^ Z.of_nat (length bs)
                end in
       if n <? max then (Ok n, rest)
       else rand_Int_loop fuel rest k b max).
  destruct (Nat.ltb_spec (length reader) k) as [|Hge]; [ reflexivity | ].
  cbv zeta.
  match goal with |- context [ (?c <? max) ] => destruct (c <? max) end;
    [ reflexivity | ].
  apply IH. rewrite length_drop. lia.
Qed.

(** With eight bytes of entropy left the serial is drawn at once. *)
Lemma rand_Int_serial_succeeds reader :
  (8 <= length reader)%nat ->
  exists n, rand_Int reader (Z.shiftl 1 62) = (Ok n, drop 8 reader).
Proof.
  intros Hlen. unfold rand_Int.
  change (BitLen (Z.shiftl 1 62 - 1) =? 0) with false. cbv iota.
  change (Z.to_nat ((BitLen (Z.shiftl 1 62 - 1) + 7) / 8)) with 8%nat.
  change (if BitLen (Z.shiftl 1 62 - 1) mod 8 =? 0 then 8
          else BitLen (Z.shiftl 1 62 - 1) mod 8) with 6.
  cbn [rand_Int_loop].
  destruct (Nat.ltb_spec (length reader) 8) as [Hlt|_]; [ lia | ].
  destruct reader as [|b0 [|b1 [|b2 [|b3 [|b4 [|b5 [|b6 [|b7 rest]]]]]]]];
    simpl in Hlen; try lia.
  cbn [firstn skipn length].
  match goal with |- context [ (?c <? Z.shiftl 1 62) ] =>
    destruct (Z.ltb_spec c (Z.shiftl 1 62)) as [Hlt|Hge]; [ eauto | exfalso ] end.
  revert Hge.
  assert (Hm : 0 <= Z.land (byte_val b0) (Z.shiftl 1 6 - 1) < 64).
  { change (Z.shiftl 1 6 - 1) with (Z.ones 6). rewrite Z.land_ones by lia.
    apply Z.mod_pos_bound. lia. }
  assert (Hb : forall b, 0 <= byte_val b < 256).
  { intros b. unfold byte_val. pose proof (Byte.to_N_bounded b). lia. }
  pose proof (Hb b1). pose proof (Hb b2). pose proof (Hb b3).
  pose proof (Hb b4). pose proof (Hb b5). pose proof (Hb b6). pose proof (Hb b7).
  unfold SetBytes. rewrite firstn_O. cbn [fold_left length].
  change (Z.shiftl 1 62) with 4611686018427387904.
  change (256 ^ Z.of_nat 7) with 72057594037927936.
  lia.
Qed.

Local Close Scope Z_scope.

Lemma generatePrivateKey_runtime g rt r rt' :
  generatePrivateKey X g rt = (r, rt') -> heap rt' = heap rt /\ now rt' = now rt.
Proof.
  unfold generatePrivateKey.
  destruct (rsa_GenerateKey X (rand_Reader rt) (keySize g)) as [[k|e] rd];
    intros H; inversion H; subst; split; reflexivity.
Qed.

Lemma createCertificateTemplate_runtime g hostname rt r rt' :
  createCertificateTemplate g hostname rt = (r, rt') ->
  heap rt' = heap rt /\ now rt' = now rt.
Proof.
  unfold createCertificateTemplate.
  destruct (rand_Int (rand_Reader rt) (Z.shiftl 1 62)) as [[n|e] rd];
    intros H; inversion H; subst; split; reflexivity.
Qed.

(** A bundle is allocated exactly when [createTLSCertificate] succeeds,
    at the first free address. *)
Lemma createTLSCertificate_heap g template key rt r rt' :
  createTLSCertificate X g template key rt = (r, rt') ->
  match r with
  | Ok p => p = length (heap rt) /\ exists c, heap rt' = heap rt ++ [c]
  | Err _ => heap rt' = heap rt
  end.
Proof.
  unfold createTLSCertificate, alloc.
  destruct (rootCert g), (rootKey g);
    try (intros H; inversion H; subst; reflexivity).
  destruct (x509_CreateCertificate X _ _ _ _);
    [ | intros H; inversion H; subst; reflexivity ].
  destruct (tls_X509KeyPair X _ _) as [c|e];
    intros H; inversion H; subst; simpl; eauto.
Qed.

Lemma generateCertificate_heap g hostname rt r rt' :
  generateCertificate X g hostname rt = (r, rt') ->
  match r with
  | Ok p => p = length (heap rt) /\ exists c, heap rt' = heap rt ++ [c]
  | Err _ => heap rt' = heap rt
  end.
Proof.
  unfold generateCertificate.
  destruct (validateConfiguration g);
    [ intros H; inversion H; subst; reflexivity | ].
  destruct (generatePrivateKey X g rt) as [[key|e] rt1] eqn:Hk;
    apply generatePrivateKey_runtime in Hk as [Hk _];
    [ | intros H; inversion H; subst; exact Hk ].
  destruct (createCertificateTemplate g hostname rt1) as [[t|e] rt2] eqn:Ht;
    apply createCertificateTemplate_runtime in Ht as [Ht _];
    [ | intros H; inversion H; subst; congruence ].
  intros H. apply createTLSCertificate_heap in H.
  destruct r; rewrite Ht, Hk in H; exact H.
Qed.

(** The three ways a call can go: a hit, a failed mint, a mint. *)
Lemma GetOrCreateCertificate_cases s hostname rt r s1 rt1 :
  GetOrCreateCertificate X s hostname rt = (r, s1, rt1) ->
  (exists p, cache s !! hostname = Some p /\ r = Ok p /\ s1 = s /\ rt1 = rt)
  \/ (cache s !! hostname = None /\
      exists e, r = Err e /\ s1 = s /\ heap rt1 = heap rt)
  \/ (cache s !! hostname = None /\
      exists c, r = Ok (length (heap rt)) /\
                s1 = {| cache := <[hostname := length (heap rt)]> (cache s);
                        generator := generator s |} /\
                heap rt1 = heap rt ++ [c]).
Proof.
  unfold GetOrCreateCertificate, createAndStoreCertificate.
  destruct (cache s !! hostname) as [p|] eqn:Hc.
  - intros H; inversion H; subst. left. eauto.
  - destruct (generateCertificate X (generator s) hostname rt) as [[p|e] rt'] eqn:Hg;
      apply generateCertificate_heap in Hg; intros H; inversion H; subst.
    + right; right. destruct Hg as [-> [c Hc']]. eauto.
    + right; left. eauto.
Qed.

Lemma GetOrCreateCertificate_hit s hostname rt p :
  cache s !! hostname = Some p ->
  GetOrCreateCertificate X s hostname rt = (Ok p, s, rt).
Proof. intros H. unfold GetOrCreateCertificate. rewrite H. reflexivity. Qed.

(** No call removes or rebinds an entry, changes an allocated bundle or
    touches the generator. *)
Lemma GetOrCreateCertificate_keeps s hostname rt r s1 rt1 :
  GetOrCreateCertificate X s hostname rt = (r, s1, rt1) ->
  (forall h q, cache s !! h = Some q -> cache s1 !! h = Some q)
  /\ (forall q c, heap rt !! q = Some c -> heap rt1 !! q = Some c)
  /\ generator s1 = generator s.
Proof.
  intros H. apply GetOrCreateCertificate_cases in H.
  destruct H as [(p & Hc & -> & -> & ->) | [(Hc & e & -> & -> & Hh)
                                          | (Hc & c & -> & -> & Hh)]].
  - auto.
  - rewrite Hh. auto.
  - rewrite Hh. simpl. split; [ | split; [ | reflexivity ] ].
    + intros h q Hq. destruct (decide (hostname = h)) as [->|Hne].
      * congruence.
      * rewrite lookup_insert_ne by exact Hne. exact Hq.
    + intros q c' Hq. apply lookup_app_l_Some. exact Hq.
Qed.

Lemma GetOrCreateCertificate_caches s hostname rt p s1 rt1 :
  GetOrCreateCertificate X s hostname rt = (Ok p, s1, rt1) ->
  cache s1 !! hostname = Some p.
Proof.
  intros H. apply GetOrCreateCertificate_cases in H.
  destruct H as [(q & Hc & Hr & -> & ->) | [(Hc & e & Hr & _)
                                          | (Hc & c & Hr & -> & Hh)]].
  - congruence.
  - discriminate.
  - inversion Hr; subst. simpl. apply lookup_insert_eq.
Qed.

Lemma calls_keep hostnames s rt s2 rt2 :
  calls X hostnames s rt = (s2, rt2) ->
  (forall h q, cache s !! h = Some q -> cache s2 !! h = Some q)
  /\ (forall q c, heap rt !! q = Some c -> heap rt2 !! q = Some c)
  /\ generator s2 = generator s.
Proof.
  revert s rt. induction hostnames as [|h hs IH]; intros s rt; simpl.
  - intros H; inversion H; subst. auto.
  - destruct (GetOrCreateCertificate X s h rt) as [[r s'] rt'] eqn:Hcall.
    intros H. apply IH in H as (Hc & Hh & Hg).
    apply GetOrCreateCertificate_keeps in Hcall as (Hc' & Hh' & Hg').
    split; [ | split ]; [ auto | auto | congruence ].
Qed.

Lemma GetOrCreateCertificate_store_ok s hostname rt r s1 rt1 :
  store_ok s rt ->
  GetOrCreateCertificate X s hostname rt = (r, s1, rt1) ->
  store_ok s1 rt1.
Proof.
  intros [Hal Hinj] H. apply GetOrCreateCertificate_cases in H.
  destruct H as [(p & Hc & -> & -> & ->) | [(Hc & e & -> & -> & Hh)
                                          | (Hc & c & -> & -> & Hh)]].
  - split; assumption.
  - split; [ | assumption ]. intros h q Hq. rewrite Hh. eauto.
  - split.
    + intros h q. simpl. rewrite Hh, length_app. simpl.
      destruct (decide (hostname = h)) as [->|Hne].
      * rewrite lookup_insert_eq. intros Hq; inversion Hq; subst. lia.
      * rewrite lookup_insert_ne by exact Hne. intros Hq.
        apply Hal in Hq. lia.
    + intros h1 h2 q. simpl.
      destruct (decide (hostname = h1)) as [E1|Hne1];
        destruct (decide (hostname = h2)) as [E2|Hne2].
      * congruence.
      * subst h1. rewrite lookup_insert_eq, lookup_insert_ne by assumption.
        intros Hq1 Hq2. inversion Hq1; subst. apply Hal in Hq2. lia.
      * subst h2. rewrite lookup_insert_eq, lookup_insert_ne by assumption.
        intros Hq1 Hq2. inversion Hq2; subst. apply Hal in Hq1. lia.
      * rewrite !lookup_insert_ne by assumption. apply Hinj.
Qed.

(** C1. Once a call for a hostname has succeeded, every later call for
    it, whatever calls come in between, returns the same pointer and
    changes nothing (no mint, no entropy drawn, nothing allocated), and
    the bundle behind the pointer is still the one allocated; no call,
    successful or not, removes or rebinds a cache entry or alters an
    allocated bundle. *)
Theorem GetOrCreateCertificate_same_bundle s hostname rt r s1 rt1 :
  GetOrCreateCertificate X s hostname rt = (r, s1, rt1) ->
  (forall h q, cache s !! h = Some q -> cache s1 !! h = Some q)
  /\ (forall q c, heap rt !! q = Some c -> heap rt1 !! q = Some c)
  /\ (forall p, r = Ok p ->
      cache s1 !! hostname = Some p /\
      forall between s2 rt2,
        calls X between s1 rt1 = (s2, rt2) ->
        GetOrCreateCertificate X s2 hostname rt2 = (Ok p, s2, rt2) /\
        forall c, heap rt1 !! p = Some c -> heap rt2 !! p = Some c).
Proof.
  intros H.
  pose proof (GetOrCreateCertificate_keeps _ _ _ _ _ _ H) as (Hc & Hh & _).
  split; [ exact Hc | split; [ exact Hh | ] ].
  intros p ->. apply GetOrCreateCertificate_caches in H.
  split; [ exact H | ].
  intros between s2 rt2 Hcalls.
  apply calls_keep in Hcalls as (Hc2 & Hh2 & _).
  split; [ apply GetOrCreateCertificate_hit; auto | auto ].
Qed.

(** C5, as amended. The cache is keyed by the hostname as passed, with no
    case folding: in a store whose cache is well formed, calls for two
    different strings that both succeed return two different pointers,
    each cached under its own string. *)
Theorem distinct_hostnames_distinct_bundles s h1 h2 rt p1 s1 rt1 p2 s2 rt2 :
  store_ok s rt ->
  h1 <> h2 ->
  GetOrCreateCertificate X s h1 rt = (Ok p1, s1, rt1) ->
  GetOrCreateCertificate X s1 h2 rt1 = (Ok p2, s2, rt2) ->
  p1 <> p2 /\ cache s2 !! h1 = Some p1 /\ cache s2 !! h2 = Some p2.
Proof.
  intros Hok Hne H1 H2.
  pose proof (GetOrCreateCertificate_store_ok _ _ _ _ _ _ Hok H1) as Hok1.
  pose proof (GetOrCreateCertificate_store_ok _ _ _ _ _ _ Hok1 H2) as [_ Hinj].
  pose proof (GetOrCreateCertificate_caches _ _ _ _ _ _ H1) as Hc1.
  pose proof (GetOrCreateCertificate_caches _ _ _ _ _ _ H2) as Hc2.
  apply GetOrCreateCertificate_keeps in H2 as (Hkeep & _).
  apply Hkeep in Hc1.
  split; [ | split; assumption ].
  intros ->. apply Hne. eapply Hinj; eassumption.
Qed.

Local Open Scope Z_scope.

(** C2. When minting succeeds with the package's validity of 30 days,
    the template that is signed into the leaf has the hostname as its
    subject CN and as its only DNS name, is valid from one hour before
    to 30 days after the time of the call, has the key usages
    digitalSignature and keyEncipherment and no other, the single
    extended key usage serverAuth, and a serial in [[0, 2^62)]; and the
    bundle returned is made of that template: it is the new entry of the
    heap, at the pointer returned, and it is the key pair
    [tls.X509KeyPair] builds from the PEM of the DER that
    [x509.CreateCertificate] signs for that template, the generated
    public key, the root certificate and the root key, and from the PEM
    of the generated private key. *)
Theorem minted_leaf_template g hostname rt p rt' :
  validityDays g = 30 ->
  generateCertificate X g hostname rt = (Ok p, rt') ->
  exists privateKey template rt1 rt2,
    generatePrivateKey X g rt = (Ok privateKey, rt1) /\
    createCertificateTemplate g hostname rt1 = (Ok template, rt2) /\
    createTLSCertificate X g template privateKey rt2 = (Ok p, rt') /\
    CommonName (Subject template) = hostname /\
    DNSNames template = [hostname] /\
    NotBefore template = now rt - time_Hour /\
    NotAfter template = now rt + 30 * (24 * time_Hour) /\
    (forall i, Z.testbit (KeyUsage template) i = true <-> i = 0 \/ i = 2) /\
    KeyUsage template =
      Z.lor x509_KeyUsageDigitalSignature x509_KeyUsageKeyEncipherment /\
    ExtKeyUsage template = [ExtKeyUsageServerAuth] /\
    0 <= SerialNumber template < 2 ^ 62 /\
    exists parent signer certDER leaf,
      rootCert g = Some parent /\
      rootKey g = Some signer /\
      x509_CreateCertificate X template parent (PublicKey privateKey) signer
      = Ok certDER /\
      tls_X509KeyPair X
        (pem_EncodeToMemory X {| Type_ := "CERTIFICATE"; Bytes := certDER |})
        (pem_EncodeToMemory X
           {| Type_ := "RSA PRIVATE KEY";
              Bytes := x509_MarshalPKCS1PrivateKey X privateKey |})
      = Ok leaf /\
      p = length (heap rt) /\
      heap rt' = heap rt ++ [leaf] /\
      heap rt' !! p = Some leaf.
Proof.
  intros Hdays. unfold generateCertificate.
  destruct (validateConfiguration g); [ discriminate | ].
  destruct (generatePrivateKey X g rt) as [[key|e] rt1] eqn:Hk;
    [ | discriminate ].
  destruct (createCertificateTemplate g hostname rt1) as [[t|e] rt2] eqn:Ht;
    [ | discriminate ].
  intros Hc. exists key, t, rt1, rt2.
  split; [ reflexivity | split; [ exact Ht | split; [ exact Hc | ] ] ].
  assert (Hleaf : exists parent signer certDER leaf,
             rootCert g = Some parent /\
             rootKey g = Some signer /\
             x509_CreateCertificate X t parent (PublicKey key) signer
             = Ok certDER /\
             tls_X509KeyPair X
               (pem_EncodeToMemory X
                  {| Type_ := "CERTIFICATE"; Bytes := certDER |})
               (pem_EncodeToMemory X
                  {| Type_ := "RSA PRIVATE KEY";
                     Bytes := x509_MarshalPKCS1PrivateKey X key |})
             = Ok leaf /\
             p = length (heap rt) /\
             heap rt' = heap rt ++ [leaf] /\
             heap rt' !! p = Some leaf).
  { pose proof (generatePrivateKey_runtime _ _ _ _ Hk) as [Hh1 _].
    pose proof (createCertificateTemplate_runtime _ _ _ _ _ Ht) as [Hh2 _].
    unfold createTLSCertificate in Hc.
    destruct (rootCert g) as [parent|]; [ | discriminate ].
    destruct (rootKey g) as [signer|]; [ | discriminate ].
    destruct (x509_CreateCertificate X t parent (PublicKey key) signer)
      as [certDER|e] eqn:Hsign; [ | discriminate ].
    destruct (tls_X509KeyPair X _ _) as [leaf|e] eqn:Hpair; [ | discriminate ].
    unfold alloc in Hc. inversion Hc; subst p rt'. simpl heap.
    exists parent, signer, certDER, leaf. rewrite Hh2, Hh1.
    split; [ reflexivity | ]. split; [ reflexivity | ].
    split; [ exact Hsign | ]. split; [ exact Hpair | ].
    split; [ reflexivity | ]. split; [ reflexivity | ].
    apply list_lookup_middle. reflexivity. }
  split; [ | split; [ | split; [ | split; [ | split; [ | split; [ | split;
    [ | split; [ | exact Hleaf ] ] ] ] ] ] ] ].
  all: clear Hleaf Hc.
  all: apply generatePrivateKey_runtime in Hk as [_ Hnow].
  all: unfold createCertificateTemplate in Ht.
  all: destruct (rand_Int (rand_Reader rt1) (Z.shiftl 1 62)) as [[n|e] rd] eqn:Hr;
    [ | discriminate ].
  all: apply rand_Int_range in Hr; [ | reflexivity ].
  all: inversion Ht; subst; simpl; rewrite ?Hdays, ?Hnow.
  all: try reflexivity; try lia.
  - intros i. split.
    + intros Hbit. change (Z.lor x509_KeyUsageKeyEncipherment
                                 x509_KeyUsageDigitalSignature) with 5 in Hbit.
      destruct (Z.ltb_spec i 0) as [Hneg|Hpos].
      { rewrite Z.testbit_neg_r in Hbit by exact Hneg. discriminate. }
      destruct (Z.ltb_spec i 3) as [Hlt|Hge].
      * assert (i = 0 \/ i = 1 \/ i = 2) as [-> | [-> | ->]] by lia;
          [ auto | discriminate | auto ].
      * rewrite Z.bits_above_log2 in Hbit; [ discriminate | lia | ].
        change (Z.log2 5) with 2. lia.
    + intros [-> | ->]; reflexivity.
  - change (Z.shiftl 1 62) with (2 ^ 62) in Hr. lia.
Qed.

End MintFacts.

Lemma store_ok_empty g rt :
  Mint.store_ok {| Mint.cache := ∅; Mint.generator := g |} rt.
Proof.
  split.
  - intros h p Hp. simpl in Hp. rewrite lookup_empty in Hp. discriminate.
  - intros h1 h2 p Hp. simpl in Hp. rewrite lookup_empty in Hp. discriminate.
Qed.

(** The package-level store never mints: nothing hands the loaded CA to
    its generator, so [validateConfiguration] rejects every call. *)
Lemma defaultStore_never_mints (X : Externals) hostname rt :
  Mint.GetCertificate X Mint.defaultStore hostname rt
  = (Err (ErrGenerate ErrNotInitialized), Mint.defaultStore, rt).
Proof. reflexivity. Qed.

(** The first call mints bundle 0 for [Example.test]; the call for the
    lowercased name mints bundle 1. *)
Lemma mixed_case_hostname_minted_twice :
  Mint.GetOrCreateCertificate Fixture.lib Fixture.store "Example.test"
    Fixture.runtime = (Ok 0, Fixture.store1, Fixture.runtime1)
  /\ GoStrings.ToLower "Example.test" = "example.test"
  /\ Mint.GetOrCreateCertificate Fixture.lib Fixture.store1 "example.test"
       Fixture.runtime1 = (Ok 1, Fixture.store2, Fixture.runtime2)
  /\ length (Mint.heap Fixture.runtime2) = 2.
Proof. repeat split; vm_compute; reflexivity. Qed.

(** C5 does not hold: [Example.test] and its lowercased form
    [example.test] are minted separately, as bundles 0 and 1. *)
Lemma cache_not_keyed_by_lowercase : ~ cache_keyed_by_lowercase.
Proof.
  intros H.
  destruct mixed_case_hostname_minted_twice as (H1 & _ & H2 & _).
  specialize (H Fixture.lib Fixture.store "Example.test" Fixture.runtime
                0 Fixture.store1 Fixture.runtime1
                1 Fixture.store2 Fixture.runtime2 H1 H2).
  discriminate.
Qed.

Lemma distinct_hostnames_distinct_bundles_witness :
  0 <> 1
  /\ Mint.cache Fixture.store2 !! "Example.test" = Some 0
  /\ Mint.cache Fixture.store2 !! "example.test" = Some 1.
Proof.
  apply (distinct_hostnames_distinct_bundles Fixture.lib Fixture.store
           "Example.test" "example.test" Fixture.runtime
           0 Fixture.store1 Fixture.runtime1 1 Fixture.store2 Fixture.runtime2).
  - apply store_ok_empty.
  - discriminate.
  - vm_compute; reflexivity.
  - vm_compute; reflexivity.
Defined.

Lemma GetOrCreateCertificate_same_bundle_witness :
  Mint.GetOrCreateCertificate Fixture.lib Fixture.store "Example.test"
    Fixture.runtime = (Ok 0, Fixture.store1, Fixture.runtime1)
  /\ Mint.GetOrCreateCertificate Fixture.lib Fixture.store2 "Example.test"
       Fixture.runtime2 = (Ok 0, Fixture.store2, Fixture.runtime2).
Proof.
  assert (H : Mint.GetOrCreateCertificate Fixture.lib Fixture.store
                "Example.test" Fixture.runtime
              = (Ok 0, Fixture.store1, Fixture.runtime1))
    by (vm_compute; reflexivity).
  split; [ exact H | ].
  apply (GetOrCreateCertificate_same_bundle Fixture.lib _ _ _ _ _ _ H)
    with (between := ["example.test"]); [ reflexivity | ].
  vm_compute; reflexivity.
Defined.

Lemma minted_leaf_template_witness :
  Mint.validityDays (Mint.generator Fixture.store) = 30%Z
  /\ Mint.generateCertificate Fixture.lib (Mint.generator Fixture.store)
       "Example.test" Fixture.runtime = (Ok 0, Fixture.runtime1)
  /\ exists privateKey template rt1 rt2,
       Mint.generatePrivateKey Fixture.lib (Mint.generator Fixture.store)
         Fixture.runtime = (Ok privateKey, rt1) /\
       Mint.createCertificateTemplate (Mint.generator Fixture.store)
         "Example.test" rt1 = (Ok template, rt2) /\
       Mint.createTLSCertificate Fixture.lib (Mint.generator Fixture.store)
         template privateKey rt2 = (Ok 0, Fixture.runtime1) /\
       CommonName (Subject template) = "Example.test" /\
       DNSNames template = ["Example.test"] /\
       NotBefore template = (Mint.now Fixture.runtime - Mint.time_Hour)%Z /\
       NotAfter template
       = (Mint.now Fixture.runtime + 30 * (24 * Mint.time_Hour))%Z /\
       (forall i, Z.testbit (KeyUsage template) i = true <-> i = 0%Z \/ i = 2%Z) /\
       KeyUsage template =
         Z.lor Mint.x509_KeyUsageDigitalSignature
               Mint.x509_KeyUsageKeyEncipherment /\
       ExtKeyUsage template = [ExtKeyUsageServerAuth] /\
       (0 <= SerialNumber template < 2 ^ 62)%Z /\
       exists parent signer certDER leaf,
         Mint.rootCert (Mint.generator Fixture.store) = Some parent /\
         Mint.rootKey (Mint.generator Fixture.store) = Some signer /\
         x509_CreateCertificate Fixture.lib template parent
           (PublicKey privateKey) signer = Ok certDER /\
         tls_X509KeyPair Fixture.lib
           (pem_EncodeToMemory Fixture.lib
              {| Type_ := "CERTIFICATE"; Bytes := certDER |})
           (pem_EncodeToMemory Fixture.lib
              {| Type_ := "RSA PRIVATE KEY";
                 Bytes := x509_MarshalPKCS1PrivateKey Fixture.lib privateKey |})
         = Ok leaf /\
         0%nat = length (Mint.heap Fixture.runtime) /\
         Mint.heap Fixture.runtime1 = Mint.heap Fixture.runtime ++ [leaf] /\
         Mint.heap Fixture.runtime1 !! 0%nat = Some leaf.
Proof.
  split; [ reflexivity | ].
  assert (H : Mint.generateCertificate Fixture.lib
                (Mint.generator Fixture.store) "Example.test" Fixture.runtime
              = (Ok 0, Fixture.runtime1))
    by (vm_compute; reflexivity).
  split; [ exact H | ].
  exact (minted_leaf_template Fixture.lib (Mint.generator Fixture.store)
           "Example.test" Fixture.runtime 0 Fixture.runtime1 eq_refl H).
Defined.

(** ** Plain forwarding *)
Section PlainFacts.
Import GoStrings GoNet Plain.

Lemma Read_some reader n chunk reader' :
  Read reader n = (chunk, None, reader') ->
  pending reader <> [] /\ chunk = take n (pending reader) /\
  reader' = {| pending := drop n (pending reader); final := final reader |}.
Proof.
  unfold Read. destruct (pending reader) eqn:Hp; [ discriminate | ].
  intros H; inversion H; subst. split; [ discriminate | split; reflexivity ].
Qed.

Lemma Read_none reader n chunk err reader' :
  Read reader n = (chunk, Some err, reader') ->
  pending reader = [] /\ chunk = [] /\ err = final reader /\ reader' = reader.
Proof.
  unfold Read. destruct (pending reader) eqn:Hp; [ | discriminate ].
  intros H; inversion H; subst. auto.
Qed.

(** After [funelim]: drop the bookkeeping equations. *)
Ltac forget_call :=
  repeat match goal with
         | H : @eq (sigma _) _ _ |- _ => clear H
         end.

(** The body loop drains the reader; it reports success exactly when the
    stream ends with [io.EOF]. *)
Lemma readBodyLoop_drains reader body :
  readBodyLoop reader body =
  (if decide (final reader = io_EOF) then None else Some (final reader),
   body ++ pending reader,
   {| pending := []; final := final reader |}).
Proof.
  funelim (readBodyLoop reader body); forget_call; try clear Heqcall.
  - match goal with H : Read _ _ = _ |- _ =>
      apply Read_none in H as (Hp & -> & -> & ->) end.
    rewrite Hp, app_nil_r. simpl. destruct reader0 as [pd fin]; simpl in *.
    subst pd. destruct (decide (fin = io_EOF)); reflexivity.
  - match goal with H : Read _ _ = _ |- _ =>
      apply Read_some in H as (Hp & -> & ->) end.
    match goal with IH : readBodyLoop _ _ = _ |- _ => rewrite IH end.
    simpl. f_equal. f_equal.
    destruct (pending reader0) as [|b bs] eqn:Hpd; [ contradiction | ].
    replace (0 <? length (take bufferSize (b :: bs)))%nat with true
      by (symmetry; apply Nat.ltb_lt; rewrite length_take; unfold bufferSize;
          simpl; lia).
    rewrite <- app_assoc, take_drop. reflexivity.
Qed.

Lemma parseHeaderLine_not_proxy line h :
  parseHeaderLine line = Some h -> not_proxy_connection (name h).
Proof.
  unfold parseHeaderLine, not_proxy_connection, EqualFold.
  destruct (SplitN line ":" 2) as [|p0 [|p1 [|? ?]]]; try discriminate.
  change (ToLower "Proxy-Connection") with "proxy-connection".
  destruct (String.eqb (ToLower (TrimSpace p0)) "proxy-connection") eqn:Hp;
    [ discriminate | ].
  intros H; inversion H; subst. exact Hp.
Qed.

Lemma readRequestLine_keeps rd reader e rd1 reader1 :
  readRequestLine rd reader = (e, rd1, reader1) ->
  headers rd1 = headers rd /\ body rd1 = body rd.
Proof.
  unfold readRequestLine.
  destruct (ReadString reader newline) as [[line [err|]] r'].
  - intros H; inversion H; subst; auto.
  - destruct (Fields (TrimSpace line)) as [|p0 [|p1 [|p2 [|? ?]]]];
      intros H; inversion H; subst; auto.
Qed.

(** [parseHeaders] only appends to the header list, and every header it
    appends went through [parseHeaderLine]. *)
Lemma parseHeaders_keeps rd reader :
  let rd' := snd (fst (parseHeaders rd reader)) in
  method rd' = method rd /\ targetURL rd' = targetURL rd /\
  httpVersion rd' = httpVersion rd /\ body rd' = body rd /\
  (Forall (fun h => not_proxy_connection (name h)) (headers rd) ->
   Forall (fun h => not_proxy_connection (name h)) (headers rd')).
Proof.
  funelim (parseHeaders rd reader); forget_call; try clear Heqcall;
    simpl; auto.
  - match goal with IH : _ /\ _ |- _ =>
      simpl in IH; destruct IH as (Hm & Ht & Hv & Hb & Hh) end.
    repeat split; try assumption.
    intros Hok. apply Hh. apply Forall_app. split; [ exact Hok | ].
    constructor; [ | constructor ].
    eapply parseHeaderLine_not_proxy; eassumption.
Qed.

Lemma string_app_cons a s t : String a s +:+ t = String a (s +:+ t).
Proof. reflexivity. Qed.

Lemma string_app_assoc (s t u : string) : (s +:+ t) +:+ u = s +:+ (t +:+ u).
Proof.
  induction s as [|a s IH]; [ reflexivity | ].
  rewrite !string_app_cons, IH. reflexivity.
Qed.

Lemma string_app_nil_r (s : string) : s +:+ "" = s.
Proof.
  induction s as [|a s IH]; [ reflexivity | ].
  rewrite string_app_cons, IH. reflexivity.
Qed.

Lemma render_headers_app hs1 hs2 :
  render_headers (hs1 ++ hs2) = render_headers hs1 +:+ render_headers hs2.
Proof.
  induction hs1 as [|[n v] hs1 IH]; simpl; [ reflexivity | ].
  rewrite IH, string_app_assoc. reflexivity.
Qed.

(** What the [strings.Builder] holds after the loop over a header list. *)
Lemma builder_all (hs : list HeaderLine) (acc : string) :
  fold_left (fun acc header => acc +:+ header_line (name header) (value header))
            hs acc
  = acc +:+ render_headers (map (fun header => (name header, value header)) hs).
Proof.
  revert acc. induction hs as [|h hs IH]; intros acc; simpl.
  - rewrite string_app_nil_r. reflexivity.
  - rewrite IH, string_app_assoc. reflexivity.
Qed.

(** The same for the loop of [sendModifiedRequest], which skips the
    entries named [proxy-connection]. *)
Lemma builder_filtered (kvs : list (string * string)) (acc : string) :
  fold_left (fun acc kv =>
               if negb (String.eqb (ToLower (fst kv)) "proxy-connection")
               then acc +:+ header_line (fst kv) (snd kv) else acc)
            kvs acc
  = acc +:+ render_headers
      (filter (fun kv => negb (String.eqb (ToLower (fst kv)) "proxy-connection") = true)
              kvs).
Proof.
  revert acc. induction kvs as [|[k v] kvs IH]; intros acc; simpl.
  - rewrite string_app_nil_r. reflexivity.
  - rewrite IH. rewrite filter_cons. simpl.
    destruct (negb (String.eqb (ToLower k) "proxy-connection")) eqn:Hk.
    + rewrite decide_True by reflexivity. simpl.
      rewrite string_app_assoc. reflexivity.
    + rewrite decide_False by discriminate. reflexivity.
Qed.

Lemma sendRequest_text_head rd targetURL :
  sendRequest_text rd targetURL
  = request_text (method rd +:+ " / " +:+ httpVersion rd +:+ CRLF)
                 (sent_headers rd targetURL).
Proof.
  unfold sendRequest_text, request_text, sent_headers.
  rewrite builder_all, render_headers_app.
  change ("" +:+ ?x) with x.
  rewrite !string_app_assoc. do 4 f_equal.
  destruct (negb (hasHeader rd "Host")); simpl.
  - unfold header_line. rewrite !string_app_assoc. reflexivity.
  - reflexivity.
Qed.

Lemma sendModifiedRequest_text_head (X : Externals) p conn :
  sendModifiedRequest_text X p conn
  = request_text (requestMethod p +:+ " " +:+ path conn +:+ " "
                  +:+ protocolVer p +:+ CRLF)
                 (modified_headers X conn).
Proof.
  unfold sendModifiedRequest_text, request_text, modified_headers,
    forwarded_headers.
  rewrite builder_filtered, render_headers_app.
  change ("" +:+ ?x) with x.
  rewrite !string_app_assoc. do 6 f_equal.
  destruct (headers_ conn !! "host"); simpl.
  - reflexivity.
  - unfold header_line. rewrite !string_app_assoc. reflexivity.
Qed.

(** Whatever the client sends, no header that reaches [sendRequest] is
    named Proxy-Connection. *)
Lemma parseIncomingRequest_no_proxy client :
  Forall (fun h => not_proxy_connection (name h))
         (headers (snd (fst (parseIncomingRequest emptyRequestData client)))).
Proof.
  unfold parseIncomingRequest.
  destruct (readRequestLine emptyRequestData client) as [[e1 rd1] r1] eqn:H1.
  apply readRequestLine_keeps in H1 as [Hh1 _]. simpl in Hh1.
  destruct e1; simpl; [ rewrite Hh1; constructor | ].
  pose proof (parseHeaders_keeps rd1 r1) as (_ & _ & _ & _ & Hh2).
  destruct (parseHeaders rd1 r1) as [[e2 rd2] r2]. simpl in Hh2.
  specialize (Hh2 ltac:(rewrite Hh1; constructor)).
  destruct e2; simpl; [ exact Hh2 | ].
  unfold readRequestBody.
  destruct (String.eqb (method rd2) "GET" || String.eqb (method rd2) "HEAD").
  - exact Hh2.
  - destruct (readBodyLoop r2 (body rd2)) as [[e3 b3] r3].
    destruct e3; exact Hh2.
Qed.

Lemma deliver_no_origin_write net chunk data :
  ~ In (EvWrite Origin data) (snd (deliver net chunk)).
Proof.
  unfold deliver. destruct (0 <? length chunk)%nat; simpl.
  - intros [H|[]]. discriminate.
  - intros [].
Qed.

(** The relay loop writes to the client only. *)
Lemma relayLoop_no_origin_write net src data :
  ~ In (EvWrite Origin data) (snd (relayLoop net src)).
Proof.
  funelim (relayLoop net src); forget_call; try clear Heqcall.
  - pose proof (deliver_no_origin_write net chunk data) as Hd.
    destruct (deliver net chunk) as [[werr|] evs]; simpl in *;
      intros [H|H]; try discriminate; contradiction.
  - pose proof (deliver_no_origin_write net chunk data) as Hd.
    destruct (deliver net chunk) as [[werr|] evs]; simpl in *.
    + intros [H0|H0]; try discriminate; contradiction.
    + match goal with
      | IH : option error -> list event -> forall _, ~ In _ _ |- _ =>
          specialize (IH None [] data)
      end.
      destruct (relayLoop net src') as [res evs']. simpl in *.
      intros [H0|H0]; [ discriminate | ].
      apply in_app_or in H0 as [H0|H0]; contradiction.
Qed.

Lemma sendRequest_text_set_body rd b targetURL :
  sendRequest_text (set_body rd b) targetURL = sendRequest_text rd targetURL.
Proof. reflexivity. Qed.

(** [ProcessRequest] up to the body: request line and headers read, the
    method neither [GET] nor [HEAD]. *)
Lemma ProcessRequest_with_body (X : Externals) net client rd1 r1 rd2 r2 :
  readRequestLine emptyRequestData client = (None, rd1, r1) ->
  parseHeaders rd1 r1 = (None, rd2, r2) ->
  method rd2 <> "GET" ->
  method rd2 <> "HEAD" ->
  body rd2 = []
  /\ ProcessRequest X net client =
     [EvSetReadDeadline Client (Some (5 * time_Second)%Z);
      EvSetReadDeadline Client None]
     ++ (if decide (final r2 = io_EOF)
         then snd (forwardToDestination X net (set_body rd2 (pending r2)))
         else [])
     ++ [EvClose Client].
Proof.
  intros H1 H2 Hget Hhead.
  assert (Hbody : body rd2 = []).
  { pose proof (parseHeaders_keeps rd1 r1) as (_ & _ & _ & Hb & _).
    rewrite H2 in Hb. simpl in Hb. rewrite Hb.
    apply readRequestLine_keeps in H1 as [_ Hb1]. exact Hb1. }
  split; [ exact Hbody | ].
  unfold ProcessRequest, parseIncomingRequest. rewrite H1, H2.
  unfold readRequestBody.
  destruct (String.eqb_spec (method rd2) "GET") as [|_]; [ contradiction | ].
  destruct (String.eqb_spec (method rd2) "HEAD") as [|_]; [ contradiction | ].
  simpl. rewrite readBodyLoop_drains, Hbody. simpl.
  destruct (decide (final r2 = io_EOF)) as [Heof|Hne].
  - destruct (forwardToDestination X net (set_body rd2 (pending r2)))
      as [err evs]. reflexivity.
  - reflexivity.
Qed.

(** What [forwardToDestination] does once the target parses, the dial
    succeeds and the head is written. *)
Lemma forwardToDestination_events (X : Externals) net rd u dest :
  url_Parse X (targetURL rd) = Ok u ->
  dial net (JoinHostPort (Hostname u)
              (if String.eqb (Port u) "" then "80" else Port u)) = Ok dest ->
  write_error net Origin (list_byte_of_string (sendRequest_text rd u)) = None ->
  exists rest,
    snd (forwardToDestination X net rd) =
    EvDial (JoinHostPort (Hostname u)
              (if String.eqb (Port u) "" then "80" else Port u))
           (Some (10 * time_Second)%Z)
    :: EvWrite Origin (list_byte_of_string (sendRequest_text rd u))
    :: match body rd with
       | [] => rest
       | _ => EvWrite Origin (body rd) :: rest
       end
    /\ forall data, ~ In (EvWrite Origin data) rest.
Proof.
  intros Hu Hd Hw. unfold forwardToDestination, establishConnection.
  rewrite Hu. cbv zeta. rewrite Hd. unfold sendRequest. rewrite Hw.
  destruct (body rd) as [|b bs] eqn:Hb; simpl.
  - destruct (relayResponse net dest) as [err evs] eqn:Hr.
    exists (evs ++ [EvClose Origin]). split; [ reflexivity | ].
    intros data Hin. apply in_app_or in Hin as [Hin|[Hin|[]]];
      [ | discriminate ].
    apply (relayLoop_no_origin_write net dest data).
    unfold relayResponse in Hr. rewrite Hr. exact Hin.
  - destruct (write_error net Origin (b :: bs)) as [werr|].
    + exists [EvClose Origin]. split; [ reflexivity | ].
      intros data [Hin|[]]. discriminate.
    + destruct (relayResponse net dest) as [err evs] eqn:Hr.
      exists (evs ++ [EvClose Origin]). split; [ reflexivity | ].
      intros data Hin. apply in_app_or in Hin as [Hin|[Hin|[]]];
        [ | discriminate ].
      apply (relayLoop_no_origin_write net dest data).
      unfold relayResponse in Hr. rewrite Hr. exact Hin.
Qed.

(** Reading the request writes nothing to the origin. *)
Lemma parseIncomingRequest_no_origin_write rd0 client data :
  ~ In (EvWrite Origin data) (snd (parseIncomingRequest rd0 client)).
Proof.
  unfold parseIncomingRequest.
  destruct (readRequestLine rd0 client) as [[[e1|] rd1] r1];
    [ intros [] | ].
  destruct (parseHeaders rd1 r1) as [[[e2|] rd2] r2]; [ intros [] | ].
  unfold readRequestBody.
  destruct (String.eqb (method rd2) "GET" || String.eqb (method rd2) "HEAD").
  - intros [].
  - destruct (readBodyLoop r2 (body rd2)) as [[[e3|] b3] r3]; simpl;
      intros [H|[H|[]]]; discriminate.
Qed.

(** The only writes of [forwardToDestination] to the origin are the head
    built by [sendRequest] and the body. *)
Lemma forwardToDestination_origin_writes (X : Externals) net rd data :
  In (EvWrite Origin data) (snd (forwardToDestination X net rd)) ->
  (exists u, url_Parse X (targetURL rd) = Ok u /\
             data = list_byte_of_string (sendRequest_text rd u))
  \/ data = body rd.
Proof.
  unfold forwardToDestination, establishConnection.
  destruct (url_Parse X (targetURL rd)) as [u|e]; [ | intros [] ].
  cbv zeta.
  destruct (dial net _) as [dest|e]; [ | intros [H|[]]; discriminate ].
  assert (Hsend : forall d,
             In (EvWrite Origin d) (snd (sendRequest net rd u)) ->
             d = list_byte_of_string (sendRequest_text rd u) \/ d = body rd).
  { intros d. unfold sendRequest.
    destruct (write_error net Origin _); simpl.
    - intros [H|[]]. inversion H. auto.
    - destruct (0 <? length (body rd))%nat; simpl.
      + intros [H|[H|[]]]; inversion H; auto.
      + intros [H|[]]. inversion H. auto. }
  destruct (sendRequest net rd u) as [[e1|] evs1]; simpl in *.
  - intros [H|H]; [ discriminate | ].
    apply in_app_or in H as [H|[H|[]]]; [ | discriminate ].
    destruct (Hsend data H) as [-> | ->]; eauto.
  - destruct (relayResponse net dest) as [e2 evs2] eqn:Hr. simpl.
    intros [H|H]; [ discriminate | ].
    apply in_app_or in H as [H|H].
    + destruct (Hsend data H) as [-> | ->]; eauto.
    + apply in_app_or in H as [H|[H|[]]]; [ | discriminate ].
      exfalso. apply (relayLoop_no_origin_write net dest data).
      unfold relayResponse in Hr. rewrite Hr. exact H.
Qed.

Lemma ProcessRequest_origin_writes (X : Externals) net client data :
  let rd := snd (fst (parseIncomingRequest emptyRequestData client)) in
  In (EvWrite Origin data) (ProcessRequest X net client) ->
  (exists u, url_Parse X (targetURL rd) = Ok u /\
             data = list_byte_of_string (sendRequest_text rd u))
  \/ data = body rd.
Proof.
  intros rd. unfold ProcessRequest. subst rd.
  pose proof (parseIncomingRequest_no_origin_write emptyRequestData client data)
    as Hparse.
  destruct (parseIncomingRequest emptyRequestData client) as [[[e|] rd] evs];
    simpl in *.
  - intros H. apply in_app_or in H as [H|[H|[]]];
      [ contradiction | discriminate ].
  - pose proof (forwardToDestination_origin_writes X net rd data) as Hfw.
    destruct (forwardToDestination X net rd) as [e' evs']. simpl in Hfw.
    intros H. apply in_app_or in H as [H|H]; [ contradiction | ].
    apply in_app_or in H as [H|[H|[]]]; [ auto | discriminate ].
Qed.

Lemma parseInitialRequest_body p e p' :
  parseInitialRequest p = (e, p') -> requestBody p' = requestBody p.
Proof.
  unfold parseInitialRequest, parseRequestLine.
  destruct (ReadString (reader p) newline) as [[line [err|]] r'].
  - intros H; inversion H; reflexivity.
  - destruct (String.eqb (TrimSpace line) "").
    + intros H; inversion H; reflexivity.
    + destruct (SplitN (TrimSpace line) " " 3) as [|c0 [|c1 [|c2 [|? ?]]]];
        intros H; inversion H; reflexivity.
Qed.

(** The only write of [RequestProcessor] to the origin is the head built
    by [sendModifiedRequest]: [requestBody] is never filled. *)
Lemma handleClient_plain_origin_writes (X : Externals) net client evs data :
  handleClient_plain X net client = Some evs ->
  In (EvWrite Origin data) evs ->
  exists p conn,
    data = list_byte_of_string (sendModifiedRequest_text X p conn).
Proof.
  unfold handleClient_plain.
  destruct (parseInitialRequest (newRequestProcessor client)) as [[e|] p1] eqn:Hp.
  - intros H; inversion H; subst. intros [H'|[]]. discriminate.
  - apply parseInitialRequest_body in Hp. simpl in Hp.
    destruct (isTLSConnection p1); [ discriminate | ].
    intros H; inversion H; subst; clear H.
    unfold handlePlainConnection, collectHeaders.
    destruct (collectLoop (reader p1) ∅) as [hdrs r'].
    destruct (url_Parse X (requestTarget (with_reader p1 r'))) as [u|e];
      [ | intros [H|[]]; discriminate ].
    unfold forwardHTTPRequest.
    destruct (dial net _) as [targetConn|e];
      [ | intros [H|[H|[]]]; discriminate ].
    unfold sendModifiedRequest. simpl requestBody. rewrite Hp. simpl.
    match goal with
    | |- context [ sendModifiedRequest_text X ?p ?c ] =>
        set (head := sendModifiedRequest_text X p c);
        assert (Hhead : exists p' c', head = sendModifiedRequest_text X p' c')
          by (exists p, c; reflexivity)
    end.
    clearbody head. destruct Hhead as (p' & c' & ->).
    destruct (write_error net Origin _);
      destruct (relayData net targetConn) as [e2 evs2] eqn:Hr; simpl;
      intros H;
      repeat match type of H with
             | In _ (_ ++ _) => apply in_app_or in H; destruct H as [H|H]
             | In _ (_ :: _) => destruct H as [H|H]
             | _ \/ _ => destruct H as [H|H]
             | In _ [] => destruct H
             | False => destruct H
             end;
      first [ discriminate
            | inversion H; subst; eauto
            | exfalso; apply (relayLoop_no_origin_write net targetConn data);
              unfold relayData in Hr; rewrite Hr; exact H ].
Qed.

(** C8. On both plain paths the head written to the origin is a request
    line, header lines and a blank line, and none of the header lines is
    named Proxy-Connection, whatever the case of its letters: for
    [ConnectionHandler], whatever the client sent; for
    [RequestProcessor], whatever the header map holds and in whatever
    order [range] visits it. Besides its head, a handler writes to the
    origin nothing but the body it read. *)
Theorem Proxy_Connection_never_forwarded
    (X : Externals) net client target p conn :
  let rd := snd (fst (parseIncomingRequest emptyRequestData client)) in
  (sendRequest_text rd target
   = request_text (method rd +:+ " / " +:+ httpVersion rd +:+ CRLF)
                  (sent_headers rd target)
   /\ Forall (fun kv => not_proxy_connection (fst kv))
             (sent_headers rd target)
   /\ forall data,
        In (EvWrite Origin data) (ProcessRequest X net client) ->
        (exists u, url_Parse X (targetURL rd) = Ok u /\
                   data = list_byte_of_string (sendRequest_text rd u))
        \/ data = body rd)
  /\ (sendModifiedRequest_text X p conn
      = request_text (requestMethod p +:+ " " +:+ path conn +:+ " "
                      +:+ protocolVer p +:+ CRLF)
                     (modified_headers X conn)
      /\ Forall (fun kv => not_proxy_connection (fst kv))
                (modified_headers X conn)
      /\ forall evs data,
           handleClient_plain X net client = Some evs ->
           In (EvWrite Origin data) evs ->
           exists p' conn',
             data = list_byte_of_string (sendModifiedRequest_text X p' conn')).
Proof.
  intros rd. split; split; [ | split | | split ].
  - apply sendRequest_text_head.
  - unfold sent_headers. apply Forall_app. split.
    + apply Forall_map. exact (parseIncomingRequest_no_proxy client).
    + destruct (negb (hasHeader rd "Host")); repeat constructor.
  - intros data. apply ProcessRequest_origin_writes.
  - apply sendModifiedRequest_text_head.
  - unfold modified_headers, forwarded_headers. apply Forall_app. split.
    + apply Forall_forall. intros [k v] Hin.
      apply list_elem_of_filter in Hin as [Hk _]. simpl in Hk.
      unfold not_proxy_connection, EqualFold.
      change (ToLower "Proxy-Connection") with "proxy-connection".
      simpl. destruct (String.eqb (ToLower k) "proxy-connection");
        [ discriminate | reflexivity ].
    + destruct (headers_ conn !! "host"); repeat constructor.
  - intros evs data. apply handleClient_plain_origin_writes.
Qed.

(** C9, as amended. On the [ConnectionHandler] path, for a request whose
    method is neither GET nor HEAD, the handler sets a 5-second read
    deadline and reads the body until the read fails. If it fails with
    [io.EOF], the request is forwarded and the bytes read are written to
    the origin right after the head, which ends with the blank line. If
    it fails with anything else, the expiry of the deadline included,
    the handler closes the client connection: nothing is dialled and
    nothing is written to the origin. *)
Theorem body_forwarded_only_on_EOF
    (X : Externals) net client rd1 r1 rd2 r2 :
  readRequestLine emptyRequestData client = (None, rd1, r1) ->
  parseHeaders rd1 r1 = (None, rd2, r2) ->
  method rd2 <> "GET" ->
  method rd2 <> "HEAD" ->
  (final r2 <> io_EOF ->
   ProcessRequest X net client =
   [EvSetReadDeadline Client (Some (5 * time_Second)%Z);
    EvSetReadDeadline Client None;
    EvClose Client])
  /\ (final r2 = io_EOF ->
      forall u dest,
        url_Parse X (targetURL rd2) = Ok u ->
        dial net (JoinHostPort (Hostname u)
                    (if String.eqb (Port u) "" then "80" else Port u))
        = Ok dest ->
        write_error net Origin (list_byte_of_string (sendRequest_text rd2 u))
        = None ->
        exists rest,
          ProcessRequest X net client =
          EvSetReadDeadline Client (Some (5 * time_Second)%Z)
          :: EvSetReadDeadline Client None
          :: EvDial (JoinHostPort (Hostname u)
                       (if String.eqb (Port u) "" then "80" else Port u))
                    (Some (10 * time_Second)%Z)
          :: EvWrite Origin (list_byte_of_string (sendRequest_text rd2 u))
          :: match pending r2 with
             | [] => rest
             | _ => EvWrite Origin (pending r2) :: rest
             end
          /\ sendRequest_text rd2 u
             = request_text (method rd2 +:+ " / " +:+ httpVersion rd2 +:+ CRLF)
                            (sent_headers rd2 u)
          /\ forall data, ~ In (EvWrite Origin data) rest).
Proof.
  intros H1 H2 Hget Hhead.
  destruct (ProcessRequest_with_body X net client _ _ _ _ H1 H2 Hget Hhead)
    as [Hbody Htrace].
  split.
  - intros Hne. rewrite Htrace.
    destruct (decide (final r2 = io_EOF)); [ contradiction | reflexivity ].
  - intros Heof u dest Hu Hd Hw. rewrite Htrace.
    destruct (decide (final r2 = io_EOF)); [ | contradiction ].
    destruct (forwardToDestination_events X net (set_body rd2 (pending r2))
                u dest Hu Hd Hw) as (rest & Hfw & Hrest).
    rewrite Hfw. simpl.
    rewrite sendRequest_text_set_body.
    exists (rest ++ [EvClose Client]).
    split; [ | split ].
    + destruct (pending r2); reflexivity.
    + apply sendRequest_text_head.
    + intros data Hin. apply in_app_or in Hin as [Hin|[Hin|[]]];
        [ exact (Hrest data Hin) | discriminate ].
Qed.

End PlainFacts.

(** A POST whose sender waits for the answer: the deadline expires and
    the handler gives up without contacting the origin. *)
Lemma waiting_client_dropped :
  Plain.ProcessRequest Fixture.lib Fixture.network Fixture.waiting_client =
  [Plain.EvSetReadDeadline Plain.Client (Some (5 * Plain.time_Second)%Z);
   Plain.EvSetReadDeadline Plain.Client None;
   Plain.EvClose Plain.Client]
  /\ Plain.pending (snd Fixture.post_headers) = list_byte_of_string "name=value".
Proof. split; vm_compute; reflexivity. Qed.

(** C9 does not hold: when the deadline expires the request of
    [Fixture.waiting_client] is not forwarded at all. *)
Lemma body_not_forwarded_on_deadline : ~ body_forwarded_on_EOF_or_deadline.
Proof.
  intros H.
  destruct (H Fixture.lib Fixture.network Fixture.waiting_client
              (snd (fst Fixture.post_line)) (snd Fixture.post_line)
              (snd (fst Fixture.post_headers)) (snd Fixture.post_headers)
              (Fixture.http_url "example.test" "/")
              {| Plain.pending := list_byte_of_string "OK";
                 Plain.final := io_EOF |})
    as (pre & post & Htrace & _).
  - vm_compute; reflexivity.
  - vm_compute; reflexivity.
  - vm_compute; discriminate.
  - vm_compute; discriminate.
  - right. vm_compute; reflexivity.
  - vm_compute; reflexivity.
  - reflexivity.
  - reflexivity.
  - destruct waiting_client_dropped as [Hdrop _]. rewrite Hdrop in Htrace.
    assert (Hin : In (Plain.EvWrite Plain.Origin
                        (list_byte_of_string
                           (Plain.sendRequest_text
                              (snd (fst Fixture.post_headers))
                              (Fixture.http_url "example.test" "/"))))
                     [Plain.EvSetReadDeadline Plain.Client
                        (Some (5 * Plain.time_Second)%Z);
                      Plain.EvSetReadDeadline Plain.Client None;
                      Plain.EvClose Plain.Client]).
    { rewrite Htrace. apply in_or_app. right. left. reflexivity. }
    destruct Hin as [Hin|[Hin|[Hin|[]]]]; discriminate.
Qed.

Lemma body_forwarded_only_on_EOF_witness :
  Plain.readRequestLine Plain.emptyRequestData Fixture.waiting_client
  = (None, snd (fst Fixture.post_line), snd Fixture.post_line)
  /\ Plain.parseHeaders (snd (fst Fixture.post_line)) (snd Fixture.post_line)
     = (None, snd (fst Fixture.post_headers), snd Fixture.post_headers)
  /\ Plain.method (snd (fst Fixture.post_headers)) = "POST"
  /\ Plain.ProcessRequest Fixture.lib Fixture.network Fixture.waiting_client =
     [Plain.EvSetReadDeadline Plain.Client (Some (5 * Plain.time_Second)%Z);
      Plain.EvSetReadDeadline Plain.Client None;
      Plain.EvClose Plain.Client].
Proof.
  assert (H1 : Plain.readRequestLine Plain.emptyRequestData
                 Fixture.waiting_client
               = (None, snd (fst Fixture.post_line), snd Fixture.post_line))
    by (vm_compute; reflexivity).
  assert (H2 : Plain.parseHeaders (snd (fst Fixture.post_line))
                 (snd Fixture.post_line)
               = (None, snd (fst Fixture.post_headers),
                  snd Fixture.post_headers))
    by (vm_compute; reflexivity).
  split; [ exact H1 | split; [ exact H2 | split; [ vm_compute; reflexivity | ] ] ].
  apply (proj1 (body_forwarded_only_on_EOF Fixture.lib Fixture.network
                  Fixture.waiting_client _ _ _ _ H1 H2
                  ltac:(vm_compute; discriminate)
                  ltac:(vm_compute; discriminate))).
  vm_compute; discriminate.
Defined.

(** ** Request line and port on the two plain paths *)

Lemma string_app_empty (s t : string) : s +:+ t = "" -> s = "".
Proof. destruct s; [ reflexivity | discriminate ]. Qed.

(** [RequestURI] is never empty, so the [/] of [determinePath] is the [/]
    [RequestURI] itself puts in place of an empty path. *)
Lemma RequestURI_not_empty u : GoNet.RequestURI u <> "".
Proof.
  unfold GoNet.RequestURI.
  assert (Hres : match Opaque u with
                 | "" => match EscapedPath u with "" => "/" | p => p end
                 | opaque =>
                     if GoStrings.HasPrefix opaque "//"
                     then Scheme u +:+ ":" +:+ opaque else opaque
                 end <> "").
  { destruct (Opaque u) as [|a o].
    - destruct (EscapedPath u); discriminate.
    - cbv zeta.
      destruct (GoStrings.HasPrefix (String a o) "//"); [ | discriminate ].
      destruct (Scheme u); discriminate. }
  destruct (ForceQuery u || negb (String.eqb (RawQuery u) "")).
  - intros H. apply string_app_empty in H. contradiction.
  - exact Hres.
Qed.

Lemma determinePath_RequestURI u : Plain.determinePath u = GoNet.RequestURI u.
Proof.
  unfold Plain.determinePath.
  destruct (String.eqb_spec (GoNet.RequestURI u) "") as [He|_];
    [ destruct (RequestURI_not_empty u He) | reflexivity ].
Qed.

(** [RequestProcessor] puts the request-URI in the request line. *)
Lemma handlePlainConnection_request_line (X : Externals) p hdrs targetURL :
  exists hs,
    Plain.sendModifiedRequest_text X p
      {| Plain.host := GoNet.Hostname targetURL;
         Plain.port := Plain.determinePort targetURL;
         Plain.path := Plain.determinePath targetURL;
         Plain.headers_ := hdrs |}
    = Plain.request_text
        (Plain.requestMethod p +:+ " " +:+ GoNet.RequestURI targetURL +:+ " "
         +:+ Plain.protocolVer p +:+ GoStrings.CRLF) hs.
Proof.
  eexists. rewrite sendModifiedRequest_text_head. simpl.
  rewrite determinePath_RequestURI. reflexivity.
Qed.

(** [RequestProcessor] picks the port by scheme. *)
Lemma determinePort_default u :
  GoNet.Port u = "" ->
  Plain.determinePort u = if String.eqb (Scheme u) "https" then "443" else "80".
Proof. intros H. unfold Plain.determinePort. rewrite H. reflexivity. Qed.

(** [ConnectionHandler] dials port 80 whenever the URL has no port,
    whatever the scheme. *)
Lemma establishConnection_default net u :
  GoNet.Port u = "" ->
  snd (Plain.establishConnection net u) =
  [Plain.EvDial (GoNet.JoinHostPort (GoNet.Hostname u) "80")
                (Some (10 * Plain.time_Second)%Z)].
Proof. intros H. unfold Plain.establishConnection. rewrite H. reflexivity. Qed.

(** C6. [ConnectionHandler] on
    [GET http://example.test/index.html HTTP/1.1]: the request-URI of the
    target is [/index.html], the request line written to the origin is
    [GET / HTTP/1.1]. [RequestProcessor] on the same bytes writes
    [GET /index.html HTTP/1.1]. *)
Theorem sendRequest_request_line_drops_path :
  url_Parse Fixture.lib "http://example.test/index.html"
  = Ok (Fixture.http_url "example.test" "/index.html")
  /\ GoNet.RequestURI (Fixture.http_url "example.test" "/index.html")
     = "/index.html"
  /\ Plain.ProcessRequest Fixture.lib Fixture.network
       (Fixture.client Fixture.get_index io_EOF)
     = [Plain.EvDial "example.test:80" (Some (10 * Plain.time_Second)%Z);
        Plain.EvWrite Plain.Origin
          (list_byte_of_string
             ("GET / HTTP/1.1" +:+ GoStrings.CRLF
              +:+ "Host: example.test" +:+ GoStrings.CRLF +:+ GoStrings.CRLF));
        Plain.EvSetReadDeadline Plain.Origin (Some (5 * Plain.time_Second)%Z);
        Plain.EvWrite Plain.Client (list_byte_of_string "OK");
        Plain.EvSetReadDeadline Plain.Origin (Some (5 * Plain.time_Second)%Z);
        Plain.EvClose Plain.Origin;
        Plain.EvClose Plain.Client]
  /\ Plain.handleClient_plain Fixture.lib Fixture.network
       (Fixture.client Fixture.get_index io_EOF)
     = Some
       [Plain.EvDial "example.test:80" None;
        Plain.EvWrite Plain.Origin
          (list_byte_of_string
             ("GET /index.html HTTP/1.1" +:+ GoStrings.CRLF
              +:+ "host: example.test" +:+ GoStrings.CRLF +:+ GoStrings.CRLF));
        Plain.EvSetReadDeadline Plain.Origin (Some (5 * Plain.time_Second)%Z);
        Plain.EvWrite Plain.Client (list_byte_of_string "OK");
        Plain.EvSetReadDeadline Plain.Origin (Some (5 * Plain.time_Second)%Z);
        Plain.EvClose Plain.Origin;
        Plain.EvClose Plain.Client].
Proof. repeat split; vm_compute; reflexivity. Qed.

(** C7. [ConnectionHandler] on [GET https://example.test/ HTTP/1.1]: the
    target has scheme [https] and no port, the origin is dialled at
    [example.test:80]. [RequestProcessor] on the same bytes dials
    [example.test:443]. *)
Theorem establishConnection_dials_80_for_https :
  url_Parse Fixture.lib "https://example.test/"
  = Ok (Fixture.https_url "example.test" "/")
  /\ GoNet.Port (Fixture.https_url "example.test" "/") = ""
  /\ Plain.ProcessRequest Fixture.lib Fixture.network
       (Fixture.client Fixture.get_https io_EOF)
     = [Plain.EvDial "example.test:80" (Some (10 * Plain.time_Second)%Z);
        Plain.EvWrite Plain.Origin
          (list_byte_of_string
             ("GET / HTTP/1.1" +:+ GoStrings.CRLF
              +:+ "Host: example.test" +:+ GoStrings.CRLF +:+ GoStrings.CRLF));
        Plain.EvSetReadDeadline Plain.Origin (Some (5 * Plain.time_Second)%Z);
        Plain.EvWrite Plain.Client (list_byte_of_string "OK");
        Plain.EvSetReadDeadline Plain.Origin (Some (5 * Plain.time_Second)%Z);
        Plain.EvClose Plain.Origin;
        Plain.EvClose Plain.Client]
  /\ Plain.handleClient_plain Fixture.lib Fixture.network
       (Fixture.client Fixture.get_https io_EOF)
     = Some
       [Plain.EvDial "example.test:443" None;
        Plain.EvWrite Plain.Origin
          (list_byte_of_string
             ("GET / HTTP/1.1" +:+ GoStrings.CRLF
              +:+ "host: example.test" +:+ GoStrings.CRLF +:+ GoStrings.CRLF));
        Plain.EvSetReadDeadline Plain.Origin (Some (5 * Plain.time_Second)%Z);
        Plain.EvWrite Plain.Client (list_byte_of_string "OK");
        Plain.EvSetReadDeadline Plain.Origin (Some (5 * Plain.time_Second)%Z);
        Plain.EvClose Plain.Origin;
        Plain.EvClose Plain.Client].
Proof. repeat split; vm_compute; reflexivity. Qed.

(** [RequestProcessor] never fills [requestBody]: on the request of
    [Fixture.post_form], sent by a client that then closes, the head is
    forwarded and the body [name=value] is not. *)
Lemma RequestProcessor_forwards_no_body :
  Plain.handleClient_plain Fixture.lib Fixture.network
    (Fixture.client Fixture.post_form io_EOF)
  = Some
    [Plain.EvDial "example.test:80" None;
     Plain.EvWrite Plain.Origin
       (list_byte_of_string
          ("POST / HTTP/1.1" +:+ GoStrings.CRLF
           +:+ "host: example.test" +:+ GoStrings.CRLF +:+ GoStrings.CRLF));
     Plain.EvSetReadDeadline Plain.Origin (Some (5 * Plain.time_Second)%Z);
     Plain.EvWrite Plain.Client (list_byte_of_string "OK");
     Plain.EvSetReadDeadline Plain.Origin (Some (5 * Plain.time_Second)%Z);
     Plain.EvClose Plain.Origin;
     Plain.EvClose Plain.Client].
Proof. vm_compute; reflexivity. Qed.

(** * Further properties *)

(** After [funelim]: drop the equations between dependent pairs. *)
Ltac drop_pairs :=
  repeat match goal with
         | H : @eq (sigma _) _ _ |- _ => clear H
         end.

(** ** The leaf certificate store *)
Section MintMore.
Context (X : Externals).
Import Mint.

Local Open Scope Z_scope.

(** X1. A store whose generator lacks the root certificate or the root
    key refuses every hostname it has not cached: the call fails with
    "not initialised" before any key is generated or entropy drawn, and
    leaves the store and the run-time state as they were. The store
    [NewCertificateStore] builds is such a store. *)
Theorem uninitialised_generator_never_mints s hostname rt :
  rootCert (generator s) = None \/ rootKey (generator s) = None ->
  cache s !! hostname = None ->
  GetOrCreateCertificate X s hostname rt
  = (Err (ErrGenerate ErrNotInitialized), s, rt).
Proof.
  intros Hroot Hmiss.
  unfold GetOrCreateCertificate, createAndStoreCertificate. rewrite Hmiss.
  unfold generateCertificate, validateConfiguration.
  destruct Hroot as [-> | Hkey].
  - reflexivity.
  - rewrite Hkey. destruct (rootCert (generator s)); reflexivity.
Qed.

(** X2. A failed call caches nothing: the store is the one passed in, no
    bundle has been allocated, the hostname is still absent, and the
    error is the generator's, wrapped. *)
Theorem failed_mint_not_cached s hostname rt e s1 rt1 :
  GetOrCreateCertificate X s hostname rt = (Err e, s1, rt1) ->
  s1 = s /\ heap rt1 = heap rt /\ cache s !! hostname = None
  /\ exists cause, e = ErrGenerate cause.
Proof.
  unfold GetOrCreateCertificate, createAndStoreCertificate.
  destruct (cache s !! hostname) as [p|]; [ discriminate | ].
  destruct (generateCertificate X (generator s) hostname rt) as [[p|e'] rt'] eqn:Hg;
    [ discriminate | ].
  apply generateCertificate_heap in Hg.
  intros H; inversion H; subst. eauto.
Qed.

(** X3. Minting succeeds whenever it can: with the CA in place, a key
    generated, eight bytes of entropy left for the serial and the signing
    and pairing calls successful, the call for an uncached hostname
    returns the first free address, caches it under the hostname, and
    allocates one bundle; the serial takes exactly eight bytes. *)
Theorem mint_succeeds s hostname rt parent signer key reader :
  cache s !! hostname = None ->
  rootCert (generator s) = Some parent ->
  rootKey (generator s) = Some signer ->
  rsa_GenerateKey X (rand_Reader rt) (keySize (generator s)) = (Ok key, reader) ->
  (8 <= length reader)%nat ->
  (forall template, exists der bundle,
      x509_CreateCertificate X template parent (PublicKey key) signer = Ok der /\
      tls_X509KeyPair X
        (pem_EncodeToMemory X {| Type_ := "CERTIFICATE"; Bytes := der |})
        (pem_EncodeToMemory X
           {| Type_ := "RSA PRIVATE KEY";
              Bytes := x509_MarshalPKCS1PrivateKey X key |}) = Ok bundle) ->
  exists bundle,
    GetOrCreateCertificate X s hostname rt
    = (Ok (length (heap rt)),
       {| cache := <[hostname := length (heap rt)]> (cache s);
          generator := generator s |},
       {| heap := heap rt ++ [bundle];
          rand_Reader := drop 8 reader;
          now := now rt |}).
Proof.
  intros Hmiss Hcert Hkey Hgen Hlen Hlib.
  unfold GetOrCreateCertificate, createAndStoreCertificate. rewrite Hmiss.
  unfold generateCertificate, validateConfiguration. rewrite Hcert, Hkey.
  unfold generatePrivateKey. rewrite Hgen.
  unfold createCertificateTemplate. simpl rand_Reader.
  destruct (rand_Int_serial_succeeds reader Hlen) as [n Hn]. rewrite Hn.
  unfold createTLSCertificate. rewrite Hcert, Hkey.
  match goal with
  | |- context [ x509_CreateCertificate X ?t parent (PublicKey key) signer ] =>
      destruct (Hlib t) as (der & bundle & Hder & Hpair)
  end.
  rewrite Hder, Hpair. exists bundle. reflexivity.
Qed.

Lemma GetOrCreateCertificate_one_bundle s hostname rt r s1 rt1 :
  Invariant.one_bundle_per_hostname s rt ->
  GetOrCreateCertificate X s hostname rt = (r, s1, rt1) ->
  Invariant.one_bundle_per_hostname s1 rt1.
Proof.
  intros [Hok Hsize] H. split.
  - eapply GetOrCreateCertificate_store_ok; eassumption.
  - apply GetOrCreateCertificate_cases in H.
    destruct H as [(p & Hc & -> & -> & ->) | [(Hc & e & -> & -> & Hh)
                                            | (Hc & c & -> & -> & Hh)]].
    + exact Hsize.
    + rewrite Hh. exact Hsize.
    + rewrite Hh, length_app. simpl.
      rewrite map_size_insert_None by exact Hc. lia.
Qed.

(** X4. One bundle per hostname: from a store with as many bundles as
    cached hostnames (an empty one, say), any run of calls, failed ones
    included, leads to a store with as many bundles as cached hostnames,
    where every cached pointer is allocated and no two hostnames share a
    bundle. *)
Theorem calls_one_bundle_per_hostname hostnames s rt s2 rt2 :
  Invariant.one_bundle_per_hostname s rt ->
  calls X hostnames s rt = (s2, rt2) ->
  Invariant.one_bundle_per_hostname s2 rt2.
Proof.
  revert s rt. induction hostnames as [|h hs IH]; intros s rt Hinv; simpl.
  - intros H; inversion H; subst. exact Hinv.
  - destruct (GetOrCreateCertificate X s h rt) as [[r s'] rt'] eqn:Hcall.
    apply IH. eapply GetOrCreateCertificate_one_bundle; eassumption.
Qed.

Lemma int64_small z : - 2 ^ 63 <= z < 2 ^ 63 -> int64 z = z.
Proof.
  intros Hz. unfold int64.
  rewrite Z.mod_small by lia. lia.
Qed.

(** X5. For a validity of 0 to 106751 days (beyond, the [time.Duration]
    overflows), the template is valid from one hour before the call to
    that many days after it, so the window contains the time of the
    call. *)
Theorem template_validity_window g hostname rt template rt' :
  0 <= validityDays g <= 106751 ->
  createCertificateTemplate g hostname rt = (Ok template, rt') ->
  NotBefore template = now rt - 3600000000000
  /\ NotAfter template = now rt + validityDays g * 86400000000000
  /\ NotBefore template < now rt <= NotAfter template.
Proof.
  intros Hdays. unfold createCertificateTemplate.
  destruct (rand_Int (rand_Reader rt) (Z.shiftl 1 62)) as [[n|e] rd];
    [ | discriminate ].
  intros H; inversion H; subst; simpl.
  change time_Hour with 3600000000000.
  rewrite (int64_small (validityDays g)) by lia.
  rewrite (int64_small (validityDays g * 24)) by lia.
  rewrite (int64_small (validityDays g * 24 * 3600000000000)) by lia.
  lia.
Qed.

End MintMore.

Lemma uninitialised_generator_never_mints_witness :
  Mint.GetOrCreateCertificate Fixture.lib Mint.defaultStore "example.test"
    Fixture.runtime
  = (Err (ErrGenerate ErrNotInitialized), Mint.defaultStore, Fixture.runtime).
Proof.
  apply (uninitialised_generator_never_mints Fixture.lib Mint.defaultStore
           "example.test" Fixture.runtime).
  - left. reflexivity.
  - reflexivity.
Defined.

Lemma failed_mint_not_cached_witness :
  Mint.GetOrCreateCertificate Fixture.lib Fixture.store "example.test"
    Samples.dry_runtime
  = (Err (ErrGenerate (ErrRSAKey (LibraryError "rsa.GenerateKey"))),
     Fixture.store, Samples.dry_runtime)
  /\ Mint.cache Fixture.store !! "example.test" = None.
Proof.
  assert (H : Mint.GetOrCreateCertificate Fixture.lib Fixture.store
                "example.test" Samples.dry_runtime
              = (Err (ErrGenerate (ErrRSAKey (LibraryError "rsa.GenerateKey"))),
                 Fixture.store, Samples.dry_runtime))
    by (vm_compute; reflexivity).
  split; [ exact H | ].
  apply (failed_mint_not_cached Fixture.lib _ _ _ _ _ _ H).
Defined.

Lemma mint_succeeds_witness :
  exists bundle,
    Mint.GetOrCreateCertificate Fixture.lib Fixture.store "Example.test"
      Fixture.runtime
    = (Ok (length (Mint.heap Fixture.runtime)),
       {| Mint.cache :=
            <[ "Example.test" := length (Mint.heap Fixture.runtime) ]>
              (Mint.cache Fixture.store);
          Mint.generator := Mint.generator Fixture.store |},
       {| Mint.heap := Mint.heap Fixture.runtime ++ [bundle];
          Mint.rand_Reader :=
            drop 8 (drop 1 (Mint.rand_Reader Fixture.runtime));
          Mint.now := Mint.now Fixture.runtime |}).
Proof.
  apply (mint_succeeds Fixture.lib Fixture.store "Example.test"
           Fixture.runtime Fixture.ca_certificate Fixture.ca_private_key
           {| PublicKey := {| N := 1; E := 3 |}; D := 7 |}).
  - reflexivity.
  - reflexivity.
  - reflexivity.
  - reflexivity.
  - vm_compute. lia.
  - intros template. eexists. eexists. split; reflexivity.
Defined.

Lemma calls_one_bundle_per_hostname_witness :
  Invariant.one_bundle_per_hostname (fst Samples.three_calls)
    (snd Samples.three_calls)
  /\ size (Mint.cache (fst Samples.three_calls)) = 2.
Proof.
  split; [ | vm_compute; reflexivity ].
  apply (calls_one_bundle_per_hostname Fixture.lib
           ["Example.test"; "example.test"; "Example.test"]
           Fixture.store Fixture.runtime).
  - split; [ apply store_ok_empty | reflexivity ].
  - unfold Samples.three_calls.
    destruct (Mint.calls Fixture.lib _ Fixture.store Fixture.runtime).
    reflexivity.
Defined.

Lemma template_validity_window_witness :
  Mint.createCertificateTemplate (Mint.generator Fixture.store)
    "example.test" Fixture.runtime
  = (Ok SampleTemplate.template, SampleTemplate.runtime_after)
  /\ (NotBefore SampleTemplate.template
      = Mint.now Fixture.runtime - 3600000000000
      /\ NotAfter SampleTemplate.template
         = Mint.now Fixture.runtime
           + Mint.validityDays (Mint.generator Fixture.store) * 86400000000000
      /\ NotBefore SampleTemplate.template < Mint.now Fixture.runtime
         <= NotAfter SampleTemplate.template)%Z.
Proof.
  assert (H : Mint.createCertificateTemplate (Mint.generator Fixture.store)
                "example.test" Fixture.runtime
              = (Ok SampleTemplate.template, SampleTemplate.runtime_after))
    by (vm_compute; reflexivity).
  split; [ exact H | ].
  apply (template_validity_window (Mint.generator Fixture.store)
           "example.test" Fixture.runtime _ _
           ltac:(vm_compute; split; discriminate) H).
Defined.

(** ** The CA loader *)
Section LoaderMore.
Context (X : Externals).
Import CA.

(** X6. The manager never holds half a pair: if it holds a certificate
    and a key or neither before [LoadCA], it does so after, whether the
    load failed or not; after a successful load it holds both. *)
Theorem LoadCA_keeps_pairing certPath keyPath cm err cm' :
  Invariant.paired cm ->
  LoadCA X certPath keyPath cm = (err, cm') ->
  Invariant.paired cm'
  /\ (err = None ->
      is_Some (rootCertificate cm') /\ is_Some (privateKey cm')).
Proof.
  intros Hpair. unfold LoadCA, InitializeCertificateAuthority.
  destruct (loadCertificateFiles X certPath keyPath) as [[certData keyData]|e].
  - unfold processCertificateData.
    destruct (parseCertificateBlock X certData) as [cert|e1].
    + destruct (parsePrivateKeyBlock X keyData) as [key|e2].
      * intros H; inversion H; subst. split.
        -- unfold Invariant.paired. simpl. split; eauto.
        -- intros _. simpl. eauto.
      * intros H; inversion H; subst.
        split; [ exact Hpair | discriminate ].
    + intros H; inversion H; subst. split; [ exact Hpair | discriminate ].
  - intros H; inversion H; subst. split; [ exact Hpair | discriminate ].
Qed.

(** X7. An unreadable key file is reported as such, with its path and
    the cause, as soon as the certificate file has been read: both files
    are read before either is decoded, so the report does not depend on
    what the certificate file holds, and the manager is untouched. *)
Theorem LoadCA_reports_unreadable_key certPath keyPath cm cause :
  unreadable_or_empty X certPath = false ->
  os_ReadFile X keyPath = Err cause ->
  LoadCA X certPath keyPath cm
  = (Some (ErrLoadFiles (ErrCannotReadKey (ErrReadFile keyPath cause))), cm).
Proof.
  unfold unreadable_or_empty, LoadCA, InitializeCertificateAuthority,
    loadCertificateFiles, readSecureFile.
  destruct (os_ReadFile X certPath) as [content|e]; [ | discriminate ].
  intros Hne Hkey. rewrite Hne, Hkey. reflexivity.
Qed.

(** X8. With both files readable and not empty, the certificate is
    decoded first: whenever [parseCertificateBlock] rejects the
    certificate bytes, that error is the one returned, wrapped, whatever
    the key file holds. *)
Theorem LoadCA_reports_certificate_first certPath keyPath cm
    certData keyData err :
  os_ReadFile X certPath = Ok certData -> certData <> [] ->
  os_ReadFile X keyPath = Ok keyData -> keyData <> [] ->
  parseCertificateBlock X certData = Err err ->
  LoadCA X certPath keyPath cm = (Some (ErrProcessData err), cm).
Proof.
  intros Hc Hcn Hk Hkn Hparse.
  unfold LoadCA, InitializeCertificateAuthority, loadCertificateFiles,
    readSecureFile, processCertificateData.
  rewrite Hc, Hk.
  destruct certData; [ contradiction | ].
  destruct keyData; [ contradiction | ].
  simpl. rewrite Hparse. reflexivity.
Qed.

End LoaderMore.

Lemma LoadCA_keeps_pairing_witness :
  Invariant.paired CA.certManager
  /\ Invariant.paired
       (snd (CA.LoadCA Fixture.lib "ca.crt" "ca.key" CA.certManager)).
Proof.
  assert (H : Invariant.paired CA.certManager).
  { split; intros [x Hx]; discriminate. }
  split; [ exact H | ].
  destruct (CA.LoadCA Fixture.lib "ca.crt" "ca.key" CA.certManager)
    as [err cm'] eqn:Hload.
  exact (proj1 (LoadCA_keeps_pairing Fixture.lib "ca.crt" "ca.key"
                  CA.certManager err cm' H Hload)).
Defined.

Lemma LoadCA_reports_unreadable_key_witness :
  CA.LoadCA Fixture.lib "trailing.crt" "missing.key" CA.certManager
  = (Some (ErrLoadFiles (ErrCannotReadKey
             (ErrReadFile "missing.key" (LibraryError "os.ReadFile")))),
     CA.certManager).
Proof.
  apply (LoadCA_reports_unreadable_key Fixture.lib "trailing.crt"
           "missing.key"); reflexivity.
Defined.

Lemma LoadCA_reports_certificate_first_witness :
  CA.LoadCA Fixture.lib "trailing.crt" "ca.crt" CA.certManager
  = (Some (ErrProcessData ErrPEMFormatCert), CA.certManager).
Proof.
  apply (LoadCA_reports_certificate_first Fixture.lib "trailing.crt" "ca.crt"
           CA.certManager Fixture.trailing_crt Fixture.ca_crt);
    try reflexivity; discriminate.
Defined.

(** ** Relaying the response *)
Section RelayMore.
Import GoStrings GoNet Plain Trace.

Lemma client_bytes_app evs1 evs2 :
  client_bytes (evs1 ++ evs2) = client_bytes evs1 ++ client_bytes evs2.
Proof. unfold client_bytes. apply flat_map_app. Qed.

Lemma take_bufferSize_bounds (l : list byte) :
  l <> [] -> (0 < length (take bufferSize l) <= bufferSize)%nat.
Proof.
  intros Hl. rewrite length_take. destruct l; [ contradiction | ].
  assert (0 < bufferSize)%nat by (apply Nat.ltb_lt; vm_compute; reflexivity).
  simpl length. lia.
Qed.

(** Every step of the relay is a deadline on the origin or a write to
    the client, and what is written is a prefix of the response. *)
Lemma relayLoop_steps net src :
  exists rest,
    pending src = client_bytes (snd (relayLoop net src)) ++ rest
    /\ Forall relay_step (snd (relayLoop net src))
    /\ (fst (relayLoop net src) = None -> rest = [] /\ final src = io_EOF).
Proof.
  funelim (relayLoop net src); drop_pairs; try clear Heqcall.
  - match goal with H : Read _ _ = _ |- _ =>
      apply Read_none in H as (Hp & -> & -> & ->) end.
    exists []. unfold deliver. simpl. rewrite Hp.
    split; [ reflexivity | split ].
    + constructor; [ reflexivity | constructor ].
    + destruct (decide (final src = io_EOF)); [ auto | discriminate ].
  - match goal with H : Read _ _ = _ |- _ =>
      apply Read_some in H as (Hp & -> & ->) end.
    pose proof (take_bufferSize_bounds _ Hp) as Hb.
    unfold deliver.
    replace (0 <? length (take bufferSize (pending src)))%nat with true
      by (symmetry; apply Nat.ltb_lt; lia).
    destruct (write_error net Client (take bufferSize (pending src))) as [werr|].
    + exists (drop bufferSize (pending src)). simpl.
      rewrite app_nil_r, take_drop.
      split; [ reflexivity | split; [ | discriminate ] ].
      constructor; [ reflexivity | ].
      constructor; [ simpl; lia | constructor ].
    + match goal with
      | IH : option error -> list event -> exists _, _ |- _ =>
          destruct (IH None []) as (rest & Hrest & Hsteps & Hnil)
      end.
      simpl in Hrest.
      destruct (relayLoop net {| pending := drop bufferSize (pending src);
                                 final := final src |}) as [res evs'].
      simpl in *. exists rest.
      split; [ | split ].
      * rewrite <- app_assoc, <- Hrest, take_drop. reflexivity.
      * constructor; [ reflexivity | ]. constructor; [ simpl; lia | exact Hsteps ].
      * exact Hnil.
Qed.


(** X10. When every write to the client succeeds, the relay is complete:
    the bytes written to the client are the origin's response, all of
    it, and the result is [nil] if the origin ended with [io.EOF] and
    the origin's read error otherwise (an expired deadline, say). *)
Theorem relay_complete net src :
  (forall data, write_error net Client data = None) ->
  client_bytes (snd (relayLoop net src)) = pending src
  /\ fst (relayLoop net src)
     = if decide (final src = io_EOF) then None else Some (final src).
Proof.
  intros Hw. funelim (relayLoop net src); drop_pairs; try clear Heqcall.
  - match goal with H : Read _ _ = _ |- _ =>
      apply Read_none in H as (Hp & -> & -> & ->) end.
    unfold deliver. simpl. rewrite Hp. split; reflexivity.
  - match goal with H : Read _ _ = _ |- _ =>
      apply Read_some in H as (Hp & -> & ->) end.
    pose proof (take_bufferSize_bounds _ Hp) as Hb.
    unfold deliver.
    replace (0 <? length (take bufferSize (pending src)))%nat with true
      by (symmetry; apply Nat.ltb_lt; lia).
    rewrite Hw.
    match goal with
    | IH : option error -> list event -> _ -> _ /\ _ |- _ =>
        destruct (IH None [] Hw) as (Hbytes & Hres)
    end.
    simpl in Hbytes, Hres.
    destruct (relayLoop net {| pending := drop bufferSize (pending src);
                               final := final src |}) as [res evs'].
    simpl in *. split.
    + rewrite Hbytes, take_drop. reflexivity.
    + exact Hres.
Qed.

End RelayMore.

Lemma relay_complete_witness :
  Trace.client_bytes
    (snd (Plain.relayLoop Fixture.network
            (Fixture.client "OK" io_EOF)))
  = list_byte_of_string "OK"
  /\ fst (Plain.relayLoop Fixture.network (Fixture.client "OK" io_EOF)) = None.
Proof.
  apply (relay_complete Fixture.network (Fixture.client "OK" io_EOF)).
  reflexivity.
Defined.

(** ** The shape of a connection *)
Section ShapeMore.
Context (X : Externals) (net : Plain.Network).
Import GoStrings GoNet Plain Trace.

Lemma relay_in_session src : Forall in_session (snd (relayLoop net src)).
Proof.
  destruct (relayLoop_steps net src) as (rest & _ & Hsteps & _).
  eapply Forall_impl; [ exact Hsteps | ].
  intros [c d|a t|c data|c]; simpl; try contradiction.
  - destruct c; [ contradiction | ]. destruct d; auto.
  - auto.
Qed.

Lemma parseIncomingRequest_before_dial rd0 client :
  Forall before_dial (snd (parseIncomingRequest rd0 client)).
Proof.
  unfold parseIncomingRequest.
  destruct (readRequestLine rd0 client) as [[[e1|] rd1] r1]; [ constructor | ].
  destruct (parseHeaders rd1 r1) as [[[e2|] rd2] r2]; [ constructor | ].
  unfold readRequestBody.
  destruct (String.eqb (method rd2) "GET" || String.eqb (method rd2) "HEAD").
  - constructor.
  - destruct (readBodyLoop r2 (body rd2)) as [[[e3|] b3] r3]; simpl;
      repeat constructor.
Qed.

Lemma sendRequest_in_session rd u :
  Forall in_session (snd (sendRequest net rd u)).
Proof.
  unfold sendRequest.
  destruct (write_error net Origin _); simpl; [ repeat constructor | ].
  destruct (0 <? length (body rd))%nat; simpl; repeat constructor.
Qed.

(** X11. Every connection [ProcessRequest] handles has the same shape,
    whatever the client sends and however the network behaves: before
    dialling it only sets or clears the client's read deadline; it dials
    at most once, with a 10-second timeout; everything it writes, to the
    origin or to the client, lies between a successful dial and the
    close of the origin; an origin that was reached is closed exactly
    once; and the client is closed exactly once, last. *)
Theorem ProcessRequest_well_bracketed client :
  well_bracketed net (Some (10 * time_Second)%Z) (ProcessRequest X net client).
Proof.
  unfold ProcessRequest, well_bracketed.
  pose proof (parseIncomingRequest_before_dial emptyRequestData client) as Hpre.
  destruct (parseIncomingRequest emptyRequestData client) as [[[e|] rd] pre];
    simpl in Hpre; exists pre; (split; [ exact Hpre | ]).
  - left. reflexivity.
  - unfold forwardToDestination, establishConnection.
    destruct (url_Parse X (targetURL rd)) as [u|e].
    + cbv zeta.
      destruct (dial net _) as [dest|e] eqn:Hdial.
      * right; right.
        pose proof (sendRequest_in_session rd u) as Hsend.
        destruct (sendRequest net rd u) as [[e1|] evs1]; simpl in Hsend.
        -- eexists _, dest, evs1.
           split; [ exact Hdial | split; [ exact Hsend | ] ].
           simpl. rewrite <- !app_assoc. reflexivity.
        -- pose proof (relay_in_session dest) as Hrelay.
           unfold relayResponse.
           destruct (relayLoop net dest) as [e2 evs2]. simpl in Hrelay.
           eexists _, dest, (evs1 ++ evs2).
           split; [ exact Hdial | split ].
           ++ apply Forall_app. split; assumption.
           ++ simpl. rewrite <- !app_assoc. reflexivity.
      * right; left. eexists _, e. split; [ exact Hdial | reflexivity ].
    + left. simpl. reflexivity.
Qed.


Lemma string_app_not_empty_r (s t : string) : t <> "" -> s +:+ t <> "".
Proof.
  intros Ht H. destruct s; [ exact (Ht H) | discriminate ].
Qed.

Lemma list_byte_of_string_nil (s : string) :
  list_byte_of_string s = [] -> s = "".
Proof.
  intros H. rewrite <- (string_of_list_byte_of_string s), H. reflexivity.
Qed.

Lemma sendRequest_text_not_empty rd u : sendRequest_text rd u <> "".
Proof.
  unfold sendRequest_text.
  repeat apply string_app_not_empty_r. discriminate.
Qed.

(** X13. For a GET or a HEAD, [ProcessRequest] reads nothing past the
    blank line: no read deadline is set, the body stays empty, and the
    trace is that of forwarding the head alone, so bytes the client sent
    after the head are neither read nor forwarded. *)
Theorem GET_and_HEAD_read_no_body client rd1 r1 rd2 r2 :
  readRequestLine emptyRequestData client = (None, rd1, r1) ->
  parseHeaders rd1 r1 = (None, rd2, r2) ->
  method rd2 = "GET" \/ method rd2 = "HEAD" ->
  body rd2 = []
  /\ ProcessRequest X net client
     = snd (forwardToDestination X net rd2) ++ [EvClose Client]
  /\ forall data,
       In (EvWrite Origin data) (ProcessRequest X net client) ->
       exists u, url_Parse X (targetURL rd2) = Ok u /\
                 data = list_byte_of_string (sendRequest_text rd2 u).
Proof.
  intros H1 H2 Hm.
  assert (Hbody : body rd2 = []).
  { pose proof (parseHeaders_keeps rd1 r1) as (_ & _ & _ & Hb & _).
    rewrite H2 in Hb. simpl in Hb. rewrite Hb.
    apply readRequestLine_keeps in H1 as [_ Hb1]. exact Hb1. }
  assert (Htrace : ProcessRequest X net client
                   = snd (forwardToDestination X net rd2) ++ [EvClose Client]).
  { unfold ProcessRequest, parseIncomingRequest. rewrite H1, H2.
    unfold readRequestBody.
    replace (String.eqb (method rd2) "GET" || String.eqb (method rd2) "HEAD")
      with true by (destruct Hm as [-> | ->]; reflexivity).
    destruct (forwardToDestination X net rd2) as [e evs]. reflexivity. }
  split; [ exact Hbody | split; [ exact Htrace | ] ].
  intros data Hin. rewrite Htrace in Hin.
  apply in_app_or in Hin as [Hin|[Hin|[]]]; [ | discriminate ].
  destruct (forwardToDestination_origin_writes X net rd2 data Hin)
    as [Hhead | ->]; [ exact Hhead | ].
  exfalso. rewrite Hbody in Hin.
  unfold forwardToDestination, establishConnection in Hin.
  destruct (url_Parse X (targetURL rd2)) as [u|e]; [ | destruct Hin ].
  cbv zeta in Hin.
  destruct (dial net _) as [dest|e]; [ | destruct Hin as [H|[]]; discriminate ].
  pose proof (sendRequest_text_not_empty rd2 u) as Hne.
  unfold sendRequest in Hin. rewrite Hbody in Hin. simpl in Hin.
  destruct (write_error net Origin _); simpl in Hin.
  - destruct Hin as [H|[H|[H|[]]]]; try discriminate.
    inversion H as [Hd]. apply Hne, list_byte_of_string_nil, Hd.
  - destruct (relayResponse net dest) as [e2 evs2] eqn:Hr. simpl in Hin.
    destruct Hin as [H|[H|H]]; try discriminate.
    + inversion H as [Hd]. apply Hne, list_byte_of_string_nil, Hd.
    + apply in_app_or in H as [H|[H|[]]]; [ | discriminate ].
      apply (relayLoop_no_origin_write net dest []).
      unfold relayResponse in Hr. rewrite Hr. exact H.
Qed.

End ShapeMore.

(** ** Headers *)
Section HeadersMore.
Context (X : Externals).
Import GoStrings GoNet Plain Headers.

(** [hasHeader] is the search it is meant to be: it answers yes exactly
    when one of the stored headers has the name asked for, letter case
    apart. *)
Lemma hasHeader_spec rd n :
  hasHeader rd n = true
  <-> exists header, In header (headers rd) /\ EqualFold (name header) n = true.
Proof.
  unfold hasHeader, EqualFold. rewrite existsb_exists. reflexivity.
Qed.

(** X14. The head [sendRequest] writes always carries a Host header, and
    the handler adds one only when the client sent none. If one of the
    stored headers is named Host, in any letter case, the head is the
    request line, the stored headers as they are, and the blank line.
    If none is, the head is the request line, the stored headers, the
    line [Host:] with the authority of the target URL, port included,
    and the blank line. Either way the head is a request line and a list
    of headers one of which is named Host. (No letter outside ASCII
    folds to one of h, o, s, t, so the comparison with Host is Go's on
    every name.) *)
Theorem sendRequest_always_sends_Host rd u :
  ((exists header,
       In header (headers rd) /\ EqualFold (name header) "Host" = true) ->
   sendRequest_text rd u
   = request_text (method rd +:+ " / " +:+ httpVersion rd +:+ CRLF)
       (map (fun header => (name header, value header)) (headers rd)))
  /\ ((forall header,
         In header (headers rd) -> EqualFold (name header) "Host" = false) ->
      sendRequest_text rd u
      = request_text (method rd +:+ " / " +:+ httpVersion rd +:+ CRLF)
          (map (fun header => (name header, value header)) (headers rd)
           ++ [("Host", Host u)]))
  /\ (exists hs,
        sendRequest_text rd u
        = request_text (method rd +:+ " / " +:+ httpVersion rd +:+ CRLF) hs
        /\ exists n v, In (n, v) hs /\ EqualFold n "Host" = true).
Proof.
  rewrite sendRequest_text_head. unfold sent_headers.
  split; [ | split ].
  - intros Hsome. apply hasHeader_spec in Hsome. rewrite Hsome. simpl.
    rewrite app_nil_r. reflexivity.
  - intros Hnone.
    destruct (hasHeader rd "Host") eqn:Hhas; [ | reflexivity ].
    apply hasHeader_spec in Hhas as (header & Hin & Hname).
    rewrite (Hnone header Hin) in Hname. discriminate.
  - eexists. split; [ reflexivity | ].
    destruct (hasHeader rd "Host") eqn:Hhas; simpl.
    + apply hasHeader_spec in Hhas as (header & Hin & Hname).
      exists (name header), (value header). split; [ | exact Hname ].
      apply in_or_app. left.
      apply (in_map (fun header => (name header, value header))) in Hin.
      exact Hin.
    + exists "Host", (Host u). split; [ | reflexivity ].
      apply in_or_app. right. left. reflexivity.
Qed.

Lemma toLower_idempotent c : toLower (toLower c) = toLower c.
Proof. destruct c as [[] [] [] [] [] [] [] []]; reflexivity. Qed.

Lemma ToLower_idempotent s : ToLower (ToLower s) = ToLower s.
Proof.
  induction s as [|c s IH]; simpl; [ reflexivity | ].
  rewrite toLower_idempotent, IH. reflexivity.
Qed.

Lemma parseHeader_key line k v :
  parseHeader line = (k, v) -> ToLower k = k.
Proof.
  unfold parseHeader.
  destruct (SplitN (TrimSpace line) ":" 2) as [|p0 [|p1 [|? ?]]];
    intros H; inversion H; subst; try reflexivity.
  apply ToLower_idempotent.
Qed.

Lemma collectLoop_lower_keys r hdrs :
  lower_keys hdrs -> lower_keys (fst (collectLoop r hdrs)).
Proof.
  funelim (collectLoop r hdrs); drop_pairs; try clear Heqcall; simpl; auto.
  intros Hkeys.
  match goal with
  | IH : lower_keys _ -> lower_keys _ |- _ => apply IH
  end.
  match goal with
  | H : parseHeader _ = (?k, ?v) |- _ => apply parseHeader_key in H as Hlow
  end.
  destruct (String.eqb_spec k "") as [->|Hne]; simpl; [ exact Hkeys | ].
  intros k' v' Hk'. destruct (decide (k = k')) as [<-|Hdiff].
  - split; assumption.
  - rewrite lookup_insert_ne in Hk' by exact Hdiff. eauto.
Qed.

(** X15. The header map [collectHeaders] builds has only lowercase,
    non-empty keys, whatever the client sends: the names are folded on
    the way in, so the original spelling of a header name is lost and a
    header is forwarded under its lowercased name. *)
Theorem collectHeaders_lower_keys p :
  lower_keys (fst (collectHeaders p)).
Proof.
  unfold collectHeaders.
  pose proof (collectLoop_lower_keys (reader p) ∅) as H.
  destruct (collectLoop (reader p) ∅) as [hdrs r']. simpl in *.
  apply H. intros k v Hk. rewrite lookup_empty in Hk. discriminate.
Qed.

(** X16. Provided [range] visits every entry of the map, the head
    [sendModifiedRequest] writes always carries a host header: the
    client's, under the key [host], or else a [Host:] line with the host
    name of the target, without its port; and on a map with lowercase
    keys the lines written are the entries of the map other than
    [proxy-connection]. *)
Theorem sendModifiedRequest_always_sends_host p conn :
  range_complete X (headers_ conn) ->
  sendModifiedRequest_text X p conn
  = request_text (requestMethod p +:+ " " +:+ path conn +:+ " "
                  +:+ protocolVer p +:+ CRLF)
                 (modified_headers X conn)
  /\ (exists n v,
        In (n, v) (modified_headers X conn) /\ EqualFold n "Host" = true)
  /\ (headers_ conn !! "host" = None ->
      In ("Host", host conn) (modified_headers X conn))
  /\ (lower_keys (headers_ conn) ->
      forall k v,
        headers_ conn !! k = Some v -> k <> "proxy-connection" ->
        In (k, v) (modified_headers X conn)).
Proof.
  intros Hrange.
  assert (Hkeep : forall k v,
             headers_ conn !! k = Some v ->
             ToLower k <> "proxy-connection" ->
             In (k, v) (modified_headers X conn)).
  { intros k v Hk Hne. unfold modified_headers, forwarded_headers.
    apply in_or_app. left. apply list_elem_of_In, list_elem_of_filter.
    split.
    - simpl. destruct (String.eqb_spec (ToLower k) "proxy-connection");
        [ contradiction | reflexivity ].
    - apply list_elem_of_In. apply Hrange. exact Hk. }
  split; [ apply sendModifiedRequest_text_head | split; [ | split ] ].
  - destruct (headers_ conn !! "host") as [v|] eqn:Hhost.
    + exists "host", v. split; [ | reflexivity ].
      apply Hkeep; [ exact Hhost | discriminate ].
    + exists "Host", (host conn). split; [ | reflexivity ].
      unfold modified_headers. rewrite Hhost.
      apply in_or_app. right. left. reflexivity.
  - intros Hhost. unfold modified_headers. rewrite Hhost.
    apply in_or_app. right. left. reflexivity.
  - intros Hlow k v Hk Hne. apply Hkeep; [ exact Hk | ].
    destruct (Hlow k v Hk) as [-> _]. exact Hne.
Qed.

End HeadersMore.

Lemma range_complete_map_to_list (X : Externals) m :
  map_range X = map_to_list -> Headers.range_complete X m.
Proof.
  intros Hr k v Hk. rewrite Hr.
  apply list_elem_of_In, elem_of_map_to_list. exact Hk.
Qed.


Lemma GET_and_HEAD_read_no_body_witness :
  Plain.method (snd (fst SampleGet.after_headers)) = "GET"
  /\ Plain.body (snd (fst SampleGet.after_headers)) = []
  /\ Plain.ProcessRequest Fixture.lib Fixture.network SampleGet.client
     = snd (Plain.forwardToDestination Fixture.lib Fixture.network
              (snd (fst SampleGet.after_headers)))
       ++ [Plain.EvClose Plain.Client].
Proof.
  assert (Hm : Plain.method (snd (fst SampleGet.after_headers)) = "GET")
    by (vm_compute; reflexivity).
  split; [ exact Hm | ].
  destruct (GET_and_HEAD_read_no_body Fixture.lib Fixture.network
              SampleGet.client
              (snd (fst SampleGet.after_line)) (snd SampleGet.after_line)
              (snd (fst SampleGet.after_headers)) (snd SampleGet.after_headers))
    as (Hbody & Htrace & _).
  - vm_compute; reflexivity.
  - vm_compute; reflexivity.
  - left. exact Hm.
  - split; assumption.
Defined.

Lemma sendModifiedRequest_always_sends_host_witness :
  Headers.range_complete Fixture.lib (Plain.headers_ SampleGet.details)
  /\ exists n v,
       In (n, v) (Plain.modified_headers Fixture.lib SampleGet.details)
       /\ Plain.EqualFold n "Host" = true.
Proof.
  assert (H : Headers.range_complete Fixture.lib
                (Plain.headers_ SampleGet.details))
    by (apply range_complete_map_to_list; reflexivity).
  split; [ exact H | ].
  exact (proj1 (proj2 (sendModifiedRequest_always_sends_host Fixture.lib
                         (Plain.newRequestProcessor SampleGet.client)
                         SampleGet.details H))).
Defined.

(** ** Strings on the wire *)
Section WireFacts.
Import GoStrings GoNet Plain Canonical.

Lemma wire_app (a b : string) : wire (a +:+ b) = wire a ++ wire b.
Proof.
  unfold wire, list_byte_of_string.
  induction a as [|c a IH]; [ reflexivity | ].
  rewrite string_app_cons. simpl. f_equal. exact IH.
Qed.

Lemma byte_eqb_newline c :
  Byte.eqb (byte_of_ascii c) newline = Ascii.eqb c LF.
Proof. destruct c as [[] [] [] [] [] [] [] []]; reflexivity. Qed.

Lemma Cut_cons c s sep :
  Cut (String c s) sep =
  if Ascii.eqb c sep then Some ("", s)
  else match Cut s sep with
       | Some (before, after) => Some (String c before, after)
       | None => None
       end.
Proof. reflexivity. Qed.

Lemma free_of_cons sep c s :
  free_of sep (String c s) <-> Ascii.eqb c sep = false /\ free_of sep s.
Proof.
  unfold free_of, ContainsByte. rewrite Cut_cons.
  destruct (Ascii.eqb c sep).
  - split; [ discriminate | intros [H _]; discriminate ].
  - destruct (Cut s sep) as [[b a]|].
    + split; [ discriminate | intros [_ H]; discriminate ].
    + split; auto.
Qed.

Lemma free_of_app sep a b :
  free_of sep a -> free_of sep b -> free_of sep (a +:+ b).
Proof.
  intros Ha Hb. induction a as [|c a IH]; [ exact Hb | ].
  rewrite string_app_cons. apply free_of_cons.
  apply free_of_cons in Ha as [Hc Ha]. auto.
Qed.

Lemma Cut_app sep a b :
  free_of sep a -> Cut (a +:+ String sep b) sep = Some (a, b).
Proof.
  intros Ha. induction a as [|c a IH].
  - change ("" +:+ String sep b) with (String sep b).
    rewrite Cut_cons, Ascii.eqb_refl. reflexivity.
  - apply free_of_cons in Ha as [Hc Ha].
    rewrite string_app_cons, Cut_cons, Hc, (IH Ha). reflexivity.
Qed.

(** A line without line feed is read back whole. *)
Lemma split_delim_line line rest :
  free_of LF line ->
  split_delim newline (wire (line +:+ CRLF) ++ rest)
  = Some (wire (line +:+ CRLF), rest).
Proof.
  intros Hfree. induction line as [|c line IH].
  - reflexivity.
  - apply free_of_cons in Hfree as [Hc Hfree].
    rewrite string_app_cons.
    change (wire (String c (line +:+ CRLF)))
      with (byte_of_ascii c :: wire (line +:+ CRLF)).
    simpl. rewrite byte_eqb_newline, Hc, (IH Hfree). reflexivity.
Qed.

Lemma ReadString_line line rest fin :
  free_of LF line ->
  ReadString {| pending := wire (line +:+ CRLF) ++ rest; final := fin |} newline
  = (line +:+ CRLF, None, {| pending := rest; final := fin |}).
Proof.
  intros Hfree. unfold ReadString. simpl pending.
  rewrite (split_delim_line line rest Hfree). unfold wire.
  rewrite string_of_list_byte_of_string. reflexivity.
Qed.

Lemma TrimRight_cons c s :
  TrimRightSpace (String c s) =
  match TrimRightSpace s with
  | "" => if isSpace c then "" else String c ""
  | t => String c t
  end.
Proof. reflexivity. Qed.

Lemma TrimRight_CRLF s : TrimRightSpace (s +:+ CRLF) = TrimRightSpace s.
Proof.
  induction s as [|c s IH]; [ reflexivity | ].
  rewrite string_app_cons, !TrimRight_cons, IH. reflexivity.
Qed.

Lemma TrimRight_app a b :
  TrimRightSpace b <> "" ->
  TrimRightSpace (a +:+ b) = a +:+ TrimRightSpace b.
Proof.
  intros Hb. induction a as [|c a IH]; [ reflexivity | ].
  rewrite !string_app_cons, TrimRight_cons, IH.
  destruct (a +:+ TrimRightSpace b) eqn:He; [ | reflexivity ].
  apply string_app_empty in He as Ha. subst a.
  change ("" +:+ TrimRightSpace b) with (TrimRightSpace b) in He.
  contradiction.
Qed.

Lemma TrimLeft_length s :
  (String.length (TrimLeftSpace s) <= String.length s)%nat.
Proof.
  induction s as [|c s IH]; simpl; [ lia | ].
  destruct (isSpace c); simpl; lia.
Qed.

Lemma TrimRight_length s :
  (String.length (TrimRightSpace s) <= String.length s)%nat.
Proof.
  induction s as [|c s IH]; [ simpl; lia | ].
  rewrite TrimRight_cons.
  destruct (TrimRightSpace s); [ destruct (isSpace c) | ]; simpl in *; lia.
Qed.

Lemma TrimLeft_head s :
  TrimLeftSpace s = s ->
  match s with "" => True | String c _ => isSpace c = false end.
Proof.
  destruct s as [|c s]; [ auto | ]. simpl.
  destruct (isSpace c); [ | reflexivity ].
  intros H. pose proof (TrimLeft_length s) as Hl. rewrite H in Hl.
  simpl in Hl. lia.
Qed.

(** A trimmed string loses nothing to either of the two trims. *)
Lemma trimmed_both s :
  trimmed s -> TrimLeftSpace s = s /\ TrimRightSpace s = s.
Proof.
  unfold trimmed, TrimSpace. intros H.
  assert (Hl : TrimLeftSpace s = s).
  { pose proof (TrimRight_length (TrimLeftSpace s)) as H1.
    pose proof (TrimLeft_length s) as H2. rewrite H in H1.
    destruct s as [|c s]; [ reflexivity | ]. simpl in *.
    destruct (isSpace c); [ | reflexivity ].
    pose proof (TrimLeft_length s) as H3. lia. }
  split; [ exact Hl | ]. rewrite Hl in H. exact H.
Qed.

Lemma TrimLeft_app a b :
  a <> "" -> TrimLeftSpace a = a -> TrimLeftSpace (a +:+ b) = a +:+ b.
Proof.
  intros Hne Ha. apply TrimLeft_head in Ha.
  destruct a as [|c a]; [ contradiction | ].
  rewrite string_app_cons. simpl. rewrite Ha. reflexivity.
Qed.

Lemma header_line_unfold n v :
  header_line n v = n +:+ String ":" (String " " (v +:+ CRLF)).
Proof. reflexivity. Qed.

(** What [TrimSpace] leaves of a header line: the name, the colon, and
    something that trims to the value. *)
Lemma header_line_trimmed n v :
  header_shape (n, v) ->
  exists T, TrimSpace (header_line n v) = n +:+ String ":" T
            /\ TrimSpace T = v.
Proof.
  intros (Hn & _ & _ & Hv & _). simpl in Hn, Hv.
  apply trimmed_both in Hn as [Hnl Hnr].
  pose proof Hv as Hv'. apply trimmed_both in Hv' as [Hvl Hvr].
  exists (TrimRightSpace (String " " (v +:+ CRLF))). split.
  - rewrite header_line_unfold. unfold TrimSpace.
    assert (Hleft : TrimLeftSpace (n +:+ String ":" (String " " (v +:+ CRLF)))
                    = n +:+ String ":" (String " " (v +:+ CRLF))).
    { destruct n as [|c n]; [ reflexivity | ].
      apply TrimLeft_app; [ discriminate | exact Hnl ]. }
    rewrite Hleft.
    assert (Hcolon : TrimRightSpace (String ":" (String " " (v +:+ CRLF)))
                     = String ":" (TrimRightSpace (String " " (v +:+ CRLF)))).
    { rewrite (TrimRight_cons ":").
      destruct (TrimRightSpace (String " " (v +:+ CRLF))); reflexivity. }
    rewrite TrimRight_app; rewrite Hcolon; [ reflexivity | discriminate ].
  - change (String " " (v +:+ CRLF)) with (String " " v +:+ CRLF).
    rewrite TrimRight_CRLF, TrimRight_cons, Hvr.
    destruct v as [|c v]; [ reflexivity | ].
    unfold TrimSpace. simpl TrimLeftSpace. exact Hv.
Qed.

Lemma SplitN_two s sep :
  SplitN s sep 2 =
  match Cut s sep with
  | None => [s]
  | Some (before, after) => [before; after]
  end.
Proof. simpl. destruct (Cut s sep) as [[b a]|]; reflexivity. Qed.

Lemma header_line_not_blank n v :
  header_shape (n, v) -> String.eqb (TrimSpace (header_line n v)) "" = false.
Proof.
  intros Hw. destruct (header_line_trimmed n v Hw) as (T & -> & _).
  destruct n; reflexivity.
Qed.

Lemma parseHeaderLine_wire n v :
  header_shape (n, v) ->
  parseHeaderLine (TrimSpace (header_line n v))
  = if String.eqb (ToLower n) "proxy-connection" then None
    else Some {| name := n; value := v |}.
Proof.
  intros Hw. destruct (header_line_trimmed n v Hw) as (T & -> & HT).
  destruct Hw as (Hn & Hcolon & _). simpl in Hn, Hcolon.
  unfold parseHeaderLine. rewrite SplitN_two, (Cut_app ":" n T Hcolon).
  rewrite Hn, HT. reflexivity.
Qed.

Lemma parseHeader_wire n v :
  header_shape (n, v) -> parseHeader (header_line n v) = (ToLower n, v).
Proof.
  intros Hw. destruct (header_line_trimmed n v Hw) as (T & Hline & HT).
  destruct Hw as (Hn & Hcolon & _). simpl in Hn, Hcolon.
  unfold parseHeader. rewrite Hline, SplitN_two, (Cut_app ":" n T Hcolon).
  rewrite Hn, HT. reflexivity.
Qed.

Lemma header_line_free n v :
  header_shape (n, v) -> free_of LF (n +:+ ": " +:+ v).
Proof.
  intros (_ & _ & Hn & _ & Hv). simpl in Hn, Hv.
  apply free_of_app; [ exact Hn | ].
  apply (free_of_app LF ": " v); [ reflexivity | exact Hv ].
Qed.

(** One turn of the loop of [parseHeaders]. *)
Lemma parseHeaders_step rd r line r' :
  ReadString r newline = (line, None, r') ->
  parseHeaders rd r =
  if String.eqb (TrimSpace line) "" then (None, rd, r')
  else match parseHeaderLine (TrimSpace line) with
       | Some header => parseHeaders (add_header rd header) r'
       | None => parseHeaders rd r'
       end.
Proof.
  intros Hread. funelim (parseHeaders rd r); drop_pairs; clear Heqcall;
    match goal with
    | e : ReadString ?r0 _ = _, H : ReadString ?r0 _ = _ |- _ =>
        rewrite e in H; inversion H; subst
    end;
    repeat match goal with
           | H : String.eqb _ _ = _ |- _ => rewrite H; clear H
           | H : parseHeaderLine _ = _ |- _ => rewrite H; clear H
           end;
    reflexivity.
Qed.

(** One turn of the loop of [collectHeaders]. *)
Lemma collectLoop_step r hdrs line r' :
  ReadString r newline = (line, None, r') ->
  collectLoop r hdrs =
  if String.eqb (TrimSpace line) "" then (hdrs, r')
  else collectLoop r'
         (if negb (String.eqb (fst (parseHeader line)) "")
          then <[fst (parseHeader line) := snd (parseHeader line)]> hdrs
          else hdrs).
Proof.
  intros Hread. funelim (collectLoop r hdrs); drop_pairs; clear Heqcall;
    match goal with
    | e : ReadString ?r0 _ = _, H : ReadString ?r0 _ = _ |- _ =>
        rewrite e in H; inversion H; subst
    end;
    repeat match goal with
           | H : String.eqb _ _ = _ |- _ => rewrite H; clear H
           | H : parseHeader _ = _ |- _ => rewrite H; clear H
           end;
    reflexivity.
Qed.

Lemma header_line_assoc n v :
  (n +:+ ": " +:+ v) +:+ CRLF = header_line n v.
Proof. unfold header_line. rewrite !string_app_assoc. reflexivity. Qed.

Lemma render_headers_cons n v hs :
  render_headers ((n, v) :: hs) +:+ CRLF
  = ((n +:+ ": " +:+ v) +:+ CRLF) +:+ (render_headers hs +:+ CRLF).
Proof.
  simpl. unfold header_line. rewrite !string_app_assoc. reflexivity.
Qed.

(** The loop of [parseHeaders] over a rendered block of headers. *)
Lemma parseHeaders_block hs rd rest fin :
  Forall wire_header hs ->
  parseHeaders rd
    {| pending := wire (render_headers hs +:+ CRLF) ++ rest; final := fin |}
  = (None,
     {| method := method rd; targetURL := targetURL rd;
        httpVersion := httpVersion rd;
        headers := headers rd ++ stored hs; body := body rd |},
     {| pending := rest; final := fin |}).
Proof.
  intros Hall. revert rd.
  induction Hall as [|[n v] hs Hw Hall IH]; intros rd.
  - change (render_headers [] +:+ CRLF) with ("" +:+ CRLF).
    rewrite (parseHeaders_step rd _ _ _ (ReadString_line "" rest fin eq_refl)).
    simpl. rewrite app_nil_r. destruct rd; reflexivity.
  - destruct Hw as (_ & _ & Hw).
    rewrite render_headers_cons, wire_app, <- app_assoc.
    rewrite (parseHeaders_step rd _ _ _
               (ReadString_line _ _ fin (header_line_free n v Hw))).
    rewrite header_line_assoc.
    rewrite (header_line_not_blank n v Hw), (parseHeaderLine_wire n v Hw).
    simpl stored.
    destruct (String.eqb (ToLower n) "proxy-connection").
    + rewrite IH. reflexivity.
    + rewrite IH. simpl. rewrite <- app_assoc. reflexivity.
Qed.

(** X17. [parseHeaders] reads back what [sendRequest] writes: from the
    rendering of a list of headers of bytes below 128 (trimmed names
    without colon, trimmed values, no line feed inside) followed by the
    blank line, it stores the headers in order, with their spelling,
    repeated names included, leaving out exactly those named
    Proxy-Connection, and it stops right after the blank line. *)
Theorem parseHeaders_reads_back hs rd rest fin :
  Forall wire_header hs ->
  parseHeaders rd
    {| pending := wire (render_headers hs +:+ CRLF) ++ rest; final := fin |}
  = (None,
     {| method := method rd; targetURL := targetURL rd;
        httpVersion := httpVersion rd;
        headers := headers rd ++ stored hs; body := body rd |},
     {| pending := rest; final := fin |}).
Proof. exact (parseHeaders_block hs rd rest fin). Qed.

Lemma collectLoop_reads_back hs hdrs rest fin :
  Forall wire_header hs ->
  collectLoop
    {| pending := wire (render_headers hs +:+ CRLF) ++ rest; final := fin |}
    hdrs
  = (folded hs hdrs, {| pending := rest; final := fin |}).
Proof.
  intros Hall. revert hdrs.
  induction Hall as [|[n v] hs Hw Hall IH]; intros hdrs.
  - change (render_headers [] +:+ CRLF) with ("" +:+ CRLF).
    rewrite (collectLoop_step _ hdrs _ _ (ReadString_line "" rest fin eq_refl)).
    reflexivity.
  - destruct Hw as (_ & _ & Hw).
    rewrite render_headers_cons, wire_app, <- app_assoc.
    rewrite (collectLoop_step _ hdrs _ _
               (ReadString_line _ _ fin (header_line_free n v Hw))).
    rewrite header_line_assoc.
    rewrite (header_line_not_blank n v Hw), (parseHeader_wire n v Hw).
    simpl fst. simpl snd. rewrite IH. reflexivity.
Qed.

(** X18. [collectHeaders] on the same bytes, headers of bytes below 128
    again: it builds the map from the lowercased names to the values in
    which a later header replaces an earlier one of the same name
    (whatever the case of the letters) and a header without name is
    ignored, and it stops right after the blank line. Proxy-Connection
    is still in the map; it is left out on writing. *)
Theorem collectHeaders_reads_back p hs rest fin :
  Forall wire_header hs ->
  reader p
  = {| pending := wire (render_headers hs +:+ CRLF) ++ rest; final := fin |} ->
  collectHeaders p
  = (folded hs ∅, with_reader p {| pending := rest; final := fin |}).
Proof.
  intros Hall Hreader. unfold collectHeaders.
  rewrite Hreader, (collectLoop_reads_back hs ∅ rest fin Hall). reflexivity.
Qed.

(** *** The request line *)

Lemma spaceless_cons c s :
  spaceless (String c s) = negb (isSpace c) && spaceless s.
Proof. reflexivity. Qed.

Lemma spaceless_free sep s :
  isSpace sep = true -> spaceless s = true -> free_of sep s.
Proof.
  intros Hsep. induction s as [|c s IH]; intros Hs; [ reflexivity | ].
  rewrite spaceless_cons in Hs. apply andb_true_iff in Hs as [Hc Hs].
  apply free_of_cons. split; [ | auto ].
  destruct (Ascii.eqb c sep) eqn:He; [ | reflexivity ].
  apply Ascii.eqb_eq in He. subst c. rewrite Hsep in Hc. discriminate.
Qed.

Lemma spaceless_TrimRight s : spaceless s = true -> TrimRightSpace s = s.
Proof.
  induction s as [|c s IH]; intros Hs; [ reflexivity | ].
  rewrite spaceless_cons in Hs. apply andb_true_iff in Hs as [Hc Hs].
  rewrite TrimRight_cons, (IH Hs). apply negb_true_iff in Hc. rewrite Hc.
  destruct s; reflexivity.
Qed.

Lemma token_TrimLeft s : token s -> TrimLeftSpace s = s.
Proof.
  intros (Hne & Hs & _). destruct s as [|c s]; [ contradiction | ].
  rewrite spaceless_cons in Hs. apply andb_true_iff in Hs as [Hc _].
  apply negb_true_iff in Hc. simpl. rewrite Hc. reflexivity.
Qed.

Lemma Fields_from_cons tok c s :
  Fields_from tok (String c s) =
  if isSpace c then
    match tok with
    | "" => Fields_from "" s
    | _ => tok :: Fields_from "" s
    end
  else Fields_from (tok +:+ String c "") s.
Proof. reflexivity. Qed.

(** A word is read into the field under way. *)
Lemma Fields_from_word tok w s :
  spaceless w = true -> Fields_from tok (w +:+ s) = Fields_from (tok +:+ w) s.
Proof.
  revert tok. induction w as [|c w IH]; intros tok Hw.
  - rewrite string_app_nil_r. reflexivity.
  - rewrite spaceless_cons in Hw. apply andb_true_iff in Hw as [Hc Hw].
    apply negb_true_iff in Hc.
    rewrite string_app_cons, Fields_from_cons, Hc, (IH _ Hw).
    rewrite string_app_assoc. reflexivity.
Qed.

Lemma Fields_word_space w s :
  token w -> Fields_from "" (w +:+ String " " s) = w :: Fields_from "" s.
Proof.
  intros (Hne & Hw & _).
  rewrite (Fields_from_word "" w _ Hw), Fields_from_cons.
  change ("" +:+ w) with w. change (isSpace " ") with true.
  destruct w; [ contradiction | reflexivity ].
Qed.

Lemma Fields_word w : token w -> Fields_from "" w = [w].
Proof.
  intros (Hne & Hw & _). rewrite <- (string_app_nil_r w) at 1.
  rewrite (Fields_from_word "" w "" Hw). change ("" +:+ w) with w.
  destruct w; [ contradiction | reflexivity ].
Qed.

Lemma request_line_unfold m t v :
  request_line m t v = m +:+ String " " (t +:+ String " " v).
Proof. reflexivity. Qed.

Lemma request_line_Fields m t v :
  token m -> token t -> token v -> Fields (request_line m t v) = [m; t; v].
Proof.
  intros Hm Ht Hv. unfold Fields. rewrite request_line_unfold.
  rewrite (Fields_word_space m _ Hm), (Fields_word_space t _ Ht),
    (Fields_word v Hv).
  reflexivity.
Qed.

Lemma request_line_SplitN m t v :
  token m -> token t -> SplitN (request_line m t v) " " 3 = [m; t; v].
Proof.
  intros (_ & Hm & _) (_ & Ht & _). rewrite request_line_unfold.
  change (SplitN ?s " " 3)
    with (match Cut s " " with
          | None => [s]
          | Some (before, after) => before :: SplitN after " " 2
          end).
  rewrite (Cut_app " " m _ (spaceless_free " " m eq_refl Hm)).
  rewrite SplitN_two, (Cut_app " " t _ (spaceless_free " " t eq_refl Ht)).
  reflexivity.
Qed.

Lemma request_line_trimmed m t v :
  token m -> token t -> token v ->
  TrimSpace (request_line m t v +:+ CRLF) = request_line m t v.
Proof.
  intros Hm Ht (Hv & Hvs & _). unfold TrimSpace.
  assert (Hl : TrimLeftSpace (request_line m t v +:+ CRLF)
               = request_line m t v +:+ CRLF).
  { unfold request_line. rewrite string_app_assoc.
    apply TrimLeft_app; [ apply Hm | apply token_TrimLeft, Hm ]. }
  rewrite Hl, TrimRight_CRLF. unfold request_line.
  rewrite <- !string_app_assoc.
  rewrite TrimRight_app; rewrite (spaceless_TrimRight v Hvs);
    [ reflexivity | exact Hv ].
Qed.

Lemma request_line_free m t v :
  token m -> token t -> token v -> free_of LF (request_line m t v).
Proof.
  intros (_ & Hm & _) (_ & Ht & _) (_ & Hv & _). unfold request_line.
  repeat (apply free_of_app;
          [ first [ reflexivity | apply spaceless_free; [ reflexivity | assumption ] ]
          | ]).
  apply spaceless_free; [ reflexivity | assumption ].
Qed.

Lemma request_line_not_blank m t v :
  token m -> String.eqb (request_line m t v) "" = false.
Proof.
  intros [Hm _]. rewrite request_line_unfold.
  destruct m; [ contradiction | reflexivity ].
Qed.

Lemma request_text_wire line hs rest :
  wire (request_text (line +:+ CRLF) hs) ++ rest
  = wire (line +:+ CRLF) ++ wire (render_headers hs +:+ CRLF) ++ rest.
Proof. unfold request_text. rewrite wire_app, <- app_assoc. reflexivity. Qed.

(** X19. [parseIncomingRequest] reads back a whole request: from a
    request line of three words of bytes below 128, such headers and
    the blank line, it takes the three words as method, target and
    version and the headers as [parseHeaders] stores them; for a GET or
    a HEAD it stops there, and for any other method the body is
    everything up to the end of the stream, whatever length the headers
    announce, read under a 5-second deadline that is cleared
    afterwards. *)
Theorem parseIncomingRequest_reads_back m t v hs rest fin :
  token m -> token t -> token v -> Forall wire_header hs ->
  m = "GET" \/ m = "HEAD" \/ fin = io_EOF ->
  parseIncomingRequest emptyRequestData
    {| pending := wire (request_text (request_line m t v +:+ CRLF) hs) ++ rest;
       final := fin |}
  = (None,
     {| method := m; targetURL := t; httpVersion := v; headers := stored hs;
        body := if String.eqb m "GET" || String.eqb m "HEAD" then [] else rest |},
     if String.eqb m "GET" || String.eqb m "HEAD" then []
     else [EvSetReadDeadline Client (Some (5 * time_Second)%Z);
           EvSetReadDeadline Client None]).
Proof.
  intros Hm Ht Hv Hall Hend.
  unfold parseIncomingRequest, readRequestLine.
  rewrite request_text_wire.
  rewrite (ReadString_line _ _ fin (request_line_free m t v Hm Ht Hv)).
  rewrite (request_line_trimmed m t v Hm Ht Hv),
    (request_line_Fields m t v Hm Ht Hv).
  rewrite (parseHeaders_block hs _ rest fin Hall).
  unfold readRequestBody. simpl method. simpl headers. simpl body.
  destruct (String.eqb m "GET" || String.eqb m "HEAD") eqn:Hget.
  - reflexivity.
  - rewrite readBodyLoop_drains. simpl.
    destruct Hend as [-> | [-> | ->]]; [ discriminate | discriminate | ].
    destruct (decide (io_EOF = io_EOF)); [ reflexivity | contradiction ].
Qed.

(** X20. [parseInitialRequest] reads back the request line alone: of a
    line of three words of bytes below 128, the words become method,
    target and version, the reader is left at the first header line,
    and no body is taken. *)
Theorem parseInitialRequest_reads_back m t v after fin :
  token m -> token t -> token v ->
  parseInitialRequest
    (newRequestProcessor
       {| pending := wire (request_line m t v +:+ CRLF) ++ after; final := fin |})
  = (None,
     {| reader := {| pending := after; final := fin |};
        requestMethod := m; requestTarget := t; protocolVer := v;
        requestHeaders := []; requestBody := [] |}).
Proof.
  intros Hm Ht Hv. unfold parseInitialRequest. simpl reader.
  rewrite (ReadString_line _ _ fin (request_line_free m t v Hm Ht Hv)).
  rewrite (request_line_trimmed m t v Hm Ht Hv),
    (request_line_not_blank m t v Hm).
  unfold parseRequestLine.
  rewrite (request_line_SplitN m t v Hm Ht). reflexivity.
Qed.

End WireFacts.

Lemma parseHeaders_reads_back_witness :
  Forall Canonical.wire_header SampleHead.hs
  /\ Plain.parseHeaders Plain.emptyRequestData
       {| Plain.pending :=
            Canonical.wire (Plain.render_headers SampleHead.hs +:+ GoStrings.CRLF)
            ++ SampleHead.rest;
          Plain.final := io_EOF |}
     = (None,
        {| Plain.method := ""; Plain.targetURL := ""; Plain.httpVersion := "";
           Plain.headers :=
             [{| Plain.name := "Host"; Plain.value := "example.com" |};
              {| Plain.name := "Accept"; Plain.value := "*/*" |};
              {| Plain.name := "host"; Plain.value := "other.example" |}];
           Plain.body := [] |},
        {| Plain.pending := SampleHead.rest; Plain.final := io_EOF |}).
Proof.
  assert (H : Forall Canonical.wire_header SampleHead.hs)
    by (repeat (apply List.Forall_cons; [ repeat split | ]); apply List.Forall_nil).
  split; [ exact H | ].
  exact (parseHeaders_reads_back SampleHead.hs Plain.emptyRequestData
           SampleHead.rest io_EOF H).
Defined.

Lemma collectHeaders_reads_back_witness :
  Forall Canonical.wire_header SampleHead.hs
  /\ Plain.collectHeaders
       (Plain.newRequestProcessor
          {| Plain.pending :=
               Canonical.wire
                 (Plain.render_headers SampleHead.hs +:+ GoStrings.CRLF)
               ++ SampleHead.rest;
             Plain.final := io_EOF |})
     = (Canonical.folded SampleHead.hs ∅,
        Plain.newRequestProcessor
          {| Plain.pending := SampleHead.rest; Plain.final := io_EOF |}).
Proof.
  assert (H : Forall Canonical.wire_header SampleHead.hs)
    by (repeat (apply List.Forall_cons; [ repeat split | ]); apply List.Forall_nil).
  split; [ exact H | ].
  exact (collectHeaders_reads_back
           (Plain.newRequestProcessor
              {| Plain.pending :=
                   Canonical.wire
                     (Plain.render_headers SampleHead.hs +:+ GoStrings.CRLF)
                   ++ SampleHead.rest;
                 Plain.final := io_EOF |})
           SampleHead.hs SampleHead.rest io_EOF H eq_refl).
Defined.

Lemma parseIncomingRequest_reads_back_witness :
  Plain.parseIncomingRequest Plain.emptyRequestData
    {| Plain.pending := SampleHead.head "POST" ++ SampleHead.rest;
       Plain.final := io_EOF |}
  = (None,
     {| Plain.method := "POST"; Plain.targetURL := "http://example.com/a";
        Plain.httpVersion := "HTTP/1.1";
        Plain.headers := Canonical.stored SampleHead.hs;
        Plain.body := SampleHead.rest |},
     [Plain.EvSetReadDeadline Plain.Client (Some (5 * Plain.time_Second)%Z);
      Plain.EvSetReadDeadline Plain.Client None]).
Proof.
  apply (parseIncomingRequest_reads_back "POST" "http://example.com/a"
           "HTTP/1.1" SampleHead.hs SampleHead.rest io_EOF).
  - split; [ discriminate | split; reflexivity ].
  - split; [ discriminate | split; reflexivity ].
  - split; [ discriminate | split; reflexivity ].
  - repeat (apply List.Forall_cons; [ repeat split | ]); apply List.Forall_nil.
  - right. right. reflexivity.
Defined.

Lemma parseInitialRequest_reads_back_witness :
  Plain.parseInitialRequest
    (Plain.newRequestProcessor
       {| Plain.pending :=
            Canonical.wire
              (Canonical.request_line "CONNECT" "example.com:443" "HTTP/1.1"
               +:+ GoStrings.CRLF)
            ++ SampleHead.rest;
          Plain.final := io_EOF |})
  = (None,
     {| Plain.reader :=
          {| Plain.pending := SampleHead.rest; Plain.final := io_EOF |};
        Plain.requestMethod := "CONNECT";
        Plain.requestTarget := "example.com:443";
        Plain.protocolVer := "HTTP/1.1";
        Plain.requestHeaders := []; Plain.requestBody := [] |}).
Proof.
  apply (parseInitialRequest_reads_back "CONNECT" "example.com:443" "HTTP/1.1"
           SampleHead.rest io_EOF).
  - split; [ discriminate | split; reflexivity ].
  - split; [ discriminate | split; reflexivity ].
  - split; [ discriminate | split; reflexivity ].
Defined.

(** ** The TLS bridge *)

Section SecureMore.
Context (X : Externals) (net : Plain.Network) (tls : Secure.Bridge).
Import GoStrings GoNet Plain Mint Secure.

Lemma getOrGenerateCert_uninitialised s hostname rt :
  rootCert (generator s) = None \/ rootKey (generator s) = None ->
  cache s !! hostname = None ->
  getOrGenerateCert X s hostname rt
  = (Err (ErrGenerate ErrNotInitialized), s, rt).
Proof.
  intros Hroot Hmiss.
  unfold getOrGenerateCert, GetCertificate, GetOrCreateCertificate,
    createAndStoreCertificate.
  rewrite Hmiss. unfold generateCertificate, validateConfiguration.
  destruct Hroot as [-> | Hkey].
  - reflexivity.
  - rewrite Hkey. destruct (rootCert (generator s)); reflexivity.
Qed.

(** X21. With the store the package builds, no tunnel is ever bridged.
    On a store without cached bundle whose generator lacks the root
    certificate or the root key (nothing in the package hands the loaded
    CA to the generator), [handleClient] never gets past minting: the
    store and the run-time state are left as they were, so the next
    connection meets the same store; no step of the trace is a
    handshake, a TLS dial or a copy; and a CONNECT is answered with the
    line [200 Connection established] and closed. *)
Theorem uninitialised_store_never_bridges client s rt :
  rootCert (generator s) = None \/ rootKey (generator s) = None ->
  cache s = ∅ ->
  exists trace,
    handleClient X net tls client s rt = (trace, s, rt)
    /\ Forall (fun e => past_minting e = false) trace
    /\ (forall p,
          parseInitialRequest (newRequestProcessor client) = (None, p) ->
          isTLSConnection p = true ->
          trace
          = [Ev (EvWrite Client (list_byte_of_string connection_established));
             Ev (EvClose Client)]).
Proof.
  intros Hroot Hcache. unfold handleClient.
  destruct (parseInitialRequest (newRequestProcessor client)) as [[e|] p].
  - eexists. split; [ reflexivity | ]. split.
    + constructor; [ reflexivity | constructor ].
    + intros p' H. discriminate.
  - destruct (isTLSConnection p) eqn:Htls.
    + unfold handleSecureConnection.
      destruct (extractHostAndPort tls (requestTarget p)) as [host port].
      unfold establishTLSConnection. simpl serverName.
      rewrite (getOrGenerateCert_uninitialised s host rt Hroot)
        by (rewrite Hcache; apply lookup_empty).
      eexists. split; [ reflexivity | ]. split.
      * constructor; [ reflexivity | ]. constructor; [ reflexivity | constructor ].
      * intros p' _ _. reflexivity.
    + eexists. split; [ reflexivity | ]. split.
      * apply Forall_app. split.
        -- induction (handlePlainConnection X net p) as [|e evs IH];
             constructor; [ reflexivity | exact IH ].
        -- constructor; [ reflexivity | constructor ].
      * intros p' H Hp'. inversion H; subst. congruence.
Qed.

(** X22. What [establishTLSConnection] does on any store with the cache
    invariant: the client is told that the tunnel is established first,
    whatever follows; the bundle presented in the handshake is the one
    the store holds under the server name afterwards, and it is
    allocated; the origin is dialled only after a successful handshake,
    at the server name and the target port, with certificate
    verification switched off; and the invariant is kept. *)
Theorem bridge_presents_cached_bundle t s rt err trace s' rt' :
  store_ok s rt ->
  establishTLSConnection X tls t s rt = (err, trace, s', rt') ->
  head trace
  = Some (Ev (EvWrite Client (list_byte_of_string connection_established)))
  /\ store_ok s' rt'
  /\ (forall name cert,
        In (EvServer name cert) trace ->
        name = serverName t /\ cache s' !! name = Some cert
        /\ (cert < length (heap rt'))%nat)
  /\ (forall address skip,
        In (EvDialTLS address skip) trace ->
        address = JoinHostPort (serverName t) (targetPort t) /\ skip = true
        /\ exists cert,
             cache s' !! serverName t = Some cert
             /\ Handshake tls (serverName t) cert = None).
Proof.
  intros Hok. unfold establishTLSConnection, getOrGenerateCert, GetCertificate.
  destruct (GetOrCreateCertificate X s (serverName t) rt)
    as [[[cert|e] s1] rt1] eqn:Hg;
    pose proof (GetOrCreateCertificate_store_ok X _ _ _ _ _ _ Hok Hg) as Hok1.
  - pose proof (GetOrCreateCertificate_caches X _ _ _ _ _ _ Hg) as Hc.
    assert (Hserver : forall name c,
               EvServer (serverName t) cert = EvServer name c ->
               name = serverName t /\ cache s1 !! name = Some c
               /\ (c < length (heap rt1))%nat).
    { intros name c H. inversion H; subst.
      split; [ reflexivity | ]. split; [ exact Hc | ].
      destruct Hok1 as [Hal _]. exact (Hal _ _ Hc). }
    destruct (Handshake tls (serverName t) cert) eqn:Hh.
    + intros H; inversion H; subst.
      split; [ reflexivity | ]. split; [ exact Hok1 | ]. split.
      * intros name c Hin. simpl in Hin.
        repeat (destruct Hin as [Hin | Hin]; try discriminate);
          [ exact (Hserver _ _ Hin) | contradiction ].
      * intros address skip Hin. simpl in Hin.
        repeat (destruct Hin as [Hin | Hin]; try discriminate). contradiction.
    + unfold connectToRemoteServer.
      destruct (tls_Dial tls (JoinHostPort (serverName t) (targetPort t)));
        intros H; inversion H; subst;
        (split; [ reflexivity | ]); (split; [ exact Hok1 | ]); split.
      * intros name c Hin. simpl in Hin.
        repeat (destruct Hin as [Hin | Hin]; try discriminate);
          [ exact (Hserver _ _ Hin) | contradiction ].
      * intros address skip Hin. simpl in Hin.
        repeat (destruct Hin as [Hin | Hin]; try discriminate);
          [ | contradiction ].
        inversion Hin; subst. split; [ reflexivity | ].
        split; [ reflexivity | ]. exists cert. split; assumption.
      * intros name c Hin. simpl in Hin.
        repeat (destruct Hin as [Hin | Hin]; try discriminate);
          [ exact (Hserver _ _ Hin) | contradiction ].
      * intros address skip Hin. simpl in Hin.
        repeat (destruct Hin as [Hin | Hin]; try discriminate);
          [ | contradiction ].
        inversion Hin; subst. split; [ reflexivity | ].
        split; [ reflexivity | ]. exists cert. split; assumption.
  - intros H; inversion H; subst.
    split; [ reflexivity | ]. split; [ exact Hok1 | ]. split.
    + intros name c Hin. simpl in Hin.
      repeat (destruct Hin as [Hin | Hin]; try discriminate). contradiction.
    + intros address skip Hin. simpl in Hin.
      repeat (destruct Hin as [Hin | Hin]; try discriminate). contradiction.
Qed.

End SecureMore.

Lemma uninitialised_store_never_bridges_witness :
  exists trace,
    Secure.handleClient Fixture.lib Fixture.network SampleTunnel.bridge
      SampleTunnel.client Mint.defaultStore Fixture.runtime
    = (trace, Mint.defaultStore, Fixture.runtime)
    /\ Forall (fun e => Secure.past_minting e = false) trace
    /\ (forall p,
          Plain.parseInitialRequest
            (Plain.newRequestProcessor SampleTunnel.client) = (None, p) ->
          Plain.isTLSConnection p = true ->
          trace
          = [Secure.Ev
               (Plain.EvWrite Plain.Client
                  (list_byte_of_string Secure.connection_established));
             Secure.Ev (Plain.EvClose Plain.Client)]).
Proof.
  apply (uninitialised_store_never_bridges Fixture.lib Fixture.network
           SampleTunnel.bridge SampleTunnel.client Mint.defaultStore
           Fixture.runtime).
  - left. reflexivity.
  - reflexivity.
Defined.

Lemma bridge_presents_cached_bundle_witness :
  SampleTunnel.established
  = (None,
     [Secure.Ev
        (Plain.EvWrite Plain.Client
           (list_byte_of_string Secure.connection_established));
      Secure.EvServer "Example.test" 0; Secure.EvHandshake;
      Secure.EvDialTLS "Example.test:443" true; Secure.EvCopy;
      Secure.EvCloseTLS Plain.Origin; Secure.EvCloseTLS Plain.Client],
     Fixture.store1, Fixture.runtime1)
  /\ Mint.cache Fixture.store1 !! "Example.test" = Some 0%nat
  /\ (0 < length (Mint.heap Fixture.runtime1))%nat.
Proof.
  assert (H : SampleTunnel.established
              = (None,
                 [Secure.Ev
                    (Plain.EvWrite Plain.Client
                       (list_byte_of_string Secure.connection_established));
                  Secure.EvServer "Example.test" 0; Secure.EvHandshake;
                  Secure.EvDialTLS "Example.test:443" true; Secure.EvCopy;
                  Secure.EvCloseTLS Plain.Origin; Secure.EvCloseTLS Plain.Client],
                 Fixture.store1, Fixture.runtime1))
    by (vm_compute; reflexivity).
  split; [ exact H | ].
  destruct (bridge_presents_cached_bundle Fixture.lib SampleTunnel.bridge
              SampleTunnel.manager Fixture.store Fixture.runtime _ _ _ _
              (store_ok_empty _ _) H) as (_ & _ & Hserver & _).
  destruct (Hserver "Example.test" 0%nat) as (_ & Hc & Hlt).
  - right. left. reflexivity.
  - split; assumption.
Defined.
